(** * HerasCycle: the password-derived vault and the journal reducer

    A shallow embedding of
      - src/lib/HeraVault.ts           (HeraVault, artifact "v1.0-forensic"),
      - the server-guarded copy of it  (HeraVault with the [typeof window] guards),
      - the v96 single-file page       (HeraVault, artifact "v96-forensic"),
      - the v98 single-file page       (HeraSecurity, artifact "v98-gold"; the
                                        v100 page differs only in that string),
      - src/lib/store.ts               (appReducer),
      - src/app/layout.tsx             (handleUnlock, handleSave, updateDay),
    over an explicit model of the browser objects they call
    (window.btoa / window.atob, JSON, TextEncoder, crypto.subtle,
    crypto.getRandomValues, localStorage, Date.now).

    Conventions.  A JavaScript string is a [string]: one [ascii] per code
    unit, so the model covers the strings whose code units are below 256
    (every "binary string" the vault builds is of that kind).  A Uint8Array
    or ArrayBuffer is a [list byte].  A JavaScript number is a rational; the
    vault and the reducer store and copy numbers and never compute with
    them.

    Errors.  The code throws [Error] objects that differ by their message,
    and the model keeps the messages.  In the words of the specification,
    "Invalid Password" and "Password Required" are EmptyPassword,
    "INVALID_CREDENTIALS" and "INVALID_PASSWORD" are InvalidCredentials,
    "CORRUPT_VAULT" and "DECRYPTION_FAILED" are CorruptVault, and
    "ACCESS_DENIED: Decryption Failed." is the one error of
    src/lib/HeraVault.ts, which stores no hash that would tell a wrong
    password from damaged data.  No class has an error for
    UnsupportedFormat or for MalformedArtifact. *)

From Stdlib Require Import List String Ascii Bool Arith NArith ZArith Lia.
From Stdlib.Strings Require Import Byte.
From Stdlib Require QArith DecimalString.
Import ListNotations.

Local Open Scope string_scope.

(** ** Exceptions and outcomes of a call *)

(** What a call can throw: [new Error(message)] raised by the application
    code, or one of the exceptions of the platform functions it calls. *)
Inductive Exn : Type :=
| Error (message : string)      (* throw new Error(message) *)
| SyntaxError                   (* JSON.parse on text that is not JSON *)
| TypeError                     (* property read on null *)
| InvalidCharacterError         (* DOMException of window.atob *)
| OperationError.               (* DOMException of crypto.subtle.decrypt *)

(** [e.message] *)
Definition message (e : Exn) : string :=
  match e with
  | Error m => m
  | SyntaxError => "Unexpected token"
  | TypeError => "Cannot read properties of null"
  | InvalidCharacterError => "The string to be decoded is not correctly encoded."
  | OperationError => "The operation failed for an operation-specific reason"
  end.

Inductive Outcome (A : Type) : Type :=
| Ok (a : A)
| Throw (e : Exn).
Arguments Ok {A} a.
Arguments Throw {A} e.

Definition bytes : Type := list byte.

(** ** window.btoa and window.atob

    The two platform functions as the HTML standard defines them
    (forgiving-base64 encode and decode), on binary strings. *)
Module Base64.

Definition alphabet : list ascii :=
  list_ascii_of_string
    "ABCDEFGHIJKLMNOPQRSTUVWXYZabcdefghijklmnopqrstuvwxyz0123456789+/".

Definition pad_char : ascii := "="%char.

(** The character of a 6-bit value. *)
Definition digit (v : N) : ascii := nth (N.to_nat v) alphabet pad_char.

Fixpoint index_of (c : ascii) (l : list ascii) (i : N) : option N :=
  match l with
  | [] => None
  | x :: l' => if Ascii.eqb x c then Some i else index_of c l' (N.succ i)
  end.

(** The 6-bit value of a character of the alphabet. *)
Definition value (c : ascii) : option N := index_of c alphabet 0%N.

(** Three bytes become four 6-bit values; a final group of one or two
    bytes becomes two or three, the missing bits being zero. *)
Fixpoint sextets_of_bytes (l : list N) : list N :=
  match l with
  | [] => []
  | [a] => [a / 4; (a mod 4) * 16]%N
  | [a; b] => [a / 4; (a mod 4) * 16 + b / 16; (b mod 16) * 4]%N
  | a :: b :: c :: rest =>
      (a / 4 :: (a mod 4) * 16 + b / 16 :: (b mod 16) * 4 + c / 64
         :: c mod 64 :: sextets_of_bytes rest)%N
  end.

Definition padding (len : nat) : list ascii :=
  repeat pad_char ((3 - len mod 3) mod 3).

Definition encode (l : list ascii) : list ascii :=
  map digit (sextets_of_bytes (map N_of_ascii l)) ++ padding (List.length l).

(** [window.btoa(binary)].  It throws only on a code unit above 255, which
    a [string] cannot hold. *)
Definition btoa (binary : string) : string :=
  string_of_list_ascii (encode (list_ascii_of_string binary)).

(** TAB, LF, FF, CR and SPACE. *)
Definition is_ascii_whitespace (c : ascii) : bool :=
  let n := N_of_ascii c in
  (n =? 9)%N || (n =? 10)%N || (n =? 12)%N || (n =? 13)%N || (n =? 32)%N.

Definition drop_last_pad (l : list ascii) : list ascii :=
  match rev l with
  | c :: r => if Ascii.eqb c pad_char then rev r else l
  | [] => l
  end.

(** If the length is a multiple of four, one or two trailing "=" go. *)
Definition strip_padding (l : list ascii) : list ascii :=
  if (List.length l mod 4 =? 0)%nat then drop_last_pad (drop_last_pad l) else l.

Fixpoint values (l : list ascii) : option (list N) :=
  match l with
  | [] => Some []
  | c :: l' =>
      match value c, values l' with
      | Some v, Some vs => Some (v :: vs)
      | _, _ => None
      end
  end.

(** Four 6-bit values give three bytes; a final group of two or three
    gives one or two bytes, the left-over bits being dropped. *)
Fixpoint bytes_of_sextets (v : list N) : list N :=
  match v with
  | s1 :: s2 :: s3 :: s4 :: rest =>
      (s1 * 4 + s2 / 16 :: (s2 mod 16) * 16 + s3 / 4 :: (s3 mod 4) * 64 + s4
         :: bytes_of_sextets rest)%N
  | [s1; s2; s3] => [s1 * 4 + s2 / 16; (s2 mod 16) * 16 + s3 / 4]%N
  | [s1; s2] => [s1 * 4 + s2 / 16]%N
  | _ => []
  end.

Definition decode (data : list ascii) : option (list ascii) :=
  let data := filter (fun c => negb (is_ascii_whitespace c)) data in
  let data := strip_padding data in
  if (List.length data mod 4 =? 1)%nat then None
  else match values data with
       | None => None
       | Some v => Some (map ascii_of_N (bytes_of_sextets v))
       end.

(** The 6-bit values, and lists of values below a bound. *)
Definition below64 : list N := map N.of_nat (seq 0 64).

Definition all_below (bound : N) (l : list N) : Prop :=
  Forall (fun v => (v < bound)%N) l.

(** [window.atob(data)]; [None] stands for its InvalidCharacterError. *)
Definition atob (data : string) : option string :=
  match decode (list_ascii_of_string data) with
  | None => None
  | Some l => Some (string_of_list_ascii l)
  end.

End Base64.

(** ** The two buffer helpers (the same text in every vault class) *)

(** [String.fromCharCode(bytes[i])] *)
Definition fromCharCode (b : byte) : string := String (ascii_of_byte b) EmptyString.

(** [s.charCodeAt(i)], for [i] below the length. *)
Definition charCodeAt (s : string) (i : nat) : N :=
  match String.get i s with
  | Some c => N_of_ascii c
  | None => 0%N
  end.

(** A store into a Uint8Array keeps the value modulo 256. *)
Definition uint8 (n : N) : byte :=
  match Byte.of_N (n mod 256) with
  | Some b => b
  | None => x00
  end.

(** [bufferToBase64]: the loop appends one character per byte, then btoa. *)
Definition bufferToBase64 (buffer : bytes) : string :=
  let binary := fold_left (fun binary b => binary ++ fromCharCode b) buffer "" in
  Base64.btoa binary.

(** [base64ToBuffer]: atob, then one byte per character. *)
Definition base64ToBuffer (base64 : string) : Outcome bytes :=
  match Base64.atob base64 with
  | None => Throw InvalidCharacterError
  | Some binary_string =>
      let len := String.length binary_string in
      Ok (map (fun i => uint8 (charCodeAt binary_string i)) (seq 0 len))
  end.

(** ** JavaScript values that JSON carries *)

Definition number : Type := QArith_base.Q.

#[local] Unset Elimination Schemes.
Inductive json : Type :=
| JNull
| JBool (b : bool)
| JNum (n : number)
| JStr (s : string)
| JArr (items : list json)
| JObj (fields : list (string * json)).
#[local] Set Elimination Schemes.

(** Induction on [json], through the lists of an array and of an object. *)
Section JsonInduction.
Variable P : json -> Prop.
Hypothesis HNull : P JNull.
Hypothesis HBool : forall b, P (JBool b).
Hypothesis HNum : forall n, P (JNum n).
Hypothesis HStr : forall s, P (JStr s).
Hypothesis HArr : forall items, Forall P items -> P (JArr items).
Hypothesis HObj : forall fields, Forall (fun kv => P (snd kv)) fields -> P (JObj fields).

Fixpoint json_induction (v : json) : P v :=
  match v with
  | JNull => HNull
  | JBool b => HBool b
  | JNum n => HNum n
  | JStr s => HStr s
  | JArr items =>
      HArr items
        ((fix all (l : list json) : Forall P l :=
            match l with
            | [] => Forall_nil P
            | x :: r => Forall_cons x (json_induction x) (all r)
            end) items)
  | JObj fields =>
      HObj fields
        ((fix all (l : list (string * json)) : Forall (fun kv => P (snd kv)) l :=
            match l with
            | [] => Forall_nil _
            | kv :: r =>
                Forall_cons (P := fun kv => P (snd kv)) kv
                  (match kv as p return P (snd p) with
                   | (k, x) => json_induction x
                   end) (all r)
            end) fields)
  end.
End JsonInduction.

(** The value of a property read; [None] is [undefined]. *)
Definition jsval : Type := option json.

Fixpoint assoc (k : string) (fields : list (string * json)) : jsval :=
  match fields with
  | [] => None
  | (k', v) :: rest => if String.eqb k' k then Some v else assoc k rest
  end.

(** [v.k] for the property names the vaults read (salt, iv, data, authHash):
    a read on null throws, a read on a boolean, number, string or array
    gives undefined. *)
Definition get_prop (v : json) (k : string) : Outcome jsval :=
  match v with
  | JNull => Throw TypeError
  | JObj fields => Ok (assoc k fields)
  | _ => Ok None
  end.

(** The property [k] of an object, undefined for any other value. *)
Definition prop_of (k : string) (v : json) : jsval :=
  match v with
  | JObj fields => assoc k fields
  | _ => None
  end.

(** [fields] after [obj[k] = x]. *)
Fixpoint set_assoc (k : string) (x : json) (fields : list (string * json))
    : list (string * json) :=
  match fields with
  | [] => [(k, x)]
  | (k', v) :: rest =>
      if String.eqb k' k then (k', x) :: rest else (k', v) :: set_assoc k x rest
  end.

(** The object [v] with its property [k] set to [x]. *)
Definition set_prop (k : string) (x : json) (v : json) : json :=
  match v with
  | JObj fields => JObj (set_assoc k x fields)
  | _ => v
  end.

(** [x === s] for a string [s]. *)
Definition strict_eq_string (s : string) (x : jsval) : bool :=
  match x with
  | Some (JStr t) => String.eqb s t
  | _ => false
  end.

Fixpoint join (sep : string) (l : list string) : string :=
  match l with
  | [] => ""
  | [s] => s
  | s :: rest => s ++ sep ++ join sep rest
  end.

(** ** The platform interface

    The browser functions the vault calls but does not define.  A CryptoKey
    is its raw key bytes (the keys are created extractable, and
    [exportKey("raw", key)] returns those bytes). *)
Class Host : Type := {
  JSON_stringify : json -> string;
  JSON_parse : string -> option json;            (* None: SyntaxError *)
  Number_toString : number -> string;
  TextEncoder_encode : string -> bytes;          (* UTF-8 *)
  TextDecoder_decode : bytes -> string;
  PBKDF2 : forall (hash : string) (iterations : N) (password salt : bytes)
                  (keyLength : N), bytes;
  AES_GCM_encrypt : forall (key iv plaintext : bytes), bytes;
  AES_GCM_decrypt : forall (key iv ciphertext : bytes), option bytes;
                                                 (* None: OperationError *)
  SHA_256 : bytes -> bytes
}.

(** The string a value becomes when it is passed where a string is
    expected (as atob does with its argument). *)
Fixpoint ToString `{Host} (v : json) : string :=
  match v with
  | JNull => "null"
  | JBool true => "true"
  | JBool false => "false"
  | JNum n => Number_toString n
  | JStr s => s
  | JArr items =>
      join "," (map (fun e => match e with JNull => "" | _ => ToString e end) items)
  | JObj _ => "[object Object]"
  end.

Definition ToString_val `{Host} (x : jsval) : string :=
  match x with
  | None => "undefined"
  | Some v => ToString v
  end.

(** ** The world the vault runs in, and the monad of its calls *)

(** The crypto.subtle operations performed, with their inputs. *)
Inductive SubtleCall : Type :=
| call_importKey (keyData : bytes)
| call_deriveKey (salt keyMaterial : bytes)
| call_exportKey (key : bytes)
| call_digest (data : bytes)
| call_encrypt (iv key plaintext : bytes)
| call_decrypt (iv key ciphertext : bytes).

Record World : Type := mkWorld {
  localStorage : string -> option string;
  entropy : nat -> byte;          (* the stream crypto.getRandomValues reads *)
  drawn : nat;                    (* how many of its bytes are used up *)
  now : number;                   (* what Date.now() returns *)
  has_window : bool;              (* false when rendering on the server *)
  subtle_log : list SubtleCall    (* newest first *)
}.

Definition M (A : Type) : Type := World -> Outcome A * World.

Definition ret {A} (a : A) : M A := fun w => (Ok a, w).

Definition throw {A} (e : Exn) : M A := fun w => (Throw e, w).

Definition bind {A B} (m : M A) (k : A -> M B) : M B :=
  fun w => match m w with
           | (Ok a, w') => k a w'
           | (Throw e, w') => (Throw e, w')
           end.

Definition try_catch {A} (body : M A) (handler : Exn -> M A) : M A :=
  fun w => match body w with
           | (Ok a, w') => (Ok a, w')
           | (Throw e, w') => handler e w'
           end.

Definition lift {A} (o : Outcome A) : M A := fun w => (o, w).

Declare Scope vault_scope.
Delimit Scope vault_scope with vault.
Notation "x <- m ;; k" := (bind m (fun x => k))
  (at level 61, m at next level, right associativity) : vault_scope.
Notation "m ;;; k" := (bind m (fun _ => k))
  (at level 61, right associativity) : vault_scope.
Local Open Scope vault_scope.

Definition result {A} (m : M A) (w : World) : Outcome A := fst (m w).
Definition world_after {A} (m : M A) (w : World) : World := snd (m w).

Definition record_call (c : SubtleCall) : M unit :=
  fun w => (Ok tt, mkWorld (localStorage w) (entropy w) (drawn w) (now w)
                           (has_window w) (c :: subtle_log w)).

(** [window.crypto.getRandomValues(new Uint8Array(n))] *)
Definition getRandomValues (n : nat) : M bytes :=
  fun w => (Ok (map (entropy w) (seq (drawn w) n)),
            mkWorld (localStorage w) (entropy w) (drawn w + n) (now w)
                    (has_window w) (subtle_log w)).

Definition Date_now : M number := fun w => (Ok (now w), w).

Definition window_is_undefined : M bool := fun w => (Ok (negb (has_window w)), w).

Definition localStorage_getItem (k : string) : M (option string) :=
  fun w => (Ok (localStorage w k), w).

Definition localStorage_setItem (k v : string) : M unit :=
  fun w => (Ok tt,
            mkWorld (fun k' => if String.eqb k' k then Some v else localStorage w k')
                    (entropy w) (drawn w) (now w) (has_window w) (subtle_log w)).

Section Platform.
Context `{Host}.

Definition JSON_parse_ (text : string) : M json :=
  match JSON_parse text with
  | Some v => ret v
  | None => throw SyntaxError
  end.

Definition subtle_importKey (keyData : bytes) : M bytes :=
  record_call (call_importKey keyData) ;;; ret keyData.

Definition subtle_deriveKey (hash : string) (iterations : N) (salt keyMaterial : bytes)
    (keyLength : N) : M bytes :=
  record_call (call_deriveKey salt keyMaterial) ;;;
  ret (PBKDF2 hash iterations keyMaterial salt keyLength).

Definition subtle_exportKey (key : bytes) : M bytes :=
  record_call (call_exportKey key) ;;; ret key.

Definition subtle_digest (data : bytes) : M bytes :=
  record_call (call_digest data) ;;; ret (SHA_256 data).

Definition subtle_encrypt (iv key plaintext : bytes) : M bytes :=
  record_call (call_encrypt iv key plaintext) ;;;
  ret (AES_GCM_encrypt key iv plaintext).

Definition subtle_decrypt (iv key ciphertext : bytes) : M bytes :=
  record_call (call_decrypt iv key ciphertext) ;;;
  match AES_GCM_decrypt key iv ciphertext with
  | Some plaintext => ret plaintext
  | None => throw OperationError
  end.

(** [this.base64ToBuffer(vault.k)] *)
Definition base64ToBuffer_prop (vault : json) (k : string) : M bytes :=
  x <- lift (get_prop vault k) ;;
  lift (base64ToBuffer (ToString_val x)).

End Platform.

(** ** String.prototype.trim *)

(** White space and line terminators, as far as a [string] holds them:
    TAB, LF, VT, FF, CR, SPACE and the no-break space. *)
Definition is_js_whitespace (c : ascii) : bool :=
  let n := N_of_ascii c in
  (n =? 9)%N || (n =? 10)%N || (n =? 11)%N || (n =? 12)%N || (n =? 13)%N
  || (n =? 32)%N || (n =? 160)%N.

Fixpoint trimStart_chars (l : list ascii) : list ascii :=
  match l with
  | [] => []
  | c :: l' => if is_js_whitespace c then trimStart_chars l' else l
  end.

Definition trim (s : string) : string :=
  string_of_list_ascii
    (rev (trimStart_chars (rev (trimStart_chars (list_ascii_of_string s))))).

(** ** src/lib/types.ts *)
Module Types.

Inductive Theme : Type := blush | serenity | nature.
Inductive Unit : Type := C | F.
Inductive Language : Type := en | es | fr.
Inductive FlowIntensity : Type :=
  flow_none | flow_spotting | flow_light | flow_medium | flow_heavy.
Inductive MucusType : Type :=
  mucus_none | mucus_dry | mucus_sticky | mucus_creamy | mucus_eggwhite | mucus_watery.
Inductive CervixPosition : Type := low_hard | med_firm | high_soft.
Inductive LHResult : Type := negative | faint | equal | peak.

Record CycleDay : Type := mkCycleDay {
  date : string;                 (* YYYY-MM-DD *)
  temperature : option number;   (* number | null *)
  mucus : MucusType;
  flow : FlowIntensity;
  cervix : CervixPosition;
  lhTest : LHResult;
  stressLevel : number;
  notes : string
}.

Record UserProfile : Type := mkUserProfile {
  name : string;
  theme : Theme;
  unit : Unit;
  lang : Language
}.

Record AppState : Type := mkAppState {
  profile : UserProfile;
  cycleData : list CycleDay;
  lastSynced : number;
  unsavedChanges : bool
}.

(** The object tree of a typed value, which is what JSON.stringify sees. *)
Definition Theme_toJSON (t : Theme) : json :=
  JStr match t with blush => "blush" | serenity => "serenity" | nature => "nature" end.

Definition Unit_toJSON (u : Unit) : json :=
  JStr match u with C => "C" | F => "F" end.

Definition Language_toJSON (l : Language) : json :=
  JStr match l with en => "en" | es => "es" | fr => "fr" end.

Definition FlowIntensity_toJSON (f : FlowIntensity) : json :=
  JStr match f with
       | flow_none => "none" | flow_spotting => "spotting" | flow_light => "light"
       | flow_medium => "medium" | flow_heavy => "heavy"
       end.

Definition MucusType_toJSON (m : MucusType) : json :=
  JStr match m with
       | mucus_none => "none" | mucus_dry => "dry" | mucus_sticky => "sticky"
       | mucus_creamy => "creamy" | mucus_eggwhite => "eggwhite"
       | mucus_watery => "watery"
       end.

Definition CervixPosition_toJSON (c : CervixPosition) : json :=
  JStr match c with
       | low_hard => "low_hard" | med_firm => "med_firm" | high_soft => "high_soft"
       end.

Definition LHResult_toJSON (r : LHResult) : json :=
  JStr match r with
       | negative => "negative" | faint => "faint" | equal => "equal" | peak => "peak"
       end.

Definition CycleDay_toJSON (d : CycleDay) : json :=
  JObj [ ("date", JStr (date d));
         ("temperature", match temperature d with Some t => JNum t | None => JNull end);
         ("mucus", MucusType_toJSON (mucus d));
         ("flow", FlowIntensity_toJSON (flow d));
         ("cervix", CervixPosition_toJSON (cervix d));
         ("lhTest", LHResult_toJSON (lhTest d));
         ("stressLevel", JNum (stressLevel d));
         ("notes", JStr (notes d)) ].

Definition UserProfile_toJSON (p : UserProfile) : json :=
  JObj [ ("name", JStr (name p)); ("theme", Theme_toJSON (theme p));
         ("unit", Unit_toJSON (unit p)); ("lang", Language_toJSON (lang p)) ].

Definition AppState_toJSON (s : AppState) : json :=
  JObj [ ("profile", UserProfile_toJSON (profile s));
         ("cycleData", JArr (map CycleDay_toJSON (cycleData s)));
         ("lastSynced", JNum (lastSynced s));
         ("unsavedChanges", JBool (unsavedChanges s)) ].

End Types.

(** ** src/lib/store.ts *)
Module Store.

(** [DEFAULT_STATE]; its [lastSynced] is Date.now() at the time the module
    is loaded. *)
Definition DEFAULT_STATE (loaded_at : number) : Types.AppState :=
  Types.mkAppState (Types.mkUserProfile "Hera" Types.blush Types.C Types.en)
                   [] loaded_at false.

(** [Partial<UserProfile>] *)
Record PartialUserProfile : Type := mkPartialUserProfile {
  name : option string;
  theme : option Types.Theme;
  unit : option Types.Unit;
  lang : option Types.Language
}.

Inductive Action : Type :=
| LOAD_STATE (payload : Types.AppState)
| UPDATE_PROFILE (payload : PartialUserProfile)
| UPDATE_CYCLE_DAY (payload : Types.CycleDay)
| RESET_APP
| MARK_SAVED.

Fixpoint findIndex_from {A} (p : A -> bool) (l : list A) (i : Z) : Z :=
  match l with
  | [] => (-1)%Z
  | x :: l' => if p x then i else findIndex_from p l' (i + 1)%Z
  end.

(** [array.findIndex(p)]: the first index whose element satisfies [p],
    or -1. *)
Definition findIndex {A} (p : A -> bool) (l : list A) : Z := findIndex_from p l 0%Z.

(** [array[i] = v] for [i] up to the length: inside the array the element
    is replaced, at the length the array grows by one.  (Beyond the length
    JavaScript leaves holes; [findIndex] never gives such an index.) *)
Fixpoint array_set {A} (l : list A) (i : nat) (v : A) : list A :=
  match l, i with
  | [], _ => [v]
  | _ :: l', O => v :: l'
  | x :: l', S i' => x :: array_set l' i' v
  end.

(** [array.push(v)] *)
Definition push {A} (l : list A) (v : A) : list A := l ++ [v].

Definition or_else {A} (o : option A) (d : A) : A :=
  match o with Some a => a | None => d end.

(** [{ ...profile, ...payload }] *)
Definition spread_profile (p : Types.UserProfile) (payload : PartialUserProfile)
    : Types.UserProfile :=
  Types.mkUserProfile (or_else (name payload) (Types.name p))
                      (or_else (theme payload) (Types.theme p))
                      (or_else (unit payload) (Types.unit p))
                      (or_else (lang payload) (Types.lang p)).

(** [appReducer]; [date_now] is what Date.now() returns when it runs. *)
Definition appReducer (loaded_at date_now : number)
    (state : Types.AppState) (action : Action) : Types.AppState :=
  match action with
  | LOAD_STATE payload =>
      Types.mkAppState (Types.profile payload) (Types.cycleData payload)
                       (Types.lastSynced payload) false
  | UPDATE_PROFILE payload =>
      Types.mkAppState (spread_profile (Types.profile state) payload)
                       (Types.cycleData state) (Types.lastSynced state) true
  | UPDATE_CYCLE_DAY payload =>
      let existingIndex :=
        findIndex (fun d => String.eqb (Types.date d) (Types.date payload))
                  (Types.cycleData state) in
      let newData := Types.cycleData state in
      let newData :=
        if (existingIndex >=? 0)%Z
        then array_set newData (Z.to_nat existingIndex) payload
        else push newData payload in
      Types.mkAppState (Types.profile state) newData (Types.lastSynced state) true
  | RESET_APP => DEFAULT_STATE loaded_at
  | MARK_SAVED =>
      Types.mkAppState (Types.profile state) (Types.cycleData state) date_now false
  end.

End Store.

(** ** The vault classes *)

Record VaultConfig : Type := mkVaultConfig {
  algo : string;
  keyLength : N;        (* the field [length] *)
  hash : string;
  iterations : N;
  saltLen : nat;
  ivLen : nat
}.

(** [VAULT_CONFIG], the same in every file. *)
Definition VAULT_CONFIG : VaultConfig :=
  mkVaultConfig "AES-GCM" 256 "SHA-256" 600000 16 12.

(** [!password] *)
Definition falsy (s : string) : bool := String.eqb s "".

(** [!stored], for the result of [localStorage.getItem] *)
Definition falsy_item (stored : option string) : bool :=
  match stored with
  | None => true
  | Some s => falsy s
  end.

(** *** src/lib/HeraVault.ts: the vault that owns its localStorage slot *)
Module HeraVault.
Section WithHost.
Context `{Host}.

Definition deriveKey (password : string) (salt : bytes) : M bytes :=
  keyMaterial <- subtle_importKey (TextEncoder_encode password) ;;
  subtle_deriveKey (hash VAULT_CONFIG) (iterations VAULT_CONFIG) salt keyMaterial 256.

Definition vaultArtifact (salt iv ciphertext : bytes) (timestamp : number) : json :=
  JObj [ ("salt", JStr (bufferToBase64 salt));
         ("iv", JStr (bufferToBase64 iv));
         ("data", JStr (bufferToBase64 ciphertext));
         ("version", JStr "v1.0-forensic");
         ("timestamp", JNum timestamp) ].

Definition lock (data : Types.AppState) (password : string) : M unit :=
  try_catch
    (salt <- getRandomValues (saltLen VAULT_CONFIG) ;;
     iv <- getRandomValues (ivLen VAULT_CONFIG) ;;
     key <- deriveKey password salt ;;
     let encodedData := TextEncoder_encode (JSON_stringify (Types.AppState_toJSON data)) in
     ciphertext <- subtle_encrypt iv key encodedData ;;
     timestamp <- Date_now ;;
     localStorage_setItem "HERA_VAULT_CORE"
       (JSON_stringify (vaultArtifact salt iv ciphertext timestamp)))
    (fun error => throw (Error "Security Breach: Encryption Failed.")).

(** The result is [AppState | null]: [None] is null, and the state is the
    value JSON.parse built, returned unchecked. *)
Definition unlock (password : string) : M (option json) :=
  stored <- localStorage_getItem "HERA_VAULT_CORE" ;;
  if falsy_item stored then ret None
  else
    try_catch
      (vault <- JSON_parse_ (match stored with Some s => s | None => "" end) ;;
       salt <- base64ToBuffer_prop vault "salt" ;;
       iv <- base64ToBuffer_prop vault "iv" ;;
       data <- base64ToBuffer_prop vault "data" ;;
       key <- deriveKey password salt ;;
       decrypted <- subtle_decrypt iv key data ;;
       state <- JSON_parse_ (TextDecoder_decode decrypted) ;;
       ret (Some state))
      (fun error => throw (Error "ACCESS_DENIED: Decryption Failed.")).

End WithHost.
End HeraVault.

(** *** The copy of HeraVault with the server-side guards *)
Module HeraVaultSSR.
Section WithHost.
Context `{Host}.

Definition deriveKey (password : string) (salt : bytes) : M bytes :=
  no_window <- window_is_undefined ;;
  if no_window then throw (Error "Crypto unavailable on server")
  else
    keyMaterial <- subtle_importKey (TextEncoder_encode password) ;;
    subtle_deriveKey (hash VAULT_CONFIG) (iterations VAULT_CONFIG) salt keyMaterial 256.

Definition lock (data : Types.AppState) (password : string) : M unit :=
  no_window <- window_is_undefined ;;
  if no_window then ret tt
  else
    try_catch
      (salt <- getRandomValues (saltLen VAULT_CONFIG) ;;
       iv <- getRandomValues (ivLen VAULT_CONFIG) ;;
       key <- deriveKey password salt ;;
       let encodedData :=
         TextEncoder_encode (JSON_stringify (Types.AppState_toJSON data)) in
       ciphertext <- subtle_encrypt iv key encodedData ;;
       timestamp <- Date_now ;;
       localStorage_setItem "HERA_VAULT_CORE"
         (JSON_stringify (HeraVault.vaultArtifact salt iv ciphertext timestamp)))
      (fun error => throw (Error "Security Breach: Encryption Failed.")).

Definition unlock (password : string) : M (option json) :=
  no_window <- window_is_undefined ;;
  if no_window then ret None
  else
    stored <- localStorage_getItem "HERA_VAULT_CORE" ;;
    if falsy_item stored then ret None
    else
      try_catch
        (vault <- JSON_parse_ (match stored with Some s => s | None => "" end) ;;
         salt <- base64ToBuffer_prop vault "salt" ;;
         iv <- base64ToBuffer_prop vault "iv" ;;
         data <- base64ToBuffer_prop vault "data" ;;
         key <- deriveKey password salt ;;
         decrypted <- subtle_decrypt iv key data ;;
         state <- JSON_parse_ (TextDecoder_decode decrypted) ;;
         ret (Some state))
        (fun error => throw (Error "ACCESS_DENIED: Decryption Failed.")).

End WithHost.
End HeraVaultSSR.

(** *** HeraVault of the v96 page: the artifact is returned, with an
    authentication hash of the key *)
Module HeraVault96.
Section WithHost.
Context `{Host}.

Definition deriveKey : string -> bytes -> M bytes := HeraVault.deriveKey.

Definition vaultArtifact (salt iv authHashBuffer ciphertext : bytes) : json :=
  JObj [ ("salt", JStr (bufferToBase64 salt));
         ("iv", JStr (bufferToBase64 iv));
         ("authHash", JStr (bufferToBase64 authHashBuffer));
         ("data", JStr (bufferToBase64 ciphertext));
         ("version", JStr "v96-forensic") ].

Definition lock (data : Types.AppState) (password : string) : M string :=
  if falsy password then throw (Error "Password Required")
  else
    salt <- getRandomValues (saltLen VAULT_CONFIG) ;;
    iv <- getRandomValues (ivLen VAULT_CONFIG) ;;
    key <- deriveKey password salt ;;
    let encodedData := TextEncoder_encode (JSON_stringify (Types.AppState_toJSON data)) in
    ciphertext <- subtle_encrypt iv key encodedData ;;
    exportedKey <- subtle_exportKey key ;;
    authHashBuffer <- subtle_digest exportedKey ;;
    ret (JSON_stringify (vaultArtifact salt iv authHashBuffer ciphertext)).

Definition unlock (vaultStr password : string) : M json :=
  try_catch
    (vault <- JSON_parse_ vaultStr ;;
     salt <- base64ToBuffer_prop vault "salt" ;;
     iv <- base64ToBuffer_prop vault "iv" ;;
     data <- base64ToBuffer_prop vault "data" ;;
     key <- deriveKey password salt ;;
     exportedKey <- subtle_exportKey key ;;
     authHashBuffer <- subtle_digest exportedKey ;;
     authHash <- lift (get_prop vault "authHash") ;;
     (if negb (strict_eq_string (bufferToBase64 authHashBuffer) authHash)
      then throw (Error "INVALID_PASSWORD") else ret tt) ;;;
     decrypted <- subtle_decrypt iv key data ;;
     JSON_parse_ (TextDecoder_decode decrypted))
    (fun e =>
       if String.eqb (message e) "INVALID_PASSWORD" then throw e
       else throw (Error "CORRUPT_VAULT")).

End WithHost.
End HeraVault96.

(** *** HeraSecurity of the v98 page *)
Module HeraSecurity.
Section WithHost.
Context `{Host}.

Definition deriveKey : string -> bytes -> M bytes := HeraVault.deriveKey.

Definition vaultArtifact (salt iv authHashBuffer ciphertext : bytes) : json :=
  JObj [ ("salt", JStr (bufferToBase64 salt));
         ("iv", JStr (bufferToBase64 iv));
         ("authHash", JStr (bufferToBase64 authHashBuffer));
         ("data", JStr (bufferToBase64 ciphertext));
         ("version", JStr "v98-gold") ].

Definition lock (data : Types.AppState) (password : string) : M string :=
  if falsy password || (String.length (trim password) =? 0)%nat
  then throw (Error "Invalid Password")
  else
    salt <- getRandomValues (saltLen VAULT_CONFIG) ;;
    iv <- getRandomValues (ivLen VAULT_CONFIG) ;;
    key <- deriveKey password salt ;;
    exportedKey <- subtle_exportKey key ;;
    authHashBuffer <- subtle_digest exportedKey ;;
    let encodedData := TextEncoder_encode (JSON_stringify (Types.AppState_toJSON data)) in
    ciphertext <- subtle_encrypt iv key encodedData ;;
    ret (JSON_stringify (vaultArtifact salt iv authHashBuffer ciphertext)).

Definition unlock (vaultStr password : string) : M json :=
  vault <- JSON_parse_ vaultStr ;;
  salt <- base64ToBuffer_prop vault "salt" ;;
  iv <- base64ToBuffer_prop vault "iv" ;;
  data <- base64ToBuffer_prop vault "data" ;;
  key <- deriveKey password salt ;;
  exportedKey <- subtle_exportKey key ;;
  authHashBuffer <- subtle_digest exportedKey ;;
  let computedHash := bufferToBase64 authHashBuffer in
  authHash <- lift (get_prop vault "authHash") ;;
  (if negb (strict_eq_string computedHash authHash)
   then throw (Error "INVALID_CREDENTIALS") else ret tt) ;;;
  try_catch
    (decrypted <- subtle_decrypt iv key data ;;
     JSON_parse_ (TextDecoder_decode decrypted))
    (fun e => throw (Error "DECRYPTION_FAILED")).

End WithHost.
End HeraSecurity.

(** ** Assumptions on the platform

    What the vault relies on from JSON, TextEncoder / TextDecoder and
    AES-GCM when they are used as intended. *)
Class Faithful `{Host} : Prop := {
  JSON_parse_stringify : forall v, JSON_parse (JSON_stringify v) = Some v;
  JSON_stringify_nonempty : forall v, JSON_stringify v <> "";
  decode_encode : forall s, TextDecoder_decode (TextEncoder_encode s) = s;
  decrypt_encrypt :
    forall key iv plaintext,
      AES_GCM_decrypt key iv (AES_GCM_encrypt key iv plaintext) = Some plaintext
}.




Section Keys.
Context `{Host}.

(** The key [deriveKey] computes. *)
Definition derived_key (password : string) (salt : bytes) : bytes :=
  PBKDF2 (hash VAULT_CONFIG) (iterations VAULT_CONFIG)
         (TextEncoder_encode password) salt 256.

(** The authentication hash stored with the artifact. *)
Definition verifier (password : string) (salt : bytes) : bytes :=
  SHA_256 (derived_key password salt).

(** What [lock] encrypts. *)
Definition encodedData (data : Types.AppState) : bytes :=
  TextEncoder_encode (JSON_stringify (Types.AppState_toJSON data)).

(** The key derivation and the hash give the two passwords different
    authentication hashes under [salt]. *)
Definition tells_apart (salt : bytes) (password1 password2 : string) : Prop :=
  verifier password1 salt <> verifier password2 salt.

(** AES-GCM does not open [ciphertext] under [key]. *)
Definition refuses (key iv ciphertext : bytes) : Prop :=
  AES_GCM_decrypt key iv ciphertext = None.

End Keys.

(** The salt and the nonce a [lock] draws in world [w]. *)
Definition fresh_salt (w : World) : bytes :=
  map (entropy w) (seq (drawn w) (saltLen VAULT_CONFIG)).

Definition fresh_iv (w : World) : bytes :=
  map (entropy w) (seq (drawn w + saltLen VAULT_CONFIG) (ivLen VAULT_CONFIG)).

(** ** Definitions used to state the properties *)

(** The password test of [HeraSecurity.lock]. *)
Definition blank (password : string) : bool :=
  falsy password || (String.length (trim password) =? 0)%nat.

(** A computation that leaves localStorage as it found it, whatever its
    outcome. *)
Definition keeps_storage {A} (m : M A) : Prop :=
  forall w, localStorage (world_after m w) = localStorage w.

Section Opening.
Context `{Host}.

(** The ciphertext a [lock] produces in world [w]. *)
Definition sealed (data : Types.AppState) (password : string) (w : World) : bytes :=
  AES_GCM_encrypt (derived_key password (fresh_salt w)) (fresh_iv w) (encodedData data).

(** The artifact object each [lock] builds in world [w]. *)
Definition HeraSecurity_artifact (data : Types.AppState) (password : string)
    (w : World) : json :=
  HeraSecurity.vaultArtifact (fresh_salt w) (fresh_iv w)
    (verifier password (fresh_salt w)) (sealed data password w).

Definition HeraVault96_artifact (data : Types.AppState) (password : string)
    (w : World) : json :=
  HeraVault96.vaultArtifact (fresh_salt w) (fresh_iv w)
    (verifier password (fresh_salt w)) (sealed data password w).

Definition HeraVault_artifact (data : Types.AppState) (password : string)
    (w : World) : json :=
  HeraVault.vaultArtifact (fresh_salt w) (fresh_iv w) (sealed data password w) (now w).


(** What each [unlock] answers once it has read the buffers [salt], [iv]
    and [data] from the artifact. *)
Definition HeraSecurity_open (salt iv data : bytes) (authHash : jsval)
    (password : string) : Outcome json :=
  if strict_eq_string (bufferToBase64 (verifier password salt)) authHash then
    match AES_GCM_decrypt (derived_key password salt) iv data with
    | Some plaintext =>
        match JSON_parse (TextDecoder_decode plaintext) with
        | Some state => Ok state
        | None => Throw (Error "DECRYPTION_FAILED")
        end
    | None => Throw (Error "DECRYPTION_FAILED")
    end
  else Throw (Error "INVALID_CREDENTIALS").

Definition HeraVault96_open (salt iv data : bytes) (authHash : jsval)
    (password : string) : Outcome json :=
  if strict_eq_string (bufferToBase64 (verifier password salt)) authHash then
    match AES_GCM_decrypt (derived_key password salt) iv data with
    | Some plaintext =>
        match JSON_parse (TextDecoder_decode plaintext) with
        | Some state => Ok state
        | None => Throw (Error "CORRUPT_VAULT")
        end
    | None => Throw (Error "CORRUPT_VAULT")
    end
  else Throw (Error "INVALID_PASSWORD").

Definition HeraVault_open (salt iv data : bytes) (password : string)
    : Outcome (option json) :=
  match AES_GCM_decrypt (derived_key password salt) iv data with
  | Some plaintext =>
      match JSON_parse (TextDecoder_decode plaintext) with
      | Some state => Ok (Some state)
      | None => Throw (Error "ACCESS_DENIED: Decryption Failed.")
      end
  | None => Throw (Error "ACCESS_DENIED: Decryption Failed.")
  end.

(** The world [HeraVault.lock] leaves: two draws, three calls, one item. *)
Definition HeraVault_locked (data : Types.AppState) (password : string) (w : World)
    : World :=
  mkWorld
    (fun k => if String.eqb k "HERA_VAULT_CORE"
              then Some (JSON_stringify (HeraVault_artifact data password w))
              else localStorage w k)
    (entropy w) (drawn w + saltLen VAULT_CONFIG + ivLen VAULT_CONFIG) (now w)
    (has_window w)
    (call_encrypt (fresh_iv w) (derived_key password (fresh_salt w)) (encodedData data)
     :: call_deriveKey (fresh_salt w) (TextEncoder_encode password)
     :: call_importKey (TextEncoder_encode password) :: subtle_log w).

End Opening.

(** ** A small executable host

    An instance of the platform interface that computes inside Rocq, so
    that the vault can be run on concrete inputs: a length-prefixed
    serialisation in place of JSON text, the bytes of a string in place of
    UTF-8, concatenation for the key derivation and a checksum tag for the
    cipher.  It meets the assumptions above. *)
Module SimpleHost.

Definition enc_nat (n : nat) : list ascii := (repeat "1"%char n ++ ["0"%char])%list.

Fixpoint dec_nat (l : list ascii) : option (nat * list ascii) :=
  match l with
  | c :: r =>
      if Ascii.eqb c "0" then Some (O, r)
      else if Ascii.eqb c "1" then
        match dec_nat r with
        | Some (n, r') => Some (S n, r')
        | None => None
        end
      else None
  | [] => None
  end.

Definition enc_str (s : string) : list ascii :=
  (enc_nat (String.length s) ++ list_ascii_of_string s)%list.

Definition dec_str (l : list ascii) : option (string * list ascii) :=
  match dec_nat l with
  | Some (n, r) =>
      if (n <=? List.length r)%nat
      then Some (string_of_list_ascii (firstn n r), skipn n r)
      else None
  | None => None
  end.

Definition enc_num (q : number) : list ascii :=
  ((if (QArith_base.Qnum q <? 0)%Z then "-"%char else "+"%char)
     :: enc_nat (Z.abs_nat (QArith_base.Qnum q))
     ++ enc_nat (Pos.to_nat (QArith_base.Qden q)))%list.

Definition dec_num (l : list ascii) : option (number * list ascii) :=
  match l with
  | c :: r =>
      match dec_nat r with
      | Some (n, r') =>
          match dec_nat r' with
          | Some (d, r'') =>
              let z := if Ascii.eqb c "-" then (- Z.of_nat n)%Z else Z.of_nat n in
              Some (QArith_base.Qmake z (Pos.of_nat d), r'')
          | None => None
          end
      | None => None
      end
  | [] => None
  end.

Fixpoint enc (v : json) : list ascii :=
  match v with
  | JNull => ["n"%char]
  | JBool true => ["t"%char]
  | JBool false => ["f"%char]
  | JNum q => "#"%char :: enc_num q
  | JStr s => "s"%char :: enc_str s
  | JArr items =>
      ("a"%char :: enc_nat (List.length items) ++ List.concat (map enc items))%list
  | JObj fields =>
      ("o"%char :: enc_nat (List.length fields)
         ++ List.concat (map (fun kv => match kv with
                                   | (k, x) => enc_str k ++ enc x
                                   end) fields))%list
  end.

Fixpoint dec_items (one : list ascii -> option (json * list ascii)) (n : nat)
    (l : list ascii) : option (list json * list ascii) :=
  match n with
  | O => Some ([], l)
  | S n' =>
      match one l with
      | Some (v, r) =>
          match dec_items one n' r with
          | Some (vs, r') => Some (v :: vs, r')
          | None => None
          end
      | None => None
      end
  end.

Fixpoint dec_fields (one : list ascii -> option (json * list ascii)) (n : nat)
    (l : list ascii) : option (list (string * json) * list ascii) :=
  match n with
  | O => Some ([], l)
  | S n' =>
      match dec_str l with
      | Some (k, r) =>
          match one r with
          | Some (v, r') =>
              match dec_fields one n' r' with
              | Some (kvs, r'') => Some ((k, v) :: kvs, r'')
              | None => None
              end
          | None => None
          end
      | None => None
      end
  end.

Fixpoint dec (fuel : nat) (l : list ascii) : option (json * list ascii) :=
  match fuel with
  | O => None
  | S fuel' =>
      match l with
      | [] => None
      | c :: r =>
          if Ascii.eqb c "n" then Some (JNull, r)
          else if Ascii.eqb c "t" then Some (JBool true, r)
          else if Ascii.eqb c "f" then Some (JBool false, r)
          else if Ascii.eqb c "#" then
            match dec_num r with
            | Some (q, r') => Some (JNum q, r')
            | None => None
            end
          else if Ascii.eqb c "s" then
            match dec_str r with
            | Some (s, r') => Some (JStr s, r')
            | None => None
            end
          else if Ascii.eqb c "a" then
            match dec_nat r with
            | Some (n, r') =>
                match dec_items (dec fuel') n r' with
                | Some (items, r'') => Some (JArr items, r'')
                | None => None
                end
            | None => None
            end
          else if Ascii.eqb c "o" then
            match dec_nat r with
            | Some (n, r') =>
                match dec_fields (dec fuel') n r' with
                | Some (fields, r'') => Some (JObj fields, r'')
                | None => None
                end
            | None => None
            end
          else None
      end
  end.

(** The encoding of one property of an object. *)
Definition enc_field (kv : string * json) : list ascii :=
  match kv with (k, x) => (enc_str k ++ enc x)%list end.

Definition stringify (v : json) : string := string_of_list_ascii (enc v).

Definition parse (text : string) : option json :=
  let l := list_ascii_of_string text in
  match dec (S (List.length l)) l with
  | Some (v, []) => Some v
  | _ => None
  end.

(** The sum of the bytes. *)
Definition total (l : bytes) : N := fold_right (fun b acc => Byte.to_N b + acc)%N 0%N l.

Definition checksum (l : bytes) : N := (total l mod 256)%N.

Definition tag (key iv body : bytes) : byte :=
  uint8 (checksum (key ++ iv ++ body)%list).

Definition encrypt (key iv plaintext : bytes) : bytes :=
  (plaintext ++ [tag key iv plaintext])%list.

Definition decrypt (key iv ciphertext : bytes) : option bytes :=
  match rev ciphertext with
  | [] => None
  | t :: rbody =>
      let body := rev rbody in
      if Byte.eqb t (tag key iv body) then Some body else None
  end.

#[export] Instance host : Host := {
  JSON_stringify := stringify;
  JSON_parse := parse;
  Number_toString := fun q => string_of_list_ascii (enc_num q);
  TextEncoder_encode := list_byte_of_string;
  TextDecoder_decode := string_of_list_byte;
  PBKDF2 := fun _ _ password salt _ => (password ++ salt)%list;
  AES_GCM_encrypt := encrypt;
  AES_GCM_decrypt := decrypt;
  SHA_256 := fun data => data
}.

(** A browser world: an empty store, a counting entropy stream. *)
Definition world0 : World :=
  mkWorld (fun _ => None) (fun i => uint8 (N.of_nat i)) 0
          (QArith_base.Qmake 1000 1) true [].

(** The default journal, one logged day, and that day logged again. *)
Definition state0 : Types.AppState := Store.DEFAULT_STATE (QArith_base.Qmake 0 1).

Definition day1 : Types.CycleDay :=
  Types.mkCycleDay "2024-01-05" None Types.mucus_none Types.flow_none
                   Types.low_hard Types.negative (QArith_base.Qmake 1 1) "".

Definition day1_again : Types.CycleDay :=
  Types.mkCycleDay "2024-01-05" (Some (QArith_base.Qmake 73 2)) Types.mucus_dry
                   Types.flow_light Types.low_hard Types.negative
                   (QArith_base.Qmake 2 1) "rested".

Definition state1 : Types.AppState :=
  Store.appReducer (QArith_base.Qmake 0 1) (QArith_base.Qmake 0 1) state0
                   (Store.UPDATE_CYCLE_DAY day1).


(** The artifact of locking [state0] under "sesame123" in [world0], with
    a version no vault writes. *)
Definition future_artifact : string :=
  stringify (set_prop "version" (JStr "vX-future")
               (HeraSecurity_artifact state0 "sesame123" world0)).

(** The same artifact without its authHash. *)
Definition hashless_artifact : string :=
  stringify
    (JObj [ ("salt", JStr (bufferToBase64 (fresh_salt world0)));
            ("iv", JStr (bufferToBase64 (fresh_iv world0)));
            ("data", JStr (bufferToBase64 (sealed state0 "sesame123" world0)));
            ("version", JStr "v98-gold") ]).


End SimpleHost.

(** ** The key derivation of the browser

    PBKDF2 with HMAC-SHA-256, as crypto.subtle.deriveKey computes it:
    SHA-256 after FIPS 180-4, HMAC after RFC 2104, PBKDF2 after RFC 8018.
    Words are numbers below 2^32. *)
Module SHA256.
Local Open Scope N_scope.

Definition word (x : N) : N := N.land x 0xffffffff.

Definition add (x y : N) : N := word (x + y).

Definition rotr (n x : N) : N := N.lor (N.shiftr x n) (word (N.shiftl x (32 - n))).

Definition Ch (x y z : N) : N := N.lxor (N.land x y) (N.land (N.lxor x 0xffffffff) z).

Definition Maj (x y z : N) : N :=
  N.lxor (N.lxor (N.land x y) (N.land x z)) (N.land y z).

Definition Sigma0 (x : N) : N := N.lxor (N.lxor (rotr 2 x) (rotr 13 x)) (rotr 22 x).
Definition Sigma1 (x : N) : N := N.lxor (N.lxor (rotr 6 x) (rotr 11 x)) (rotr 25 x).
Definition sigma0 (x : N) : N := N.lxor (N.lxor (rotr 7 x) (rotr 18 x)) (N.shiftr x 3).
Definition sigma1 (x : N) : N := N.lxor (N.lxor (rotr 17 x) (rotr 19 x)) (N.shiftr x 10).

(** The constants are taken from their definition: the first 32 bits of
    the fractional parts of the cube roots of the first 64 primes, and of
    the square roots of the first 8. *)
Definition is_prime (n : nat) : bool :=
  forallb (fun d => negb (n mod d =? 0)%nat) (seq 2 (n - 2)).

Definition primes : list N :=
  map N.of_nat (firstn 64 (filter is_prime (seq 2 310))).

(** The largest r below 2^36 with r^k <= n, one bit at a time. *)
Definition root (k n : N) : N :=
  fold_left (fun r b => let r' := N.lor r (N.shiftl 1 b) in
                        if r' ^ k <=? n then r' else r)
            (rev (map N.of_nat (seq 0 36))) 0.

Definition fraction_of_root (k p : N) : N := word (root k (N.shiftl p (32 * k))).

Definition K : list N := Eval vm_compute in map (fraction_of_root 3) primes.

Definition H0 : list N := Eval vm_compute in map (fraction_of_root 2) (firstn 8 primes).

(** The eight bytes of a 64-bit number and the four of a word, big end
    first. *)
Definition be64 (n : N) : bytes :=
  map (fun i => uint8 (N.shiftr n (8 * i))) [7; 6; 5; 4; 3; 2; 1; 0].

Definition be32 (x : N) : bytes :=
  map (fun i => uint8 (N.shiftr x (8 * i))) [3; 2; 1; 0].

(** The message, the byte 0x80, zero bytes up to 56 modulo 64, and the
    length in bits. *)
Definition pad (message : bytes) : bytes :=
  let n := List.length message in
  (message ++ x80 :: repeat x00 ((119 - n mod 64) mod 64)
   ++ be64 (8 * N.of_nat n))%list.

Fixpoint words (l : bytes) : list N :=
  match l with
  | a :: b :: c :: d :: rest =>
      (N.shiftl (Byte.to_N a) 24 + N.shiftl (Byte.to_N b) 16
       + N.shiftl (Byte.to_N c) 8 + Byte.to_N d) :: words rest
  | _ => []
  end.

(** The message schedule, latest word first: [w] holds W(t-1) ... W(0). *)
Definition next_word (w : list N) : N :=
  add (add (sigma1 (nth 1 w 0)) (nth 6 w 0)) (add (sigma0 (nth 14 w 0)) (nth 15 w 0)).

Fixpoint extend (n : nat) (w : list N) : list N :=
  match n with
  | O => w
  | S n' => extend n' (next_word w :: w)
  end.

Definition schedule (block : list N) : list N := rev (extend 48 (rev block)).

(** One round on the working variables a ... h. *)
Definition round (v : list N) (kw : N * N) : list N :=
  match v with
  | [a; b; c; d; e; f; g; h] =>
      let t1 := add (add (add h (Sigma1 e)) (add (Ch e f g) (fst kw))) (snd kw) in
      let t2 := add (Sigma0 a) (Maj a b c) in
      [add t1 t2; a; b; c; add d t1; e; f; g]
  | _ => v
  end.

Definition compress (state block : list N) : list N :=
  map (fun p => add (fst p) (snd p))
      (combine state (fold_left round (combine K (schedule block)) state)).

Fixpoint blocks (n : nat) (l : list N) : list (list N) :=
  match n with
  | O => []
  | S n' =>
      match l with
      | [] => []
      | _ => firstn 16 l :: blocks n' (skipn 16 l)
      end
  end.

Definition hash (message : bytes) : bytes :=
  let w := words (pad message) in
  flat_map be32 (fold_left compress (blocks (List.length w) w) H0).

End SHA256.

Module HMAC.

Definition block_size : nat := 64.

(** The key as HMAC uses it: a key longer than a block is replaced by its
    hash, and the key is filled up with zero bytes to a block. *)
Definition block_key (key : bytes) : bytes :=
  let k := if (block_size <? List.length key)%nat then SHA256.hash key else key in
  (k ++ repeat x00 (block_size - List.length k))%list.

Definition xor_with (c : N) (l : bytes) : bytes :=
  map (fun b => uint8 (N.lxor (Byte.to_N b) c)) l.

Definition of_block_key (k0 message : bytes) : bytes :=
  SHA256.hash (xor_with 0x5c k0 ++ SHA256.hash (xor_with 0x36 k0 ++ message))%list.

Definition hmac (key : bytes) : bytes -> bytes := of_block_key (block_key key).

End HMAC.

Module Pbkdf2.

Definition xor_bytes (a b : bytes) : bytes :=
  map (fun p => uint8 (N.lxor (Byte.to_N (fst p)) (Byte.to_N (snd p)))) (combine a b).

(** The block T_i = U_1 xor ... xor U_c of RFC 8018, for the
    pseudorandom function [prf] keyed with the password. *)
Definition F (prf : bytes -> bytes) (salt : bytes) (c : N) (i : N) : bytes :=
  let u1 := prf (salt ++ SHA256.be32 i)%list in
  snd (N.iter (c - 1)
              (fun ut => let u := prf (fst ut) in (u, xor_bytes (snd ut) u))
              (u1, u1)).

Definition derive (prf : bytes -> bytes) (salt : bytes) (c : N) (dkLen : nat) : bytes :=
  firstn dkLen
    (flat_map (fun i => F prf salt c (N.of_nat i)) (seq 1 ((dkLen + 31) / 32))).

(** [keyLength] is in bits. *)
Definition hmac_sha256 (password salt : bytes) (iterations keyLength : N) : bytes :=
  derive (HMAC.hmac password) salt iterations (N.to_nat (keyLength / 8)).

End Pbkdf2.

(** ** The executable host with the browser's key derivation

    The host above with PBKDF2-HMAC-SHA-256 and SHA-256 in place of the
    stand-ins.  The bytes of a string are its code units, which is UTF-8
    for the strings made of code units below 128. *)
Module KdfHost.

Definition host : Host := {|
  JSON_stringify := SimpleHost.stringify;
  JSON_parse := SimpleHost.parse;
  Number_toString := fun q => string_of_list_ascii (SimpleHost.enc_num q);
  TextEncoder_encode := list_byte_of_string;
  TextDecoder_decode := string_of_list_byte;
  PBKDF2 := fun _ iterations password salt keyLength =>
              Pbkdf2.hmac_sha256 password salt iterations keyLength;
  AES_GCM_encrypt := SimpleHost.encrypt;
  AES_GCM_decrypt := SimpleHost.decrypt;
  SHA_256 := SHA256.hash
|}.

(** A password longer than one block of SHA-256, and the text of its
    hash. *)
Definition long_password : string :=
  "HerasCycle journal passphrase, longer than one SHA-256 block: # aaaaaajlbffoa".

Definition hashed_password : string :=
  string_of_list_byte (SHA256.hash (list_byte_of_string long_password)).

(** A password, and the same followed by the character U+0000. *)
Definition short_password : string := "sesame123".

Definition padded_password : string := "sesame123" ++ String Ascii.zero "".

(** Every code unit is below 128. *)
Definition ascii_only (s : string) : bool :=
  forallb (fun c => (N_of_ascii c <? 128)%N) (list_ascii_of_string s).

End KdfHost.

(** ** Reading a journal state back

    [HeraVault.unlock] hands the page whatever JSON.parse built, typed as
    [AppState].  The functions below give the typed value whose object tree
    a JSON value is, when there is one. *)
Module Reading.
Import Types.

Fixpoint choose {A} (table : list (string * A)) (s : string) : option A :=
  match table with
  | [] => None
  | (k, a) :: rest => if String.eqb s k then Some a else choose rest s
  end.

Definition enum_ofJSON {A} (table : list (string * A)) (v : json) : option A :=
  match v with
  | JStr s => choose table s
  | _ => None
  end.

Definition Theme_ofJSON : json -> option Theme :=
  enum_ofJSON [("blush", blush); ("serenity", serenity); ("nature", nature)].

Definition Unit_ofJSON : json -> option Unit := enum_ofJSON [("C", C); ("F", F)].

Definition Language_ofJSON : json -> option Language :=
  enum_ofJSON [("en", en); ("es", es); ("fr", fr)].

Definition FlowIntensity_ofJSON : json -> option FlowIntensity :=
  enum_ofJSON [("none", flow_none); ("spotting", flow_spotting); ("light", flow_light);
               ("medium", flow_medium); ("heavy", flow_heavy)].

Definition MucusType_ofJSON : json -> option MucusType :=
  enum_ofJSON [("none", mucus_none); ("dry", mucus_dry); ("sticky", mucus_sticky);
               ("creamy", mucus_creamy); ("eggwhite", mucus_eggwhite);
               ("watery", mucus_watery)].

Definition CervixPosition_ofJSON : json -> option CervixPosition :=
  enum_ofJSON [("low_hard", low_hard); ("med_firm", med_firm); ("high_soft", high_soft)].

Definition LHResult_ofJSON : json -> option LHResult :=
  enum_ofJSON [("negative", negative); ("faint", faint); ("equal", equal);
               ("peak", peak)].

Definition string_ofJSON (v : json) : option string :=
  match v with JStr s => Some s | _ => None end.

Definition number_ofJSON (v : json) : option number :=
  match v with JNum n => Some n | _ => None end.

Definition boolean_ofJSON (v : json) : option bool :=
  match v with JBool b => Some b | _ => None end.

(** [number | null] *)
Definition nullable_number_ofJSON (v : json) : option (option number) :=
  match v with
  | JNum n => Some (Some n)
  | JNull => Some None
  | _ => None
  end.

(** The values of an object that has exactly the properties [keys], in
    this order. *)
Fixpoint values_of (keys : list string) (fields : list (string * json))
    : option (list json) :=
  match keys, fields with
  | [], [] => Some []
  | k :: keys', (k', v) :: fields' =>
      if String.eqb k k' then
        match values_of keys' fields' with
        | Some vs => Some (v :: vs)
        | None => None
        end
      else None
  | _, _ => None
  end.

Definition object_ofJSON (keys : list string) (v : json) : option (list json) :=
  match v with
  | JObj fields => values_of keys fields
  | _ => None
  end.

Definition CycleDay_ofJSON (v : json) : option CycleDay :=
  match object_ofJSON ["date"; "temperature"; "mucus"; "flow"; "cervix"; "lhTest";
                       "stressLevel"; "notes"] v with
  | Some [d; t; m; f; c; l; s; n] =>
      match string_ofJSON d, nullable_number_ofJSON t, MucusType_ofJSON m,
            FlowIntensity_ofJSON f, CervixPosition_ofJSON c, LHResult_ofJSON l,
            number_ofJSON s, string_ofJSON n with
      | Some d, Some t, Some m, Some f, Some c, Some l, Some s, Some n =>
          Some (mkCycleDay d t m f c l s n)
      | _, _, _, _, _, _, _, _ => None
      end
  | _ => None
  end.

Definition UserProfile_ofJSON (v : json) : option UserProfile :=
  match object_ofJSON ["name"; "theme"; "unit"; "lang"] v with
  | Some [n; t; u; l] =>
      match string_ofJSON n, Theme_ofJSON t, Unit_ofJSON u, Language_ofJSON l with
      | Some n, Some t, Some u, Some l => Some (mkUserProfile n t u l)
      | _, _, _, _ => None
      end
  | _ => None
  end.

Fixpoint all_of {A} (read : json -> option A) (items : list json) : option (list A) :=
  match items with
  | [] => Some []
  | v :: rest =>
      match read v, all_of read rest with
      | Some a, Some l => Some (a :: l)
      | _, _ => None
      end
  end.

Definition array_ofJSON {A} (read : json -> option A) (v : json) : option (list A) :=
  match v with
  | JArr items => all_of read items
  | _ => None
  end.

Definition AppState_ofJSON (v : json) : option AppState :=
  match object_ofJSON ["profile"; "cycleData"; "lastSynced"; "unsavedChanges"] v with
  | Some [p; c; l; u] =>
      match UserProfile_ofJSON p, array_ofJSON CycleDay_ofJSON c,
            number_ofJSON l, boolean_ofJSON u with
      | Some p, Some c, Some l, Some u => Some (mkAppState p c l u)
      | _, _, _, _ => None
      end
  | _ => None
  end.

End Reading.

(** [if (data)]: null, false, 0 and the empty string are falsy. *)
Definition truthy (v : json) : bool :=
  match v with
  | JNull => false
  | JBool b => b
  | JNum n => negb (QArith_base.Qnum n =? 0)%Z
  | JStr s => negb (String.eqb s "")
  | JArr _ | JObj _ => true
  end.

(** ** src/app/layout.tsx: the page

    The handlers of [HeraCycleApp] that use the vault and the reducer.  A
    session holds the hooks they read and write ([activeTab] and
    [dismissedStress], which they do not touch, are left out); a handler
    runs from a session and a world to an outcome, the session and the
    world it leaves.  Each handler is taken to run to its end before the
    next event is handled.

    The reducer state is typed [AppState], and every action but one is
    built by the page from typed values.  The exception is LOAD_STATE in
    [handleUnlock], whose payload is whatever the vault decrypted and
    parsed: [handleUnlock] therefore ends in a session whose reducer state
    is a [ReducerState], an [AppState] or any other value. *)
Module Layout.

Inductive Status : Type := loading | auth | app.
Inductive SaveState : Type := idle | saving | saved.

Record SessionOf (S : Type) : Type := mkSession {
  state : S;                         (* useReducer(appReducer, DEFAULT_STATE) *)
  status : Status;
  password : string;
  selectedDate : string;
  saveState : SaveState;
  activePassword : option string;    (* the ref: string | null *)
  alerts : list string;              (* what alert() has shown, latest first *)
  timers : list (N * SaveState)      (* setTimeout(() => setSaveState(s), ms) *)
}.

Arguments mkSession {S} _ _ _ _ _ _ _ _.
Arguments state {S} _.
Arguments status {S} _.
Arguments password {S} _.
Arguments selectedDate {S} _.
Arguments saveState {S} _.
Arguments activePassword {S} _.
Arguments alerts {S} _.
Arguments timers {S} _.

(** The session while the reducer state is an [AppState]. *)
Definition Session : Type := SessionOf Types.AppState.

(** What the reducer can hold after LOAD_STATE: the object tree of an
    [AppState], or a value that is the tree of none. *)
Inductive ReducerState : Type :=
| typed (s : Types.AppState)
| untyped (v : json).

(** The hooks of [page] around another reducer state. *)
Definition holding {S T} (s : T) (page : SessionOf S) : SessionOf T :=
  mkSession s (status page) (password page) (selectedDate page) (saveState page)
            (activePassword page) (alerts page) (timers page).

Definition well_typed (page : Session) : SessionOf ReducerState :=
  holding (typed (state page)) page.

(** The hooks as [HeraCycleApp] initialises them; [today] is what
    getLocalISODate() gives. *)
Definition initial (loaded_at : number) (today : string) : Session :=
  mkSession (Store.DEFAULT_STATE loaded_at) loading "" today idle None [] [].

Definition set_state (s : Types.AppState) (page : Session) : Session :=
  mkSession s (status page) (password page) (selectedDate page) (saveState page)
            (activePassword page) (alerts page) (timers page).

Definition setStatus (s : Status) (page : Session) : Session :=
  mkSession (state page) s (password page) (selectedDate page) (saveState page)
            (activePassword page) (alerts page) (timers page).

Definition setPassword (s : string) (page : Session) : Session :=
  mkSession (state page) (status page) s (selectedDate page) (saveState page)
            (activePassword page) (alerts page) (timers page).

Definition setSaveState (s : SaveState) (page : Session) : Session :=
  mkSession (state page) (status page) (password page) (selectedDate page) s
            (activePassword page) (alerts page) (timers page).

Definition set_activePassword (p : option string) (page : Session) : Session :=
  mkSession (state page) (status page) (password page) (selectedDate page)
            (saveState page) p (alerts page) (timers page).

Definition alert (text : string) (page : Session) : Session :=
  mkSession (state page) (status page) (password page) (selectedDate page)
            (saveState page) (activePassword page) (text :: alerts page) (timers page).

Definition setTimeout (then_ : SaveState) (ms : N) (page : Session) : Session :=
  mkSession (state page) (status page) (password page) (selectedDate page)
            (saveState page) (activePassword page) (alerts page)
            ((ms, then_) :: timers page).

(** [dispatch(action)]; [date_now] is the clock when the reducer runs. *)
Definition dispatch (loaded_at date_now : number) (action : Store.Action)
    (page : Session) : Session :=
  set_state (Store.appReducer loaded_at date_now (state page) action) page.

(** [Partial<CycleDay>] *)
Record PartialCycleDay : Type := mkPartialCycleDay {
  date : option string;
  temperature : option (option number);
  mucus : option Types.MucusType;
  flow : option Types.FlowIntensity;
  cervix : option Types.CervixPosition;
  lhTest : option Types.LHResult;
  stressLevel : option number;
  notes : option string
}.

(** [{ ...current, ...update }] *)
Definition spread_day (current : Types.CycleDay) (update : PartialCycleDay)
    : Types.CycleDay :=
  Types.mkCycleDay (Store.or_else (date update) (Types.date current))
                   (Store.or_else (temperature update) (Types.temperature current))
                   (Store.or_else (mucus update) (Types.mucus current))
                   (Store.or_else (flow update) (Types.flow current))
                   (Store.or_else (cervix update) (Types.cervix current))
                   (Store.or_else (lhTest update) (Types.lhTest current))
                   (Store.or_else (stressLevel update) (Types.stressLevel current))
                   (Store.or_else (notes update) (Types.notes current)).

(** [array.find(d => d.date === date)] *)
Definition find_day (date : string) (days : list Types.CycleDay)
    : option Types.CycleDay :=
  find (fun d => String.eqb (Types.date d) date) days.

(** The entry [updateDay] starts from when the selected date has none. *)
Definition unlogged (selectedDate : string) : Types.CycleDay :=
  Types.mkCycleDay selectedDate (Some (QArith_base.Qmake 73 2)) Types.mucus_none
                   Types.flow_none Types.low_hard Types.negative
                   (QArith_base.Qmake 1 1) "".

Definition updateDay (loaded_at date_now : number) (update : PartialCycleDay)
    (page : Session) : Session :=
  let current :=
    Store.or_else (find_day (selectedDate page) (Types.cycleData (state page)))
                  (unlogged (selectedDate page)) in
  dispatch loaded_at date_now (Store.UPDATE_CYCLE_DAY (spread_day current update)) page.

(** What a handler leaves: how it ended, the session and the world. *)
Definition Run : Type := Outcome unit * Session * World.

(** The own enumerable properties that [{ ...payload }] copies: those of
    an object in their order, the elements of an array and the characters
    of a string under their indices, none for a number or a boolean. *)
Definition index_key (i : nat) : string :=
  DecimalString.NilZero.string_of_uint (Nat.to_uint i).

Definition indexed (items : list json) : list (string * json) :=
  combine (map index_key (seq 0 (List.length items))) items.

Definition own_properties (payload : json) : list (string * json) :=
  match payload with
  | JObj fields => fields
  | JArr items => indexed items
  | JStr s => indexed (map (fun c => JStr (String c "")) (list_ascii_of_string s))
  | JNull | JBool _ | JNum _ => []
  end.

(** [appReducer], case LOAD_STATE, on the value it is given:
    [{ ...action.payload, unsavedChanges: false }]. *)
Definition LOAD_STATE_value (payload : json) : json :=
  JObj (set_assoc "unsavedChanges" (JBool false) (own_properties payload)).

Definition viewed (v : json) : ReducerState :=
  match Reading.AppState_ofJSON v with
  | Some s => typed s
  | None => untyped v
  end.

Section WithHost.
Context `{Host}.

(** [handleUnlock] *)
Definition handleUnlock (loaded_at : number) (page : Session) (w : World)
    : Outcome unit * SessionOf ReducerState * World :=
  let caught (w' : World) :=
    (Ok tt, well_typed (alert "Sanctuary Locked: Incorrect Key" page), w') in
  let opened (s : ReducerState) (w' : World) :=
    (Ok tt,
     holding s (setStatus app (set_activePassword (Some (password page)) page)),
     w') in
  match localStorage_getItem "HERA_VAULT_CORE" w with
  | (Throw _, w1) => caught w1
  | (Ok stored, w1) =>
      if falsy_item stored then
        match HeraVault.lock (Store.DEFAULT_STATE loaded_at) (password page) w1 with
        | (Throw _, w2) => caught w2
        | (Ok _, w2) =>
            opened (typed (Store.appReducer loaded_at (now w2) (state page)
                             (Store.LOAD_STATE (Store.DEFAULT_STATE loaded_at)))) w2
        end
      else
        match HeraVault.unlock (password page) w1 with
        | (Throw _, w2) => caught w2
        | (Ok None, w2) => opened (typed (state page)) w2
        | (Ok (Some data), w2) =>
            if truthy data then opened (viewed (LOAD_STATE_value data)) w2
            else opened (typed (state page)) w2
        end
  end.

(** [!activePassword.current] *)
Definition no_password (p : option string) : bool :=
  match p with
  | None => true
  | Some s => falsy s
  end.

(** [handleSave]; it has no try, so an exception of [lock] leaves the
    save state at 'saving'. *)
Definition handleSave (loaded_at : number) (page : Session) (w : World) : Run :=
  if no_password (activePassword page) then (Ok tt, page, w)
  else
    let page1 := setSaveState saving page in
    match HeraVault.lock (state page)
                         (match activePassword page with Some s => s | None => "" end)
                         w with
    | (Throw e, w1) => (Throw e, page1, w1)
    | (Ok _, w1) =>
        let page2 := dispatch loaded_at (now w1) Store.MARK_SAVED page1 in
        let page3 := setSaveState saved page2 in
        (Ok tt, setTimeout idle 2000 page3, w1)
    end.

End WithHost.

(** A run of the reducer: each action with the clock when it is reduced. *)
Definition dispatch_all (loaded_at : number) (actions : list (number * Store.Action))
    (page : Session) : Session :=
  fold_left (fun p a => dispatch loaded_at (fst a) (snd a) p) actions page.

End Layout.

(** ** Definitions used to state the properties of the page and of what
    the vault classes throw *)

(** The session after [handleUnlock] has loaded [payload]. *)
Definition entered (payload : Types.AppState) (page : Layout.Session) : Layout.Session :=
  Layout.setStatus Layout.app
    (Layout.set_activePassword (Some (Layout.password page))
       (Layout.set_state
          (Types.mkAppState (Types.profile payload) (Types.cycleData payload)
                            (Types.lastSynced payload) false) page)).

(** A run of the reducer: each action with the clock when it is reduced. *)
Definition reduce_all (loaded_at : number) (state : Types.AppState)
    (actions : list (number * Store.Action)) : Types.AppState :=
  fold_left (fun s a => Store.appReducer loaded_at (fst a) s (snd a)) actions state.

(** Every date is logged at most once. *)
Definition dates_unique (state : Types.AppState) : Prop :=
  NoDup (map Types.date (Types.cycleData state)).

(** The list [UPDATE_CYCLE_DAY] leaves, by recursion on the list. *)
Fixpoint upserted (days : list Types.CycleDay) (payload : Types.CycleDay)
    : list Types.CycleDay :=
  match days with
  | [] => [payload]
  | d :: rest =>
      if String.eqb (Types.date d) (Types.date payload) then payload :: rest
      else d :: upserted rest payload
  end.

(** Two computations that do the same wherever there is a window, and
    leave the window there. *)
Definition same_in_browser {A} (m1 m2 : M A) : Prop :=
  forall w, has_window w = true ->
            m1 w = m2 w /\ has_window (world_after m2 w) = true.

(** The world with another store in place of localStorage. *)
Definition with_storage (store : string -> option string) (w : World) : World :=
  mkWorld store (entropy w) (drawn w) (now w) (has_window w) (subtle_log w).

(** A computation that neither reads nor writes localStorage: over any
    other store it ends the same way, changes the rest of the world the
    same way, and leaves that store as it is. *)
Definition ignores_storage {A} (m : M A) : Prop :=
  forall w store,
    m (with_storage store w) = (result m w, with_storage store (world_after m w)).

(** A computation that throws nothing but what [allowed] admits. *)
Definition throws_only {A} (allowed : Exn -> Prop) (m : M A) : Prop :=
  forall w e, result m w = Throw e -> allowed e.

(** A call of [crypto.subtle.decrypt]. *)
Definition is_decrypt (c : SubtleCall) : bool :=
  match c with
  | call_decrypt _ _ _ => true
  | _ => false
  end.

(** How often [crypto.subtle.decrypt] has been called. *)
Definition decrypts (w : World) : nat :=
  List.length (filter is_decrypt (subtle_log w)).

(** A computation that does not call [crypto.subtle.decrypt]. *)
Definition no_decrypt {A} (m : M A) : Prop :=
  forall w, decrypts (world_after m w) = decrypts w.

(** A computation that has not called [crypto.subtle.decrypt] when it
    throws [e]. *)
Definition no_decrypt_before {A} (e : Exn) (m : M A) : Prop :=
  forall w, result m w = Throw e -> decrypts (world_after m w) = decrypts w.

(** ** Sessions to run the page on *)
Module Visit.

(** The page after mount, on 2024-01-05, with [typed] in the password
    field. *)
Definition page0 (typed : string) : Layout.Session :=
  Layout.setPassword typed
    (Layout.setStatus Layout.auth
       (Layout.initial (QArith_base.Qmake 0 1) "2024-01-05")).

(** The page in the app under "sesame123", holding one logged day that
    is not saved yet. *)
Definition page1 : Layout.Session :=
  Layout.set_state SimpleHost.state1 (entered SimpleHost.state0 (page0 "sesame123")).

(** An update that sets the mucus and nothing else. *)
Definition mucus_only : Layout.PartialCycleDay :=
  Layout.mkPartialCycleDay None None (Some Types.mucus_creamy) None None None None None.

(** A world whose slot holds an artifact that seals, under "sesame123",
    the JSON text of a value that is no journal state. *)
Definition foreign_value : json := JArr [JBool true].

Definition foreign_world : World :=
  let salt := fresh_salt SimpleHost.world0 in
  let iv := fresh_iv SimpleHost.world0 in
  let ciphertext :=
    SimpleHost.encrypt (@derived_key SimpleHost.host "sesame123" salt) iv
      (list_byte_of_string (SimpleHost.stringify foreign_value)) in
  with_storage
    (fun _ => Some (SimpleHost.stringify
                      (HeraVault.vaultArtifact salt iv ciphertext
                                               (QArith_base.Qmake 0 1))))
    SimpleHost.world0.

(** The world of a server render: no window. *)
Definition server0 : World :=
  mkWorld (fun _ => None) (fun i => uint8 (N.of_nat i)) 0
          (QArith_base.Qmake 1000 1) false [].

End Visit.

(** * Properties *)

(** ** The model on small inputs *)

Example btoa_hello : Base64.btoa "hello" = "aGVsbG8=".
Proof. reflexivity. Qed.

Example atob_hello : Base64.atob "aGVs bG8=" = Some "hello".
Proof. reflexivity. Qed.

Example atob_undefined : Base64.atob "undefined" = None.
Proof. reflexivity. Qed.

Example atob_true : Base64.atob "true" <> None.
Proof. discriminate. Qed.

Example bufferToBase64_three : bufferToBase64 [x00; xff; x10] = "AP8Q".
Proof. reflexivity. Qed.

Example base64ToBuffer_three : base64ToBuffer "AP8Q" = Ok [x00; xff; x10].
Proof. reflexivity. Qed.

Example trim_spaces : trim "  pw " = "pw" /\ trim "   " = "".
Proof. split; reflexivity. Qed.

Example blank_passwords :
  blank "" = true /\ blank " " = true /\ blank "sesame123" = false.
Proof. repeat split. Qed.

Example findIndex_second :
  Store.findIndex (fun n => Nat.eqb n 7) [3; 7; 7]%nat = 1%Z
  /\ Store.findIndex (fun n => Nat.eqb n 9) [3; 7; 7]%nat = (-1)%Z.
Proof. split; reflexivity. Qed.

Example reducer_logs_a_day :
  Types.cycleData SimpleHost.state1 = [SimpleHost.day1]
  /\ Types.unsavedChanges SimpleHost.state1 = true.
Proof. split; reflexivity. Qed.

Example reducer_logs_it_again :
  Types.cycleData
    (Store.appReducer (QArith_base.Qmake 0 1) (QArith_base.Qmake 0 1) SimpleHost.state1
       (Store.UPDATE_CYCLE_DAY SimpleHost.day1_again))
  = [SimpleHost.day1_again].
Proof. reflexivity. Qed.

(** ** atob undoes btoa *)

(* [lia] with division and remainder by constants *)
Ltac Zify.zify_post_hook ::= Z.to_euclidean_division_equations.

Module Base64Facts.
Import Base64.

(** Induction on a list three elements at a time. *)
Lemma list_ind3 {A} (P : list A -> Prop) :
  P [] -> (forall a, P [a]) -> (forall a b, P [a; b]) ->
  (forall a b c l, P l -> P (a :: b :: c :: l)) ->
  forall l, P l.
Proof.
  intros H0 H1 H2 H3 l.
  assert (G : P l /\ (forall a, P (a :: l)) /\ (forall a b, P (a :: b :: l))).
  { induction l as [|x l [IH0 [IH1 IH2]]].
    - auto.
    - repeat split; auto. }
  apply G.
Qed.

Lemma below64_all (p : N -> bool) :
  forallb p below64 = true -> forall v, (v < 64)%N -> p v = true.
Proof.
  intros Hall v Hv.
  rewrite forallb_forall in Hall. apply Hall.
  unfold below64. apply in_map_iff. exists (N.to_nat v). split.
  - apply N2Nat.id.
  - apply in_seq. lia.
Qed.

Lemma value_digit v : (v < 64)%N -> value (digit v) = Some v.
Proof.
  intro Hv.
  pose proof (below64_all
    (fun v => match value (digit v) with Some u => N.eqb u v | None => false end)
    eq_refl v Hv) as E.
  cbv beta in E. destruct (value (digit v)) as [u|]; [|discriminate].
  apply N.eqb_eq in E. now subst.
Qed.

Lemma digit_not_whitespace v : (v < 64)%N -> is_ascii_whitespace (digit v) = false.
Proof.
  intro Hv.
  pose proof (below64_all (fun v => negb (is_ascii_whitespace (digit v))) eq_refl v Hv) as E.
  now apply negb_true_iff in E.
Qed.

Lemma digit_not_pad v : (v < 64)%N -> Ascii.eqb (digit v) pad_char = false.
Proof.
  intro Hv.
  pose proof (below64_all (fun v => negb (Ascii.eqb (digit v) pad_char)) eq_refl v Hv) as E.
  now apply negb_true_iff in E.
Qed.

Lemma sextets_below l : all_below 256 l -> all_below 64 (sextets_of_bytes l).
Proof.
  unfold all_below. induction l using list_ind3; intro Hl; cbn [sextets_of_bytes].
  - constructor.
  - inversion_clear Hl. repeat constructor; lia.
  - inversion_clear Hl as [|? ? ? Hl']. inversion_clear Hl'. repeat constructor; lia.
  - inversion_clear Hl as [|? ? ? Hl1]. inversion_clear Hl1 as [|? ? ? Hl2].
    inversion_clear Hl2. repeat constructor; try lia. auto.
Qed.

Lemma codes_below (l : list ascii) : all_below 256 (map N_of_ascii l).
Proof.
  unfold all_below. apply Forall_forall. intros v Hv.
  apply in_map_iff in Hv. destruct Hv as [a [<- _]]. apply N_ascii_bounded.
Qed.

Lemma bytes_of_sextets_of_bytes l :
  all_below 256 l -> bytes_of_sextets (sextets_of_bytes l) = l.
Proof.
  unfold all_below. induction l using list_ind3; intro Hl;
    cbn [sextets_of_bytes bytes_of_sextets].
  - reflexivity.
  - inversion_clear Hl. f_equal. lia.
  - inversion_clear Hl as [|? ? ? Hl']. inversion_clear Hl'. repeat f_equal; lia.
  - inversion_clear Hl as [|? ? ? Hl1]. inversion_clear Hl1 as [|? ? ? Hl2].
    inversion_clear Hl2. rewrite IHl by assumption. repeat f_equal; lia.
Qed.

Lemma values_digits v : all_below 64 v -> values (map digit v) = Some v.
Proof.
  unfold all_below. induction 1 as [|x v Hx Hv IH]; cbn [map values].
  - reflexivity.
  - now rewrite value_digit, IH.
Qed.

Lemma mod3_step n : (S (S (S n)) mod 3 = n mod 3)%nat.
Proof. replace (S (S (S n))) with (n + 1 * 3)%nat by lia. apply Nat.Div0.mod_add. Qed.

Lemma padding_step n : padding (S (S (S n))) = padding n.
Proof. unfold padding. now rewrite mod3_step. Qed.

(** The length of the 6-bit values and of the padding, by the length of
    the input modulo three. *)
Lemma sextets_length l :
  (List.length (sextets_of_bytes l) + List.length (padding (List.length l))
   = 4 * ((List.length l + 2) / 3))%nat.
Proof.
  induction l using list_ind3; try reflexivity.
  cbn [sextets_of_bytes List.length]. rewrite padding_step.
  cbn [List.length] in IHl.
  replace (S (S (S (List.length l))) + 2)%nat with ((List.length l + 2) + 1 * 3)%nat by lia.
  rewrite Nat.div_add by lia. lia.
Qed.

Lemma sextets_length_mod4 l : (List.length (sextets_of_bytes l) mod 4 <> 1)%nat.
Proof.
  induction l using list_ind3; try (cbn; lia).
  cbn [sextets_of_bytes List.length].
  replace (S (S (S (S (List.length (sextets_of_bytes l))))))
    with (List.length (sextets_of_bytes l) + 1 * 4)%nat by lia.
  now rewrite Nat.Div0.mod_add.
Qed.

Lemma filter_all {A} (p : A -> bool) l : forallb p l = true -> filter p l = l.
Proof.
  induction l as [|x l IH]; cbn; [reflexivity|].
  intro E. apply andb_true_iff in E. destruct E as [-> E]. now rewrite IH.
Qed.

Lemma drop_last_pad_snoc l : drop_last_pad (l ++ [pad_char]) = l.
Proof.
  unfold drop_last_pad. rewrite rev_app_distr. cbn. apply rev_involutive.
Qed.

Lemma drop_last_pad_digits v : all_below 64 v -> drop_last_pad (map digit v) = map digit v.
Proof.
  intro Hv. unfold drop_last_pad.
  destruct (rev (map digit v)) as [|c r] eqn:E; [reflexivity|].
  assert (Hc : In c (map digit v)).
  { apply in_rev. rewrite E. now left. }
  apply in_map_iff in Hc. destruct Hc as [x [<- Hx]].
  rewrite digit_not_pad; [reflexivity|].
  unfold all_below in Hv. rewrite Forall_forall in Hv. auto.
Qed.

Lemma padding_cases n : padding n = [] \/ padding n = [pad_char] \/ padding n = [pad_char; pad_char].
Proof.
  unfold padding.
  assert (H : ((3 - n mod 3) mod 3 < 3)%nat) by (apply Nat.mod_upper_bound; lia).
  destruct ((3 - n mod 3) mod 3)%nat as [|[|[|k]]]; cbn; auto. lia.
Qed.

Lemma strip_padding_encode l :
  strip_padding (encode l) = map digit (sextets_of_bytes (map N_of_ascii l)).
Proof.
  unfold strip_padding, encode.
  pose proof (sextets_below _ (codes_below l)) as Hv.
  pose proof (sextets_length (map N_of_ascii l)) as Hlen.
  rewrite length_map in Hlen.
  set (v := sextets_of_bytes (map N_of_ascii l)) in *.
  assert (E : (List.length (map digit v ++ padding (List.length l)) mod 4 = 0)%nat).
  { rewrite length_app, length_map, Hlen, Nat.mul_comm. apply Nat.Div0.mod_mul. }
  rewrite E. cbn [Nat.eqb].
  destruct (padding_cases (List.length l)) as [-> | [-> | ->]].
  - rewrite app_nil_r. now rewrite !drop_last_pad_digits.
  - now rewrite drop_last_pad_snoc, drop_last_pad_digits.
  - change [pad_char; pad_char] with ([pad_char] ++ [pad_char])%list.
    rewrite app_assoc. now rewrite !drop_last_pad_snoc.
Qed.

Lemma encode_no_whitespace l :
  filter (fun c => negb (is_ascii_whitespace c)) (encode l) = encode l.
Proof.
  apply filter_all. unfold encode. rewrite forallb_app. apply andb_true_iff. split.
  - pose proof (sextets_below _ (codes_below l)) as Hv.
    apply forallb_forall. intros c Hc. apply in_map_iff in Hc.
    destruct Hc as [x [<- Hx]]. rewrite digit_not_whitespace; [reflexivity|].
    unfold all_below in Hv. rewrite Forall_forall in Hv. auto.
  - apply forallb_forall. intros c Hc. unfold padding in Hc.
    apply repeat_spec in Hc. now subst.
Qed.

Lemma decode_encode l : decode (encode l) = Some l.
Proof.
  unfold decode. rewrite encode_no_whitespace, strip_padding_encode.
  rewrite length_map.
  pose proof (sextets_length_mod4 (map N_of_ascii l)) as Hm.
  apply Nat.eqb_neq in Hm. rewrite Hm.
  rewrite values_digits by (apply sextets_below, codes_below).
  rewrite bytes_of_sextets_of_bytes by apply codes_below.
  rewrite map_map. f_equal.
  rewrite <- (map_id l) at 2. apply map_ext. apply ascii_N_embedding.
Qed.

Lemma atob_btoa binary : atob (btoa binary) = Some binary.
Proof.
  unfold atob, btoa. rewrite list_ascii_of_string_of_list_ascii, decode_encode.
  now rewrite string_of_list_ascii_of_string.
Qed.

End Base64Facts.

Local Open Scope vault_scope.

(** ** The buffer helpers *)

Lemma string_append_assoc (s1 s2 s3 : string) : (s1 ++ s2) ++ s3 = s1 ++ (s2 ++ s3).
Proof. induction s1 as [|c s1 IH]; cbn; [reflexivity | now rewrite IH]. Qed.

Lemma string_append_empty (s : string) : s ++ "" = s.
Proof. induction s as [|c s IH]; cbn; [reflexivity | now rewrite IH]. Qed.

(** The loop of [bufferToBase64] builds the string of the bytes. *)
Lemma binary_of_buffer (buffer : bytes) (init : string) :
  fold_left (fun binary b => binary ++ fromCharCode b) buffer init
  = init ++ string_of_list_ascii (map ascii_of_byte buffer).
Proof.
  revert init. induction buffer as [|b buffer IH]; intro init; cbn [fold_left map string_of_list_ascii].
  - now rewrite string_append_empty.
  - rewrite IH. unfold fromCharCode. now rewrite string_append_assoc.
Qed.

Lemma uint8_charCode (c : ascii) : uint8 (N_of_ascii c) = byte_of_ascii c.
Proof.
  unfold uint8. rewrite N.mod_small by apply N_ascii_bounded.
  now rewrite <- byte_of_ascii_via_N.
Qed.

(** The loop of [base64ToBuffer] reads the bytes of the string. *)
Lemma buffer_of_binary (s : string) :
  map (fun i => uint8 (charCodeAt s i)) (seq 0 (String.length s))
  = map byte_of_ascii (list_ascii_of_string s).
Proof.
  induction s as [|c s IH]; [reflexivity|].
  cbn [String.length seq map list_ascii_of_string]. f_equal.
  - unfold charCodeAt. cbn. apply uint8_charCode.
  - rewrite <- seq_shift, map_map. exact IH.
Qed.

Lemma base64ToBuffer_bufferToBase64_eq (b : bytes) : base64ToBuffer (bufferToBase64 b) = Ok b.
Proof.
  unfold base64ToBuffer, bufferToBase64.
  rewrite binary_of_buffer. cbn [append].
  rewrite Base64Facts.atob_btoa, buffer_of_binary.
  rewrite list_ascii_of_string_of_list_ascii, map_map.
  rewrite (map_ext _ (fun x => x)) by (intro x; apply byte_of_ascii_of_byte).
  now rewrite map_id.
Qed.

Lemma bufferToBase64_inj (a b : bytes) : bufferToBase64 a = bufferToBase64 b -> a = b.
Proof.
  intro E. apply (f_equal base64ToBuffer) in E.
  rewrite !base64ToBuffer_bufferToBase64_eq in E. now inversion E.
Qed.

Lemma string_eqb_bufferToBase64 (a b : bytes) :
  String.eqb (bufferToBase64 a) (bufferToBase64 b) = true <-> a = b.
Proof.
  rewrite String.eqb_eq. split; [apply bufferToBase64_inj | now intros ->].
Qed.

(** ** Running the vault *)

(* Unfolds the monad and the platform calls, so that a vault method
   applied to a world reduces as far as its inputs are known. *)
Ltac run_vault :=
  cbv [result world_after bind ret throw lift try_catch JSON_parse_
       subtle_importKey subtle_deriveKey subtle_exportKey subtle_digest
       subtle_encrypt subtle_decrypt record_call getRandomValues Date_now
       localStorage_getItem localStorage_setItem window_is_undefined
       base64ToBuffer_prop get_prop ToString_val ToString
       HeraVault.deriveKey HeraVault96.deriveKey HeraSecurity.deriveKey
       HeraVaultSSR.deriveKey];
  cbn [fst snd localStorage entropy drawn now has_window subtle_log].

(** *** What leaves localStorage alone *)

Create HintDb storage.

Lemma keeps_ret {A} (a : A) : keeps_storage (ret a).
Proof. intro w. reflexivity. Qed.

Lemma keeps_throw {A} (e : Exn) : keeps_storage (@throw A e).
Proof. intro w. reflexivity. Qed.

Lemma keeps_lift {A} (o : Outcome A) : keeps_storage (lift o).
Proof. intro w. reflexivity. Qed.

Lemma keeps_bind {A B} (m : M A) (k : A -> M B) :
  keeps_storage m -> (forall a, keeps_storage (k a)) -> keeps_storage (bind m k).
Proof.
  intros Hm Hk w. specialize (Hm w). unfold world_after, bind in *.
  destruct (m w) as [[a|e] w1]; cbn [snd] in *.
  - rewrite <- Hm. apply (Hk a w1).
  - exact Hm.
Qed.

Lemma keeps_try_catch {A} (m : M A) (h : Exn -> M A) :
  keeps_storage m -> (forall e, keeps_storage (h e)) -> keeps_storage (try_catch m h).
Proof.
  intros Hm Hh w. specialize (Hm w). unfold world_after, try_catch in *.
  destruct (m w) as [[a|e] w1]; cbn [snd] in *.
  - exact Hm.
  - rewrite <- Hm. apply (Hh e w1).
Qed.

Lemma keeps_if {A} (b : bool) (m1 m2 : M A) :
  keeps_storage m1 -> keeps_storage m2 -> keeps_storage (if b then m1 else m2).
Proof. now destruct b. Qed.

Lemma keeps_record_call c : keeps_storage (record_call c).
Proof. intro w. reflexivity. Qed.

Lemma keeps_getItem k : keeps_storage (localStorage_getItem k).
Proof. intro w. reflexivity. Qed.

Lemma keeps_window : keeps_storage window_is_undefined.
Proof. intro w. reflexivity. Qed.

Lemma keeps_JSON_parse `{Host} text : keeps_storage (JSON_parse_ text).
Proof. unfold JSON_parse_. destruct (JSON_parse text); intro w; reflexivity. Qed.

Lemma keeps_subtle_decrypt `{Host} iv key c : keeps_storage (subtle_decrypt iv key c).
Proof.
  unfold subtle_decrypt. apply keeps_bind; [apply keeps_record_call|].
  intros _. destruct (AES_GCM_decrypt key iv c); intro w; reflexivity.
Qed.

#[local] Hint Resolve keeps_ret keeps_throw keeps_lift keeps_record_call
  keeps_getItem keeps_window keeps_JSON_parse keeps_subtle_decrypt : storage.
#[local] Hint Extern 2 (keeps_storage (bind _ _)) =>
  apply keeps_bind; [|intro] : storage.
#[local] Hint Extern 2 (keeps_storage (try_catch _ _)) =>
  apply keeps_try_catch; [|intro] : storage.
#[local] Hint Extern 2 (keeps_storage (if _ then _ else _)) =>
  apply keeps_if : storage.

Lemma keeps_subtle_importKey `{Host} keyData : keeps_storage (subtle_importKey keyData).
Proof. intro w. reflexivity. Qed.

Lemma keeps_subtle_deriveKey `{Host} h n salt keyMaterial len :
  keeps_storage (subtle_deriveKey h n salt keyMaterial len).
Proof. intro w. reflexivity. Qed.

Lemma keeps_subtle_exportKey `{Host} key : keeps_storage (subtle_exportKey key).
Proof. intro w. reflexivity. Qed.

Lemma keeps_subtle_digest `{Host} data : keeps_storage (subtle_digest data).
Proof. intro w. reflexivity. Qed.

Lemma keeps_base64ToBuffer_prop `{Host} vault k :
  keeps_storage (base64ToBuffer_prop vault k).
Proof. unfold base64ToBuffer_prop. auto with storage. Qed.

#[local] Hint Resolve keeps_subtle_importKey keeps_subtle_deriveKey
  keeps_subtle_exportKey keeps_subtle_digest keeps_base64ToBuffer_prop : storage.

Section VaultFacts.
Context `{Host}.

(** *** HeraSecurity *)

Lemma HeraSecurity_lock_accepts data password w :
  blank password = false ->
  result (HeraSecurity.lock data password) w
  = Ok (JSON_stringify (HeraSecurity_artifact data password w)).
Proof.
  unfold blank. intro Hpw. unfold HeraSecurity.lock. rewrite Hpw. run_vault.
  reflexivity.
Qed.

Lemma HeraSecurity_unlock_fields vaultStr fields salt iv data password w :
  JSON_parse vaultStr = Some (JObj fields) ->
  assoc "salt" fields = Some (JStr (bufferToBase64 salt)) ->
  assoc "iv" fields = Some (JStr (bufferToBase64 iv)) ->
  assoc "data" fields = Some (JStr (bufferToBase64 data)) ->
  result (HeraSecurity.unlock vaultStr password) w
  = HeraSecurity_open salt iv data (assoc "authHash" fields) password.
Proof.
  intros Hp Hs Hi Hd. unfold HeraSecurity.unlock, JSON_parse_, HeraSecurity_open.
  rewrite Hp. run_vault. rewrite Hs, Hi, Hd. rewrite !base64ToBuffer_bufferToBase64_eq.
  run_vault. fold (derived_key password salt). fold (verifier password salt).
  destruct (strict_eq_string _ _); [|reflexivity]. cbn [negb].
  destruct (AES_GCM_decrypt _ _ _) as [plaintext|]; [|reflexivity].
  destruct (JSON_parse (TextDecoder_decode plaintext)); reflexivity.
Qed.

(** *** HeraVault of the v96 page *)

Lemma HeraVault96_lock_accepts data password w :
  falsy password = false ->
  result (HeraVault96.lock data password) w
  = Ok (JSON_stringify (HeraVault96_artifact data password w)).
Proof.
  intro Hpw. unfold HeraVault96.lock. rewrite Hpw. run_vault. reflexivity.
Qed.

Lemma HeraVault96_unlock_fields vaultStr fields salt iv data password w :
  JSON_parse vaultStr = Some (JObj fields) ->
  assoc "salt" fields = Some (JStr (bufferToBase64 salt)) ->
  assoc "iv" fields = Some (JStr (bufferToBase64 iv)) ->
  assoc "data" fields = Some (JStr (bufferToBase64 data)) ->
  result (HeraVault96.unlock vaultStr password) w
  = HeraVault96_open salt iv data (assoc "authHash" fields) password.
Proof.
  intros Hp Hs Hi Hd. unfold HeraVault96.unlock, JSON_parse_, HeraVault96_open.
  rewrite Hp. run_vault. rewrite Hs, Hi, Hd. rewrite !base64ToBuffer_bufferToBase64_eq.
  run_vault. fold (derived_key password salt). fold (verifier password salt).
  destruct (strict_eq_string _ _); [|reflexivity]. cbn [negb].
  destruct (AES_GCM_decrypt _ _ _) as [plaintext|]; [|reflexivity].
  destruct (JSON_parse (TextDecoder_decode plaintext)); reflexivity.
Qed.

(** *** HeraVault of src/lib *)

Lemma HeraVault_lock_runs data password w :
  HeraVault.lock data password w = (Ok tt, HeraVault_locked data password w).
Proof. unfold HeraVault.lock. run_vault. reflexivity. Qed.

Lemma HeraVault_unlock_fields stored fields salt iv data password w :
  localStorage w "HERA_VAULT_CORE" = Some stored ->
  stored <> "" ->
  JSON_parse stored = Some (JObj fields) ->
  assoc "salt" fields = Some (JStr (bufferToBase64 salt)) ->
  assoc "iv" fields = Some (JStr (bufferToBase64 iv)) ->
  assoc "data" fields = Some (JStr (bufferToBase64 data)) ->
  result (HeraVault.unlock password) w = HeraVault_open salt iv data password.
Proof.
  intros Hst Hne Hp Hs Hi Hd. unfold HeraVault.unlock, JSON_parse_, HeraVault_open.
  run_vault. rewrite Hst. cbn [falsy_item]. unfold falsy.
  apply String.eqb_neq in Hne. rewrite Hne. rewrite Hp. run_vault.
  rewrite Hs, Hi, Hd. rewrite !base64ToBuffer_bufferToBase64_eq.
  run_vault. fold (derived_key password salt).
  destruct (AES_GCM_decrypt _ _ _) as [plaintext|]; [|reflexivity].
  destruct (JSON_parse (TextDecoder_decode plaintext)); reflexivity.
Qed.

Lemma HeraVault_unlock_keeps_storage password :
  keeps_storage (HeraVault.unlock password).
Proof.
  unfold HeraVault.unlock, HeraVault.deriveKey. auto 20 with storage.
Qed.

End VaultFacts.

(** ** The executable host meets the assumptions *)
Module SimpleHostFacts.
Import SimpleHost.

Lemma dec_nat_enc n rest : dec_nat (enc_nat n ++ rest)%list = Some (n, rest).
Proof.
  unfold enc_nat. induction n as [|n IH]; cbn.
  - reflexivity.
  - cbn in IH. now rewrite IH.
Qed.

Lemma length_list_ascii_of_string s :
  List.length (list_ascii_of_string s) = String.length s.
Proof. induction s as [|c s IH]; cbn; [reflexivity | now rewrite IH]. Qed.

Lemma dec_str_enc s rest : dec_str (enc_str s ++ rest)%list = Some (s, rest).
Proof.
  unfold dec_str, enc_str. rewrite <- app_assoc, dec_nat_enc.
  rewrite <- length_list_ascii_of_string.
  set (l := list_ascii_of_string s).
  assert (Hle : (List.length l <=? List.length (l ++ rest)%list)%nat = true).
  { apply Nat.leb_le. rewrite length_app. lia. }
  rewrite Hle. rewrite firstn_app, skipn_app, firstn_all, skipn_all, Nat.sub_diag.
  cbn [firstn skipn app]. rewrite app_nil_r. subst l.
  now rewrite string_of_list_ascii_of_string.
Qed.

Lemma dec_num_enc q rest : dec_num (enc_num q ++ rest)%list = Some (q, rest).
Proof.
  unfold dec_num, enc_num. destruct q as [num den]. cbn [QArith_base.Qnum QArith_base.Qden].
  cbn [app]. rewrite <- app_assoc, dec_nat_enc, dec_nat_enc.
  rewrite Pos2Nat.id.
  destruct (Z.ltb_spec num 0); cbn [Ascii.eqb Bool.eqb]; rewrite Zabs2Nat.id_abs.
  - now replace (- Z.abs num)%Z with num by lia.
  - now replace (Z.abs num) with num by lia.
Qed.

Lemma length_in_concat {A B} (f : A -> list B) (x : A) (l : list A) :
  In x l -> (List.length (f x) <= List.length (List.concat (map f l)))%nat.
Proof.
  induction l as [|y l IH]; cbn; [tauto|]. rewrite length_app.
  intros [-> | Hin]; [lia | specialize (IH Hin); lia].
Qed.

Lemma dec_items_enc one items rest :
  Forall (fun v => forall rest, one (enc v ++ rest)%list = Some (v, rest)) items ->
  dec_items one (List.length items) (List.concat (map enc items) ++ rest)%list
  = Some (items, rest).
Proof.
  induction 1 as [|v items Hv _ IH]; cbn.
  - reflexivity.
  - now rewrite <- app_assoc, Hv, IH.
Qed.

Lemma dec_fields_enc one fields rest :
  Forall (fun kv => forall rest, one (enc (snd kv) ++ rest)%list = Some (snd kv, rest))
         fields ->
  dec_fields one (List.length fields) (List.concat (map enc_field fields) ++ rest)%list
  = Some (fields, rest).
Proof.
  induction 1 as [|[k v] fields Hv _ IH]; cbn.
  - reflexivity.
  - cbn in Hv. now rewrite <- !app_assoc, dec_str_enc, Hv, IH.
Qed.

Lemma enc_obj fields :
  enc (JObj fields)
  = ("o"%char :: enc_nat (List.length fields) ++ List.concat (map enc_field fields))%list.
Proof. reflexivity. Qed.

Lemma dec_enc v :
  forall fuel rest, (List.length (enc v) <= fuel)%nat ->
                    dec fuel (enc v ++ rest)%list = Some (v, rest).
Proof.
  induction v as [ |b|n|s|items IH|fields IH] using json_induction;
    intros fuel rest Hfuel; (destruct fuel as [|fuel]; [cbn in Hfuel; try destruct b; cbn in Hfuel; lia|]).
  - reflexivity.
  - destruct b; reflexivity.
  - cbn [enc]. rewrite <- app_comm_cons. cbn [dec Ascii.eqb Bool.eqb andb].
    now rewrite dec_num_enc.
  - cbn [enc]. rewrite <- app_comm_cons. cbn [dec Ascii.eqb Bool.eqb andb].
    now rewrite dec_str_enc.
  - cbn [enc] in *. rewrite <- app_comm_cons. cbn [dec Ascii.eqb Bool.eqb andb].
    rewrite <- app_assoc, dec_nat_enc.
    rewrite dec_items_enc; [reflexivity|].
    rewrite Forall_forall in IH |- *. intros x Hx rest'. apply IH; [assumption|].
    pose proof (length_in_concat enc x items Hx) as Hlen.
    cbn [List.length] in Hfuel. rewrite length_app in Hfuel. lia.
  - rewrite enc_obj in *. rewrite <- app_comm_cons.
    cbn [dec Ascii.eqb Bool.eqb andb].
    rewrite <- app_assoc, dec_nat_enc.
    rewrite dec_fields_enc; [reflexivity|].
    rewrite Forall_forall in IH |- *. intros [k x] Hx rest'. cbn [snd]. apply (IH (k, x) Hx).
    pose proof (length_in_concat enc_field (k, x) fields Hx) as Hlen.
    cbn [List.length] in Hfuel. rewrite length_app in Hfuel.
    cbn [enc_field] in Hlen. rewrite length_app in Hlen. cbn [snd]. lia.
Qed.

Lemma parse_stringify v : parse (stringify v) = Some v.
Proof.
  unfold parse, stringify. rewrite list_ascii_of_string_of_list_ascii.
  rewrite <- (app_nil_r (enc v)) at 2. rewrite dec_enc by lia. reflexivity.
Qed.

Lemma byte_eqb_refl (b : byte) : Byte.eqb b b = true.
Proof. now apply byte_dec_lb. Qed.

Lemma decrypt_encrypt key iv plaintext :
  decrypt key iv (encrypt key iv plaintext) = Some plaintext.
Proof.
  unfold decrypt, encrypt. rewrite rev_unit, rev_involutive.
  now rewrite byte_eqb_refl.
Qed.

Lemma stringify_nonempty v : stringify v <> "".
Proof. unfold stringify. destruct v as [ |[|]| | | | ]; discriminate. Qed.

#[export] Instance faithful : Faithful.
Proof.
  constructor.
  - exact parse_stringify.
  - exact stringify_nonempty.
  - exact string_of_list_byte_of_string.
  - exact decrypt_encrypt.
Qed.






End SimpleHostFacts.

(** ** The browser's key derivation *)
Module KdfFacts.

Example sha256_constants :
  (hd 0 SHA256.K, last SHA256.K 0, hd 0 SHA256.H0, last SHA256.H0 0)%N
  = (0x428a2f98, 0xc67178f2, 0x6a09e667, 0x5be0cd19)%N.
Proof. vm_compute. reflexivity. Qed.

Example sha256_abc :
  map Byte.to_N (firstn 4 (SHA256.hash (list_byte_of_string "abc")))
  = [0xba; 0x78; 0x16; 0xbf]%N.
Proof. vm_compute. reflexivity. Qed.

Example hmac_sha256_fox :
  map Byte.to_N
      (firstn 4 (HMAC.hmac (list_byte_of_string "key")
                   (list_byte_of_string "The quick brown fox jumps over the lazy dog")))
  = [0xf7; 0xbc; 0x83; 0xf4]%N.
Proof. vm_compute. reflexivity. Qed.

Example pbkdf2_two_iterations :
  map Byte.to_N
      (firstn 4 (Pbkdf2.hmac_sha256 (list_byte_of_string "password")
                   (list_byte_of_string "salt") 2 256))
  = [0xae; 0x4d; 0x0c; 0x95]%N.
Proof. vm_compute. reflexivity. Qed.

(** PBKDF2 sees the password only through the key block of HMAC. *)
Lemma same_block_key password1 password2 salt iterations keyLength :
  HMAC.block_key password1 = HMAC.block_key password2 ->
  Pbkdf2.hmac_sha256 password1 salt iterations keyLength
  = Pbkdf2.hmac_sha256 password2 salt iterations keyLength.
Proof. intro E. unfold Pbkdf2.hmac_sha256, HMAC.hmac. now rewrite E. Qed.

Lemma derived_key_same_block password1 password2 salt :
  HMAC.block_key (list_byte_of_string password1)
  = HMAC.block_key (list_byte_of_string password2) ->
  @derived_key KdfHost.host password1 salt = @derived_key KdfHost.host password2 salt.
Proof.
  intro E. unfold derived_key. cbv [PBKDF2 TextEncoder_encode KdfHost.host].
  now apply same_block_key.
Qed.

(** A key longer than a block is its hash to HMAC. *)
Lemma long_password_block :
  HMAC.block_key (list_byte_of_string KdfHost.hashed_password)
  = HMAC.block_key (list_byte_of_string KdfHost.long_password).
Proof. vm_compute. reflexivity. Qed.

(** Zero bytes at the end of a key are lost in the filling. *)
Lemma padded_password_block :
  HMAC.block_key (list_byte_of_string KdfHost.padded_password)
  = HMAC.block_key (list_byte_of_string KdfHost.short_password).
Proof. vm_compute. reflexivity. Qed.

Lemma faithful : @Faithful KdfHost.host.
Proof.
  constructor.
  - exact SimpleHostFacts.parse_stringify.
  - exact SimpleHostFacts.stringify_nonempty.
  - exact string_of_list_byte_of_string.
  - exact SimpleHostFacts.decrypt_encrypt.
Qed.

End KdfFacts.

(** ** Opening what was sealed *)
Section Sealed.
Context `{Faithful}.

Lemma strict_eq_string_same s : strict_eq_string s (Some (JStr s)) = true.
Proof. cbn. apply String.eqb_refl. Qed.

Lemma strict_eq_buffers a b :
  a <> b -> strict_eq_string (bufferToBase64 a) (Some (JStr (bufferToBase64 b))) = false.
Proof.
  intro Hab. cbn. apply String.eqb_neq. intro E. apply Hab.
  now apply bufferToBase64_inj.
Qed.

Lemma payload_roundtrip data :
  JSON_parse (TextDecoder_decode (encodedData data)) = Some (Types.AppState_toJSON data).
Proof. unfold encodedData. now rewrite decode_encode, JSON_parse_stringify. Qed.

Lemma HeraSecurity_open_sealed data password salt iv :
  HeraSecurity_open salt iv
    (AES_GCM_encrypt (derived_key password salt) iv (encodedData data))
    (Some (JStr (bufferToBase64 (verifier password salt)))) password
  = Ok (Types.AppState_toJSON data).
Proof.
  unfold HeraSecurity_open.
  now rewrite strict_eq_string_same, decrypt_encrypt, payload_roundtrip.
Qed.

Lemma HeraVault96_open_sealed data password salt iv :
  HeraVault96_open salt iv
    (AES_GCM_encrypt (derived_key password salt) iv (encodedData data))
    (Some (JStr (bufferToBase64 (verifier password salt)))) password
  = Ok (Types.AppState_toJSON data).
Proof.
  unfold HeraVault96_open.
  now rewrite strict_eq_string_same, decrypt_encrypt, payload_roundtrip.
Qed.

Lemma HeraVault_open_sealed data password salt iv :
  HeraVault_open salt iv
    (AES_GCM_encrypt (derived_key password salt) iv (encodedData data)) password
  = Ok (Some (Types.AppState_toJSON data)).
Proof.
  unfold HeraVault_open. now rewrite decrypt_encrypt, payload_roundtrip.
Qed.

(** [unlock] on the text of an artifact object whose salt, iv and data are
    encoded buffers. *)
Lemma HeraSecurity_unlock_object fields salt iv data password w :
  assoc "salt" fields = Some (JStr (bufferToBase64 salt)) ->
  assoc "iv" fields = Some (JStr (bufferToBase64 iv)) ->
  assoc "data" fields = Some (JStr (bufferToBase64 data)) ->
  result (HeraSecurity.unlock (JSON_stringify (JObj fields)) password) w
  = HeraSecurity_open salt iv data (assoc "authHash" fields) password.
Proof. apply HeraSecurity_unlock_fields, JSON_parse_stringify. Qed.

Lemma HeraVault96_unlock_object fields salt iv data password w :
  assoc "salt" fields = Some (JStr (bufferToBase64 salt)) ->
  assoc "iv" fields = Some (JStr (bufferToBase64 iv)) ->
  assoc "data" fields = Some (JStr (bufferToBase64 data)) ->
  result (HeraVault96.unlock (JSON_stringify (JObj fields)) password) w
  = HeraVault96_open salt iv data (assoc "authHash" fields) password.
Proof. apply HeraVault96_unlock_fields, JSON_parse_stringify. Qed.

Lemma HeraVault_unlock_object fields salt iv data password w :
  localStorage w "HERA_VAULT_CORE" = Some (JSON_stringify (JObj fields)) ->
  assoc "salt" fields = Some (JStr (bufferToBase64 salt)) ->
  assoc "iv" fields = Some (JStr (bufferToBase64 iv)) ->
  assoc "data" fields = Some (JStr (bufferToBase64 data)) ->
  result (HeraVault.unlock password) w = HeraVault_open salt iv data password.
Proof.
  intro Hst. apply (HeraVault_unlock_fields _ _ _ _ _ _ _ Hst).
  - apply JSON_stringify_nonempty.
  - apply JSON_parse_stringify.
Qed.

Lemma blank_not_falsy password : blank password = false -> falsy password = false.
Proof. unfold blank. intro E. now apply orb_false_iff in E. Qed.

Lemma HeraSecurity_opens_artifact data password w w' :
  result (HeraSecurity.unlock (JSON_stringify (HeraSecurity_artifact data password w))
                              password) w'
  = Ok (Types.AppState_toJSON data).
Proof.
  unfold HeraSecurity_artifact, HeraSecurity.vaultArtifact.
  erewrite HeraSecurity_unlock_object by reflexivity.
  apply HeraSecurity_open_sealed.
Qed.

Lemma HeraVault96_opens_artifact data password w w' :
  result (HeraVault96.unlock (JSON_stringify (HeraVault96_artifact data password w))
                             password) w'
  = Ok (Types.AppState_toJSON data).
Proof.
  unfold HeraVault96_artifact, HeraVault96.vaultArtifact.
  erewrite HeraVault96_unlock_object by reflexivity.
  apply HeraVault96_open_sealed.
Qed.

Lemma HeraVault_opens_artifact data password w w' :
  localStorage w' "HERA_VAULT_CORE"
  = Some (JSON_stringify (HeraVault_artifact data password w)) ->
  result (HeraVault.unlock password) w' = Ok (Some (Types.AppState_toJSON data)).
Proof.
  unfold HeraVault_artifact, HeraVault.vaultArtifact. intro Hst.
  erewrite HeraVault_unlock_object by (try exact Hst; reflexivity).
  apply HeraVault_open_sealed.
Qed.

Lemma HeraVault_locked_item data password w :
  localStorage (world_after (HeraVault.lock data password) w) "HERA_VAULT_CORE"
  = Some (JSON_stringify (HeraVault_artifact data password w)).
Proof. unfold world_after. now rewrite HeraVault_lock_runs. Qed.

End Sealed.


(** ** Input that is not an artifact *)
Section Malformed.
Context `{Host}.

Lemma base64ToBuffer_throws text e :
  base64ToBuffer text = Throw e -> e = InvalidCharacterError.
Proof.
  unfold base64ToBuffer. destruct (Base64.atob text); [discriminate|]. congruence.
Qed.

Lemma base64ToBuffer_undefined :
  base64ToBuffer (ToString_val None) = Throw InvalidCharacterError.
Proof. reflexivity. Qed.

Lemma get_prop_not_null vault k :
  vault <> JNull -> get_prop vault k = Ok (prop_of k vault).
Proof. destruct vault; intro Hv; try reflexivity. congruence. Qed.



End Malformed.

Ltac run_reads :=
  cbv [bind ret throw lift try_catch base64ToBuffer_prop localStorage_getItem];
  cbn [fst snd].

(** ** The reducer *)
Module StoreFacts.
Import Store.

Lemma findIndex_from_absent {A} (p : A -> bool) l i :
  (forall x, In x l -> p x = false) -> findIndex_from p l i = (-1)%Z.
Proof.
  revert i. induction l as [|x l IH]; intros i Hall; cbn.
  - reflexivity.
  - rewrite (Hall x) by now left. apply IH. intros y Hy. apply Hall. now right.
Qed.

(** When some element satisfies [p], the index found is that of the first
    one. *)
Lemma findIndex_from_present {A} (p : A -> bool) l i :
  (exists x, In x l /\ p x = true) ->
  exists pre x post,
    l = (pre ++ x :: post)%list /\ p x = true
    /\ (forall y, In y pre -> p y = false)
    /\ findIndex_from p l i = (i + Z.of_nat (List.length pre))%Z.
Proof.
  revert i. induction l as [|x l IH]; intros i [y [Hy Hpy]]; [destruct Hy|].
  cbn [findIndex_from]. destruct (p x) eqn:Hpx.
  - exists [], x, l. cbn. repeat split; [assumption | tauto | lia].
  - assert (Hl : exists z, In z l /\ p z = true).
    { destruct Hy as [-> | Hy]; [congruence | eauto]. }
    destruct (IH (i + 1)%Z Hl) as (pre & z & post & -> & Hpz & Hpre & Hidx).
    exists (x :: pre), z, post. cbn [List.length app]. repeat split; try assumption.
    + intros u [<- | Hu]; auto.
    + rewrite Hidx. lia.
Qed.

Lemma array_set_at {A} (pre : list A) x post v :
  array_set (pre ++ x :: post)%list (List.length pre) v = (pre ++ v :: post)%list.
Proof. induction pre as [|a pre IH]; cbn; [reflexivity | now rewrite IH]. Qed.

End StoreFacts.

(** ** Blank passwords *)

Lemma trimStart_chars_cases l :
  (trimStart_chars l = [] /\ forallb is_js_whitespace l = true)
  \/ (exists c r, trimStart_chars l = c :: r /\ is_js_whitespace c = false).
Proof.
  induction l as [|c l IH]; cbn.
  - now left.
  - destruct (is_js_whitespace c) eqn:Ec; cbn.
    + exact IH.
    + right. now exists c, l.
Qed.

Lemma trimStart_chars_keeps l c :
  In c l -> is_js_whitespace c = false -> trimStart_chars l <> [].
Proof.
  induction l as [|x l IH]; cbn; [tauto|].
  intros [-> | Hin] Hc.
  - now rewrite Hc.
  - destruct (is_js_whitespace x); [now apply IH | discriminate].
Qed.

(** [HeraSecurity.lock] refuses exactly the passwords made of white space
    only, the empty one included. *)
Lemma blank_spec password :
  blank password = true
  <-> forallb is_js_whitespace (list_ascii_of_string password) = true.
Proof.
  unfold blank, falsy, trim.
  destruct password as [|c s]; [cbn; tauto|].
  cbn [String.eqb orb].
  set (l := list_ascii_of_string (String c s)).
  destruct (trimStart_chars_cases l) as [[E Hall] | (x & r & E & Hx)]; rewrite E.
  - cbn. tauto.
  - split.
    + intro Hlen. exfalso.
      assert (Hne : trimStart_chars (rev (x :: r)) <> []).
      { apply (trimStart_chars_keeps _ x); [|assumption]. apply -> in_rev. now left. }
      destruct (trimStart_chars (rev (x :: r))) as [|y t] eqn:Et; [congruence|].
      cbn [rev] in Hlen. destruct (rev t) as [|z u]; cbn in Hlen; discriminate.
    + intro Hall. exfalso.
      assert (Hin : In x l).
      { clear -E. revert E. induction l as [|a l IH]; cbn; [discriminate|].
        destruct (is_js_whitespace a); [intro; right; auto|].
        intro E. inversion E. now left. }
      rewrite forallb_forall in Hall. rewrite (Hall x Hin) in Hx. discriminate.
Qed.

(** ** The object tree determines the state *)
Module TypesFacts.
Import Types.

Lemma Some_inj {A} (a b : A) : Some a = Some b -> a = b.
Proof. intro E. now inversion E. Qed.

Lemma JArr_inj a b : JArr a = JArr b -> a = b.
Proof. intro E. now inversion E. Qed.

Ltac enum_inj := intros [] []; cbn; intro; first [reflexivity | discriminate].

Lemma Theme_toJSON_inj a b : Theme_toJSON a = Theme_toJSON b -> a = b.
Proof. revert a b. enum_inj. Qed.

Lemma Unit_toJSON_inj a b : Unit_toJSON a = Unit_toJSON b -> a = b.
Proof. revert a b. enum_inj. Qed.

Lemma Language_toJSON_inj a b : Language_toJSON a = Language_toJSON b -> a = b.
Proof. revert a b. enum_inj. Qed.

Lemma FlowIntensity_toJSON_inj a b : FlowIntensity_toJSON a = FlowIntensity_toJSON b -> a = b.
Proof. revert a b. enum_inj. Qed.

Lemma MucusType_toJSON_inj a b : MucusType_toJSON a = MucusType_toJSON b -> a = b.
Proof. revert a b. enum_inj. Qed.

Lemma CervixPosition_toJSON_inj a b :
  CervixPosition_toJSON a = CervixPosition_toJSON b -> a = b.
Proof. revert a b. enum_inj. Qed.

Lemma LHResult_toJSON_inj a b : LHResult_toJSON a = LHResult_toJSON b -> a = b.
Proof. revert a b. enum_inj. Qed.

Lemma CycleDay_toJSON_inj a b : CycleDay_toJSON a = CycleDay_toJSON b -> a = b.
Proof.
  destruct a as [d1 t1 m1 f1 c1 l1 s1 n1], b as [d2 t2 m2 f2 c2 l2 s2 n2].
  unfold CycleDay_toJSON. cbn [date temperature mucus flow cervix lhTest stressLevel notes].
  intro E. injection E as Ed Et Em Ef Ec El Es En.
  apply (f_equal JStr) in Em, Ef, Ec, El.
  apply MucusType_toJSON_inj in Em. apply FlowIntensity_toJSON_inj in Ef.
  apply CervixPosition_toJSON_inj in Ec. apply LHResult_toJSON_inj in El.
  subst. f_equal. destruct t1, t2; congruence.
Qed.

Lemma UserProfile_toJSON_inj a b : UserProfile_toJSON a = UserProfile_toJSON b -> a = b.
Proof.
  destruct a as [n1 t1 u1 l1], b as [n2 t2 u2 l2].
  unfold UserProfile_toJSON. cbn [name theme unit lang].
  intro E. injection E as En Et Eu El.
  apply (f_equal JStr) in Et, Eu, El.
  apply Theme_toJSON_inj in Et. apply Unit_toJSON_inj in Eu.
  apply Language_toJSON_inj in El. now subst.
Qed.

Lemma map_CycleDay_toJSON_inj l1 l2 :
  map CycleDay_toJSON l1 = map CycleDay_toJSON l2 -> l1 = l2.
Proof.
  revert l2. induction l1 as [|a l1 IH]; intros [|b l2]; cbn [map]; try discriminate.
  - reflexivity.
  - intro E. pose proof (f_equal (hd JNull) E) as Ea. pose proof (f_equal (@tl _) E) as El.
    cbn [hd tl] in Ea, El. apply CycleDay_toJSON_inj in Ea. apply IH in El.
    now subst.
Qed.

(** Two states with the same object tree are the same state, field for
    field. *)
Lemma AppState_toJSON_inj a b : AppState_toJSON a = AppState_toJSON b -> a = b.
Proof.
  destruct a as [p1 c1 l1 u1], b as [p2 c2 l2 u2].
  unfold AppState_toJSON. cbn [profile cycleData lastSynced unsavedChanges].
  intro E.
  assert (Ep := f_equal (prop_of "profile") E).
  assert (Ec := f_equal (prop_of "cycleData") E).
  assert (El := f_equal (prop_of "lastSynced") E).
  assert (Eu := f_equal (prop_of "unsavedChanges") E).
  cbn [prop_of assoc String.eqb Ascii.eqb Bool.eqb] in Ep, Ec, El, Eu.
  apply Some_inj, UserProfile_toJSON_inj in Ep.
  apply Some_inj, JArr_inj, map_CycleDay_toJSON_inj in Ec.
  apply Some_inj in El, Eu. subst. now inversion El; inversion Eu.
Qed.

End TypesFacts.

Lemma nonempty_not_falsy password : password <> "" -> falsy password = false.
Proof. intro Hne. unfold falsy. now apply String.eqb_neq. Qed.

(** ** What a lock that returned has produced *)
Section Produced.
Context `{Host}.

Lemma HeraSecurity_lock_result data password w vaultStr :
  result (HeraSecurity.lock data password) w = Ok vaultStr ->
  blank password = false
  /\ vaultStr = JSON_stringify (HeraSecurity_artifact data password w).
Proof.
  intro Hlock. destruct (blank password) eqn:E.
  - unfold HeraSecurity.lock, result in Hlock. unfold blank in E.
    rewrite E in Hlock. discriminate Hlock.
  - split; [reflexivity|].
    rewrite (HeraSecurity_lock_accepts _ _ _ E) in Hlock. now injection Hlock.
Qed.

Lemma HeraVault96_lock_result data password w vaultStr :
  result (HeraVault96.lock data password) w = Ok vaultStr ->
  falsy password = false
  /\ vaultStr = JSON_stringify (HeraVault96_artifact data password w).
Proof.
  intro Hlock. destruct (falsy password) eqn:E.
  - unfold HeraVault96.lock, result in Hlock. rewrite E in Hlock. discriminate Hlock.
  - split; [reflexivity|].
    rewrite (HeraVault96_lock_accepts _ _ _ E) in Hlock. now injection Hlock.
Qed.

Lemma HeraSecurity_unlock_keeps_storage vaultStr password :
  keeps_storage (HeraSecurity.unlock vaultStr password).
Proof.
  unfold HeraSecurity.unlock, HeraSecurity.deriveKey, HeraVault.deriveKey.
  auto 30 with storage.
Qed.







(** With the hash of the right key in place, INVALID_CREDENTIALS is
    thrown exactly when the hash of the key tried is another. *)
Lemma HeraSecurity_open_mismatch salt iv data password tried :
  HeraSecurity_open salt iv data
    (Some (JStr (bufferToBase64 (verifier password salt)))) tried
  = Throw (Error "INVALID_CREDENTIALS")
  <-> verifier password salt <> verifier tried salt.
Proof.
  unfold HeraSecurity_open. split.
  - intros Hthrow E. rewrite <- E in Hthrow.
    cbn [strict_eq_string] in Hthrow. rewrite String.eqb_refl in Hthrow.
    destruct (AES_GCM_decrypt _ _ _) as [plaintext|]; [|discriminate Hthrow].
    destruct (JSON_parse _); discriminate Hthrow.
  - intro Hne. cbn [strict_eq_string].
    replace (String.eqb _ _) with false; [reflexivity|].
    symmetry. apply String.eqb_neq. intro E. apply Hne. symmetry.
    now apply bufferToBase64_inj.
Qed.

Lemma HeraVault96_open_mismatch salt iv data password tried :
  HeraVault96_open salt iv data
    (Some (JStr (bufferToBase64 (verifier password salt)))) tried
  = Throw (Error "INVALID_PASSWORD")
  <-> verifier password salt <> verifier tried salt.
Proof.
  unfold HeraVault96_open. split.
  - intros Hthrow E. rewrite <- E in Hthrow.
    cbn [strict_eq_string] in Hthrow. rewrite String.eqb_refl in Hthrow.
    destruct (AES_GCM_decrypt _ _ _) as [plaintext|]; [|discriminate Hthrow].
    destruct (JSON_parse _); discriminate Hthrow.
  - intro Hne. cbn [strict_eq_string].
    replace (String.eqb _ _) with false; [reflexivity|].
    symmetry. apply String.eqb_neq. intro E. apply Hne. symmetry.
    now apply bufferToBase64_inj.
Qed.

End Produced.

(** ** A password that derives the same key *)
Section SameKey.
Context `{Faithful}.

Lemma HeraSecurity_same_key_opens data password1 password2 w w' :
  derived_key password2 (fresh_salt w) = derived_key password1 (fresh_salt w) ->
  result (HeraSecurity.unlock
            (JSON_stringify (HeraSecurity_artifact data password1 w)) password2) w'
  = Ok (Types.AppState_toJSON data).
Proof.
  intro Hkey. unfold HeraSecurity_artifact, HeraSecurity.vaultArtifact.
  erewrite HeraSecurity_unlock_object by reflexivity.
  cbn [assoc String.eqb Ascii.eqb Bool.eqb].
  unfold sealed, verifier. rewrite <- Hkey. apply HeraSecurity_open_sealed.
Qed.

Lemma HeraVault_same_key_opens data password1 password2 w :
  derived_key password2 (fresh_salt w) = derived_key password1 (fresh_salt w) ->
  result (HeraVault.unlock password2) (world_after (HeraVault.lock data password1) w)
  = Ok (Some (Types.AppState_toJSON data)).
Proof.
  intro Hkey.
  erewrite HeraVault_unlock_object;
    [ | apply HeraVault_locked_item | reflexivity | reflexivity | reflexivity ].
  unfold sealed. rewrite <- Hkey. apply HeraVault_open_sealed.
Qed.

End SameKey.

(** ** The claims *)

(** C1, as amended.  Sealing a journal state and opening the artifact with
    the same password returns the object tree of the state, field for
    field (an empty [cycleData] included): in HeraSecurity for every
    password that has a character other than white space, in HeraVault of
    the v96 page and in HeraVault of src/lib (through its localStorage
    slot) for every password that is not empty. *)
Theorem lock_unlock_roundtrip `{Faithful}
    (data : Types.AppState) (password : string) (w : World) :
  (blank password = false ->
   exists vaultStr,
     result (HeraSecurity.lock data password) w = Ok vaultStr
     /\ forall w', result (HeraSecurity.unlock vaultStr password) w'
                   = Ok (Types.AppState_toJSON data))
  /\ (password <> "" ->
      (exists vaultStr,
          result (HeraVault96.lock data password) w = Ok vaultStr
          /\ forall w', result (HeraVault96.unlock vaultStr password) w'
                        = Ok (Types.AppState_toJSON data))
      /\ result (HeraVault.lock data password) w = Ok tt
      /\ result (HeraVault.unlock password)
                (world_after (HeraVault.lock data password) w)
         = Ok (Some (Types.AppState_toJSON data))).
Proof.
  split.
  - intro Hpw. eexists. split; [now apply HeraSecurity_lock_accepts|]. intro w'.
    apply HeraSecurity_opens_artifact.
  - intro Hpw. split; [|split].
    + eexists. split; [now apply HeraVault96_lock_accepts, nonempty_not_falsy|].
      intro w'. apply HeraVault96_opens_artifact.
    + unfold result. now rewrite HeraVault_lock_runs.
    + eapply HeraVault_opens_artifact, HeraVault_locked_item.
Qed.

(** C2, as amended.  What decides is the key, not the password.  An
    artifact that a lock produced with [password1], opened with
    [password2]: HeraSecurity throws INVALID_CREDENTIALS (the v96 page
    INVALID_PASSWORD) whenever the hashes of the two derived keys differ,
    and HeraVault of src/lib, which stores no hash, throws its
    ACCESS_DENIED error whenever AES-GCM refuses the key derived from
    [password2]; no journal state is returned.  Whenever the two passwords
    derive the same key under the artifact's salt, [password2] opens the
    artifact and the journal state is returned, in all three. *)
Theorem wrong_password_rejected `{Faithful}
    (data : Types.AppState) (password1 password2 vaultStr : string) (w : World) :
  (result (HeraSecurity.lock data password1) w = Ok vaultStr ->
   (tells_apart (fresh_salt w) password1 password2 ->
    forall w', result (HeraSecurity.unlock vaultStr password2) w'
               = Throw (Error "INVALID_CREDENTIALS"))
   /\ (derived_key password2 (fresh_salt w) = derived_key password1 (fresh_salt w) ->
       forall w', result (HeraSecurity.unlock vaultStr password2) w'
                  = Ok (Types.AppState_toJSON data)))
  /\ (result (HeraVault96.lock data password1) w = Ok vaultStr ->
      (tells_apart (fresh_salt w) password1 password2 ->
       forall w', result (HeraVault96.unlock vaultStr password2) w'
                  = Throw (Error "INVALID_PASSWORD"))
      /\ (derived_key password2 (fresh_salt w) = derived_key password1 (fresh_salt w) ->
          forall w', result (HeraVault96.unlock vaultStr password2) w'
                     = Ok (Types.AppState_toJSON data)))
  /\ (let w1 := world_after (HeraVault.lock data password1) w in
      (refuses (derived_key password2 (fresh_salt w)) (fresh_iv w)
               (sealed data password1 w) ->
       result (HeraVault.unlock password2) w1
       = Throw (Error "ACCESS_DENIED: Decryption Failed."))
      /\ (derived_key password2 (fresh_salt w) = derived_key password1 (fresh_salt w) ->
          result (HeraVault.unlock password2) w1
          = Ok (Some (Types.AppState_toJSON data)))).
Proof.
  split; [|split].
  - intro Hlock. apply HeraSecurity_lock_result in Hlock. destruct Hlock as [_ ->].
    unfold HeraSecurity_artifact, HeraSecurity.vaultArtifact. split.
    + intros Hapart w'. erewrite HeraSecurity_unlock_object by reflexivity.
      cbn [assoc String.eqb Ascii.eqb Bool.eqb].
      now apply HeraSecurity_open_mismatch.
    + intros Hkey w'. erewrite HeraSecurity_unlock_object by reflexivity.
      cbn [assoc String.eqb Ascii.eqb Bool.eqb].
      unfold sealed, verifier. rewrite <- Hkey. apply HeraSecurity_open_sealed.
  - intro Hlock. apply HeraVault96_lock_result in Hlock. destruct Hlock as [_ ->].
    unfold HeraVault96_artifact, HeraVault96.vaultArtifact. split.
    + intros Hapart w'. erewrite HeraVault96_unlock_object by reflexivity.
      cbn [assoc String.eqb Ascii.eqb Bool.eqb].
      now apply HeraVault96_open_mismatch.
    + intros Hkey w'. erewrite HeraVault96_unlock_object by reflexivity.
      cbn [assoc String.eqb Ascii.eqb Bool.eqb].
      unfold sealed, verifier. rewrite <- Hkey. apply HeraVault96_open_sealed.
  - intro w1. split.
    + unfold refuses. intro Hrefuse.
      erewrite HeraVault_unlock_object;
        [ | apply HeraVault_locked_item | reflexivity | reflexivity | reflexivity ].
      unfold HeraVault_open. fold (sealed data password1 w). now rewrite Hrefuse.
    + intro Hkey.
      erewrite HeraVault_unlock_object;
        [ | apply HeraVault_locked_item | reflexivity | reflexivity | reflexivity ].
      unfold sealed. rewrite <- Hkey. apply HeraVault_open_sealed.
Qed.

(** C3.  HeraSecurity.lock and HeraVault.lock of the v96 page refuse the
    empty password before anything else happens: the world, and with it
    the log of crypto operations, is untouched.  HeraVault.lock of src/lib
    has no such test: on the empty password it derives a key, encrypts and
    stores the artifact. *)
Theorem empty_password_guard `{Host} (data : Types.AppState) (w : World) :
  HeraSecurity.lock data "" w = (Throw (Error "Invalid Password"), w)
  /\ HeraVault96.lock data "" w = (Throw (Error "Password Required"), w)
  /\ HeraVault.lock data "" w = (Ok tt, HeraVault_locked data "" w)
  /\ subtle_log (HeraVault_locked data "" w)
     = call_encrypt (fresh_iv w) (derived_key "" (fresh_salt w)) (encodedData data)
       :: call_deriveKey (fresh_salt w) (TextEncoder_encode "")
       :: call_importKey (TextEncoder_encode "") :: subtle_log w
  /\ localStorage (HeraVault_locked data "" w) "HERA_VAULT_CORE"
     = Some (JSON_stringify (HeraVault_artifact data "" w)).
Proof.
  split; [reflexivity|]. split; [reflexivity|]. split; [apply HeraVault_lock_runs|].
  split; reflexivity.
Qed.


(** C5, as amended.  No [unlock] reads the [version] field: take any
    artifact a lock has produced and put any value in that field, a string
    no vault writes (for instance "vX-future") or anything else, and the
    artifact opens with its password to the journal state that was
    sealed. *)
Theorem version_not_inspected `{Faithful}
    (data : Types.AppState) (password vaultStr : string) (version : json)
    (w : World) :
  let relabelled := set_prop "version" version in
  (result (HeraSecurity.lock data password) w = Ok vaultStr ->
   vaultStr = JSON_stringify (HeraSecurity_artifact data password w)
   /\ forall w',
        result (HeraSecurity.unlock
                  (JSON_stringify (relabelled (HeraSecurity_artifact data password w)))
                  password) w'
        = Ok (Types.AppState_toJSON data))
  /\ (result (HeraVault96.lock data password) w = Ok vaultStr ->
      vaultStr = JSON_stringify (HeraVault96_artifact data password w)
      /\ forall w',
           result (HeraVault96.unlock
                     (JSON_stringify (relabelled (HeraVault96_artifact data password w)))
                     password) w'
           = Ok (Types.AppState_toJSON data))
  /\ (localStorage (world_after (HeraVault.lock data password) w) "HERA_VAULT_CORE"
      = Some (JSON_stringify (HeraVault_artifact data password w))
      /\ forall w',
           localStorage w' "HERA_VAULT_CORE"
           = Some (JSON_stringify (relabelled (HeraVault_artifact data password w))) ->
           result (HeraVault.unlock password) w'
           = Ok (Some (Types.AppState_toJSON data))).
Proof.
  intro relabelled. split; [|split]; [intro Hlock; split | intro Hlock; split | split].
  - now apply HeraSecurity_lock_result in Hlock.
  - intro w'. subst relabelled.
    unfold HeraSecurity_artifact, HeraSecurity.vaultArtifact.
    cbn [set_prop set_assoc String.eqb Ascii.eqb Bool.eqb].
    erewrite HeraSecurity_unlock_object by reflexivity.
    apply HeraSecurity_open_sealed.
  - now apply HeraVault96_lock_result in Hlock.
  - intro w'. subst relabelled.
    unfold HeraVault96_artifact, HeraVault96.vaultArtifact.
    cbn [set_prop set_assoc String.eqb Ascii.eqb Bool.eqb].
    erewrite HeraVault96_unlock_object by reflexivity.
    apply HeraVault96_open_sealed.
  - apply HeraVault_locked_item.
  - intros w' Hst. subst relabelled.
    unfold HeraVault_artifact, HeraVault.vaultArtifact in Hst.
    cbn [set_prop set_assoc String.eqb Ascii.eqb Bool.eqb] in Hst.
    erewrite HeraVault_unlock_object by (try exact Hst; reflexivity).
    apply HeraVault_open_sealed.
Qed.


(** C7.  UPDATE_CYCLE_DAY is an upsert on the date.  If the payload's date
    occurs in [cycleData], the first entry with that date is replaced where
    it stands and the length is unchanged; otherwise the payload is
    appended and the length grows by one.  Nothing else in the list
    changes. *)
Theorem update_cycle_day_upsert (loaded_at date_now : number)
    (state : Types.AppState) (payload : Types.CycleDay) :
  let state' := Store.appReducer loaded_at date_now state (Store.UPDATE_CYCLE_DAY payload) in
  let dates := map Types.date (Types.cycleData state) in
  (In (Types.date payload) dates ->
   List.length (Types.cycleData state') = List.length (Types.cycleData state)
   /\ exists pre old post,
        Types.cycleData state = (pre ++ old :: post)%list
        /\ Types.date old = Types.date payload
        /\ ~ In (Types.date payload) (map Types.date pre)
        /\ Types.cycleData state' = (pre ++ payload :: post)%list)
  /\ (~ In (Types.date payload) dates ->
      Types.cycleData state' = (Types.cycleData state ++ [payload])%list
      /\ List.length (Types.cycleData state') = S (List.length (Types.cycleData state))).
Proof.
  intros state' dates. subst state' dates. cbn [Store.appReducer Types.cycleData].
  set (p := fun d => String.eqb (Types.date d) (Types.date payload)).
  unfold Store.findIndex. split.
  - intro Hin. apply in_map_iff in Hin. destruct Hin as (d & Hd & Hind).
    assert (Hex : exists x, In x (Types.cycleData state) /\ p x = true).
    { exists d. split; [assumption|]. unfold p. now apply String.eqb_eq. }
    destruct (StoreFacts.findIndex_from_present p _ 0%Z Hex)
      as (pre & old & post & Hl & Hold & Hpre & Hidx).
    rewrite Hidx, Hl.
    replace (0 + Z.of_nat (List.length pre) >=? 0)%Z with true
      by (symmetry; apply Z.geb_le; lia).
    replace (Z.to_nat (0 + Z.of_nat (List.length pre))) with (List.length pre) by lia.
    rewrite StoreFacts.array_set_at. split.
    + rewrite !length_app. reflexivity.
    + exists pre, old, post. repeat split.
      * unfold p in Hold. now apply String.eqb_eq in Hold.
      * intro Hbad. apply in_map_iff in Hbad. destruct Hbad as (y & Hy & Hiny).
        specialize (Hpre y Hiny). unfold p in Hpre. apply String.eqb_neq in Hpre.
        congruence.
  - intro Hnot.
    rewrite StoreFacts.findIndex_from_absent.
    + cbn. unfold Store.push. split; [reflexivity|]. rewrite length_app. cbn. lia.
    + intros x Hx. unfold p. apply String.eqb_neq. intro E. apply Hnot.
      apply in_map_iff. now exists x.
Qed.

(** C8.  A failed attempt changes nothing.  HeraSecurity: an attempt on an
    artifact that a lock produced leaves localStorage as it was, whatever
    password was tried and however it ended, and in the world it leaves
    the same artifact opens with the right password; the attempt is
    refused with INVALID_CREDENTIALS exactly when the hash of the key tried
    differs from the stored one.  HeraVault of src/lib: the same for its
    slot, where the attempt is refused with ACCESS_DENIED when AES-GCM
    refuses the key tried.  There is no count of attempts and no
    lockout. *)
Theorem failed_open_leaves_artifact `{Faithful}
    (data : Types.AppState) (password wrong vaultStr : string) (w w1 : World) :
  (result (HeraSecurity.lock data password) w = Ok vaultStr ->
   let w2 := world_after (HeraSecurity.unlock vaultStr wrong) w1 in
   (result (HeraSecurity.unlock vaultStr wrong) w1 = Throw (Error "INVALID_CREDENTIALS")
    <-> tells_apart (fresh_salt w) password wrong)
   /\ localStorage w2 = localStorage w1
   /\ result (HeraSecurity.unlock vaultStr password) w2
      = Ok (Types.AppState_toJSON data))
  /\ (let w1 := world_after (HeraVault.lock data password) w in
      let w2 := world_after (HeraVault.unlock wrong) w1 in
      (refuses (derived_key wrong (fresh_salt w)) (fresh_iv w)
               (sealed data password w) ->
       result (HeraVault.unlock wrong) w1
       = Throw (Error "ACCESS_DENIED: Decryption Failed."))
      /\ localStorage w2 = localStorage w1
      /\ result (HeraVault.unlock password) w2
         = Ok (Some (Types.AppState_toJSON data))).
Proof.
  split.
  - intros Hlock w2. apply HeraSecurity_lock_result in Hlock.
    destruct Hlock as [_ ->]. split; [|split].
    + unfold HeraSecurity_artifact, HeraSecurity.vaultArtifact.
      erewrite HeraSecurity_unlock_object by reflexivity.
      cbn [assoc String.eqb Ascii.eqb Bool.eqb].
      apply HeraSecurity_open_mismatch.
    + apply HeraSecurity_unlock_keeps_storage.
    + apply HeraSecurity_opens_artifact.
  - intros w1' w2. split; [|split].
    + unfold refuses. intro Hrefuse.
      erewrite HeraVault_unlock_object;
        [ | apply HeraVault_locked_item | reflexivity | reflexivity | reflexivity ].
      unfold HeraVault_open. fold (sealed data password w). now rewrite Hrefuse.
    + apply HeraVault_unlock_keeps_storage.
    + eapply HeraVault_opens_artifact. subst w2.
      rewrite HeraVault_unlock_keeps_storage. apply HeraVault_locked_item.
Qed.

(** C9.  Encoding a buffer with [bufferToBase64] and decoding the text
    with [base64ToBuffer] gives back the same bytes, for every byte
    sequence; decoding never throws on an encoded buffer. *)
Theorem base64_buffer_roundtrip (b : bytes) :
  base64ToBuffer (bufferToBase64 b) = Ok b.
Proof.
  unfold base64ToBuffer, bufferToBase64.
  (* the binary string of the buffer *)
  rewrite binary_of_buffer. cbn [append].
  (* atob undoes btoa *)
  rewrite Base64Facts.atob_btoa.
  (* and the bytes read back are the bytes written *)
  rewrite buffer_of_binary, list_ascii_of_string_of_list_ascii, map_map.
  rewrite (map_ext _ (fun x => x)) by (intro x; apply byte_of_ascii_of_byte).
  now rewrite map_id.
Qed.

(** C10.  With nothing stored under HERA_VAULT_CORE, [HeraVault.unlock]
    returns null for every password, in both copies of the class, and
    leaves the world as it is. *)
Theorem unlock_without_artifact `{Host} (password : string) (w : World) :
  localStorage w "HERA_VAULT_CORE" = None ->
  HeraVault.unlock password w = (Ok None, w)
  /\ HeraVaultSSR.unlock password w = (Ok None, w).
Proof.
  intro Hnone. split.
  - unfold HeraVault.unlock. run_vault. now rewrite Hnone.
  - unfold HeraVaultSSR.unlock. run_vault. destruct (has_window w); cbn [negb]; [|reflexivity].
    now rewrite Hnone.
Qed.

(** * More of the code *)

(** ** More on the reducer *)
Module UpsertFacts.
Import Store.

Lemma upserted_absent days payload :
  (forall d, In d days -> String.eqb (Types.date d) (Types.date payload) = false) ->
  upserted days payload = (days ++ [payload])%list.
Proof.
  induction days as [|d rest IH]; intro Hall; cbn.
  - reflexivity.
  - rewrite (Hall d) by now left. rewrite IH; [reflexivity|].
    intros y Hy. apply Hall. now right.
Qed.

Lemma upserted_present pre x post payload :
  (forall d, In d pre -> String.eqb (Types.date d) (Types.date payload) = false) ->
  String.eqb (Types.date x) (Types.date payload) = true ->
  upserted (pre ++ x :: post) payload = (pre ++ payload :: post)%list.
Proof.
  intros Hpre Hx. induction pre as [|d pre IH]; cbn.
  - now rewrite Hx.
  - rewrite (Hpre d) by now left. rewrite IH; [reflexivity|].
    intros y Hy. apply Hpre. now right.
Qed.

Lemma existsb_false {A} (p : A -> bool) l :
  existsb p l = false -> forall x, In x l -> p x = false.
Proof.
  intros E x Hx. destruct (p x) eqn:Hp; [|reflexivity].
  assert (existsb p l = true) by (apply existsb_exists; eauto). congruence.
Qed.

(** The list the reducer leaves after UPDATE_CYCLE_DAY. *)
Lemma cycleData_updated loaded_at date_now state payload :
  Types.cycleData (appReducer loaded_at date_now state (UPDATE_CYCLE_DAY payload))
  = upserted (Types.cycleData state) payload.
Proof.
  cbn [appReducer Types.cycleData]. unfold findIndex.
  set (p := fun d => String.eqb (Types.date d) (Types.date payload)).
  destruct (existsb p (Types.cycleData state)) eqn:E.
  - apply existsb_exists in E.
    destruct (StoreFacts.findIndex_from_present p _ 0%Z E)
      as (pre & old & post & Hl & Hold & Hpre & Hidx).
    rewrite Hidx, Hl.
    replace (0 + Z.of_nat (List.length pre) >=? 0)%Z with true
      by (symmetry; apply Z.geb_le; lia).
    replace (Z.to_nat (0 + Z.of_nat (List.length pre))) with (List.length pre) by lia.
    rewrite StoreFacts.array_set_at. symmetry. now apply upserted_present.
  - pose proof (existsb_false _ _ E) as Hall.
    rewrite StoreFacts.findIndex_from_absent by exact Hall.
    cbn. unfold push. symmetry. now apply upserted_absent.
Qed.

Lemma updated_state loaded_at date_now state payload :
  appReducer loaded_at date_now state (UPDATE_CYCLE_DAY payload)
  = Types.mkAppState (Types.profile state) (upserted (Types.cycleData state) payload)
                     (Types.lastSynced state) true.
Proof.
  rewrite <- (cycleData_updated loaded_at date_now). reflexivity.
Qed.

Lemma dates_upserted days payload date :
  In date (map Types.date (upserted days payload)) <->
  date = Types.date payload \/ In date (map Types.date days).
Proof.
  induction days as [|d rest IH]; cbn.
  - intuition congruence.
  - destruct (String.eqb_spec (Types.date d) (Types.date payload)) as [E|E]; cbn.
    + rewrite E. intuition congruence.
    + rewrite IH. intuition congruence.
Qed.

Lemma NoDup_upserted days payload :
  NoDup (map Types.date days) -> NoDup (map Types.date (upserted days payload)).
Proof.
  induction days as [|d rest IH]; cbn; intro Hnd.
  - constructor; [tauto | constructor].
  - inversion Hnd as [|? ? Hnot Hrest]; subst.
    destruct (String.eqb_spec (Types.date d) (Types.date payload)) as [E|E]; cbn.
    + rewrite <- E. now constructor.
    + constructor; [|now apply IH].
      rewrite dates_upserted. intros [E' | Hin]; [congruence | contradiction].
Qed.

Lemma find_day_upserted days payload date :
  Layout.find_day date (upserted days payload)
  = if String.eqb (Types.date payload) date then Some payload
    else Layout.find_day date days.
Proof.
  unfold Layout.find_day. induction days as [|d rest IH]; cbn.
  - now destruct (String.eqb (Types.date payload) date).
  - destruct (String.eqb_spec (Types.date d) (Types.date payload)) as [E|E]; cbn.
    + rewrite E. now destruct (String.eqb (Types.date payload) date).
    + destruct (String.eqb_spec (Types.date d) date) as [Ed|Ed].
      * destruct (String.eqb_spec (Types.date payload) date); [congruence | reflexivity].
      * exact IH.
Qed.

Lemma upserted_again days p q :
  Types.date p = Types.date q -> upserted (upserted days p) q = upserted days q.
Proof.
  intro E. induction days as [|d rest IH]; cbn.
  - rewrite E, String.eqb_refl. reflexivity.
  - rewrite <- E.
    destruct (String.eqb (Types.date d) (Types.date p)) eqn:Ed; cbn.
    + now rewrite <- E, String.eqb_refl.
    + rewrite <- E, Ed. now rewrite IH.
Qed.

Lemma find_day_some date days d :
  Layout.find_day date days = Some d -> In d days /\ Types.date d = date.
Proof.
  unfold Layout.find_day. intro Hf. apply find_some in Hf.
  destruct Hf as [Hin E]. now apply String.eqb_eq in E.
Qed.

Lemma find_day_none date days :
  Layout.find_day date days = None <-> ~ In date (map Types.date days).
Proof.
  unfold Layout.find_day. split.
  - intros Hf Hin. apply in_map_iff in Hin. destruct Hin as (d & Ed & Hd).
    pose proof (find_none _ _ Hf d Hd) as Hn. cbn in Hn.
    apply String.eqb_neq in Hn. congruence.
  - intro Hnot. destruct (find _ days) as [d|] eqn:Hf; [|reflexivity].
    apply find_some in Hf. destruct Hf as [Hin E]. apply String.eqb_eq in E.
    exfalso. apply Hnot. apply in_map_iff. now exists d.
Qed.

Lemma find_app_first {A} (p : A -> bool) l1 l2 :
  find p (l1 ++ l2) = match find p l1 with Some x => Some x | None => find p l2 end.
Proof. induction l1 as [|x l1 IH]; cbn; [reflexivity | now destruct (p x)]. Qed.

End UpsertFacts.

(** X1.  After UPDATE_CYCLE_DAY, looking up the payload's date gives the
    payload, and looking up any other date gives what it gave before. *)
Theorem update_then_find (loaded_at date_now : number) (state : Types.AppState)
    (payload : Types.CycleDay) (date : string) :
  Layout.find_day date
    (Types.cycleData
       (Store.appReducer loaded_at date_now state (Store.UPDATE_CYCLE_DAY payload)))
  = if String.eqb (Types.date payload) date then Some payload
    else Layout.find_day date (Types.cycleData state).
Proof.
  rewrite UpsertFacts.cycleData_updated. apply UpsertFacts.find_day_upserted.
Qed.

(** X2.  Two updates for the same date: the second replaces the first, and
    the state is the one the second alone would have given.  In particular
    an update dispatched twice changes nothing the second time. *)
Theorem update_same_date_twice (loaded_at t1 t2 : number) (state : Types.AppState)
    (first second : Types.CycleDay) :
  Types.date first = Types.date second ->
  Store.appReducer loaded_at t2
    (Store.appReducer loaded_at t1 state (Store.UPDATE_CYCLE_DAY first))
    (Store.UPDATE_CYCLE_DAY second)
  = Store.appReducer loaded_at t2 state (Store.UPDATE_CYCLE_DAY second).
Proof.
  intro E. rewrite !UpsertFacts.updated_state. cbn [Types.profile Types.cycleData
    Types.lastSynced]. now rewrite UpsertFacts.upserted_again.
Qed.

(** X3.  No run of the reducer logs a date twice: when the dates of the
    state are pairwise different, and so are those of every state a
    LOAD_STATE brings, they are pairwise different after the run. *)
Theorem reducer_keeps_dates_unique (loaded_at : number) (state : Types.AppState)
    (actions : list (number * Store.Action)) :
  dates_unique state ->
  (forall t payload, In (t, Store.LOAD_STATE payload) actions -> dates_unique payload) ->
  dates_unique (reduce_all loaded_at state actions).
Proof.
  unfold reduce_all. revert state.
  induction actions as [|[t a] rest IH]; intros state Hstate Hloads; cbn [fold_left].
  - exact Hstate.
  - apply IH.
    + cbn [fst snd]. destruct a as [payload | payload | payload | | ].
      * apply (Hloads t payload). now left.
      * exact Hstate.
      * unfold dates_unique. rewrite UpsertFacts.cycleData_updated.
        now apply UpsertFacts.NoDup_upserted.
      * constructor.
      * exact Hstate.
    + intros t' payload Hin. apply (Hloads t' payload). now right.
Qed.

(** X4.  After a run of UPDATE_CYCLE_DAY actions, a date shows the last
    payload dispatched for it, and what it showed before when none was. *)
Theorem last_update_wins (loaded_at : number) (state : Types.AppState)
    (updates : list (number * Types.CycleDay)) (date : string) :
  Layout.find_day date
    (Types.cycleData
       (reduce_all loaded_at state
          (map (fun u => (fst u, Store.UPDATE_CYCLE_DAY (snd u))) updates)))
  = match Layout.find_day date (rev (map snd updates)) with
    | Some payload => Some payload
    | None => Layout.find_day date (Types.cycleData state)
    end.
Proof.
  unfold reduce_all. revert state.
  induction updates as [|[t p] rest IH]; intro state; cbn [map fold_left rev fst snd].
  - reflexivity.
  - rewrite IH. rewrite UpsertFacts.cycleData_updated, UpsertFacts.find_day_upserted.
    unfold Layout.find_day. rewrite UpsertFacts.find_app_first.
    destruct (find _ (rev (map snd rest))) as [l|]; [reflexivity|].
    cbn [find]. now destruct (String.eqb (Types.date p) date).
Qed.

(** X5.  A profile update and a day update do not disturb each other:
    dispatched in either order they give the same state. *)
Theorem profile_and_day_updates_commute (loaded_at t1 t2 t3 t4 : number)
    (state : Types.AppState) (p : Store.PartialUserProfile) (d : Types.CycleDay) :
  Store.appReducer loaded_at t2
    (Store.appReducer loaded_at t1 state (Store.UPDATE_PROFILE p))
    (Store.UPDATE_CYCLE_DAY d)
  = Store.appReducer loaded_at t4
      (Store.appReducer loaded_at t3 state (Store.UPDATE_CYCLE_DAY d))
      (Store.UPDATE_PROFILE p).
Proof.
  rewrite !UpsertFacts.updated_state. reflexivity.
Qed.

(** ** The page *)
Module LayoutFacts.
Import Layout.

Lemma date_of_current selectedDate days :
  Types.date (Store.or_else (find_day selectedDate days) (unlogged selectedDate))
  = selectedDate.
Proof.
  destruct (find_day selectedDate days) as [d|] eqn:Hf; cbn; [|reflexivity].
  now apply UpsertFacts.find_day_some in Hf.
Qed.

Lemma date_of_spread selectedDate days update :
  Types.date (spread_day (Store.or_else (find_day selectedDate days)
                                        (unlogged selectedDate)) update)
  = Store.or_else (date update) selectedDate.
Proof. cbn [spread_day Types.date]. now rewrite date_of_current. Qed.

(** The state [updateDay] leaves. *)
Lemma updateDay_state loaded_at date_now update page :
  state (updateDay loaded_at date_now update page)
  = Types.mkAppState
      (Types.profile (state page))
      (upserted (Types.cycleData (state page))
                (spread_day
                   (Store.or_else (find_day (selectedDate page)
                                            (Types.cycleData (state page)))
                                  (unlogged (selectedDate page)))
                   update))
      (Types.lastSynced (state page)) true.
Proof.
  unfold updateDay, dispatch. cbn [state set_state].
  apply UpsertFacts.updated_state.
Qed.

End LayoutFacts.

(** X6.  [updateDay] writes one entry and touches no other.  The entry is
    filed under the update's own date when it has one and under the
    selected date otherwise; it holds the update's fields over those of the
    entry logged for the selected date, or over the defaults (36.5, none,
    none, low_hard, negative, stress 1, no notes) when nothing was logged.
    Every other date reads as before, the state is marked unsaved, and no
    other hook of the page changes. *)
Theorem updateDay_writes_one_entry (loaded_at date_now : number)
    (update : Layout.PartialCycleDay) (page : Layout.Session) :
  let days := Types.cycleData (Layout.state page) in
  let page' := Layout.updateDay loaded_at date_now update page in
  let days' := Types.cycleData (Layout.state page') in
  let target := Store.or_else (Layout.date update) (Layout.selectedDate page) in
  Layout.find_day target days'
  = Some (Layout.spread_day
            (Store.or_else (Layout.find_day (Layout.selectedDate page) days)
                           (Layout.unlogged (Layout.selectedDate page)))
            update)
  /\ (forall other, other <> target ->
                    Layout.find_day other days' = Layout.find_day other days)
  /\ Types.unsavedChanges (Layout.state page') = true
  /\ Types.profile (Layout.state page') = Types.profile (Layout.state page)
  /\ Types.lastSynced (Layout.state page') = Types.lastSynced (Layout.state page)
  /\ page = Layout.set_state (Layout.state page) page'.
Proof.
  intros days page' days' target. subst days' page'.
  rewrite LayoutFacts.updateDay_state.
  cbn [Types.cycleData Types.unsavedChanges Types.profile Types.lastSynced].
  split; [|split; [|split; [|split; [|split]]]]; try reflexivity.
  - rewrite UpsertFacts.find_day_upserted, LayoutFacts.date_of_spread.
    fold target. now rewrite String.eqb_refl.
  - intros other Hother.
    rewrite UpsertFacts.find_day_upserted, LayoutFacts.date_of_spread. fold target.
    apply not_eq_sym in Hother. apply String.eqb_neq in Hother. now rewrite Hother.
  - destruct page. reflexivity.
Qed.

(** X7.  Logging one measurement on a date that has no entry yet records
    the defaults for everything else: an update that sets no temperature
    (only the mucus, say) leaves a new entry whose temperature reads
    36.5. *)
Theorem updateDay_fills_defaults (loaded_at date_now : number)
    (update : Layout.PartialCycleDay) (page : Layout.Session) :
  Layout.find_day (Layout.selectedDate page) (Types.cycleData (Layout.state page))
  = None ->
  Layout.date update = None ->
  Layout.temperature update = None ->
  exists entry,
    Layout.find_day (Layout.selectedDate page)
      (Types.cycleData (Layout.state (Layout.updateDay loaded_at date_now update page)))
    = Some entry
    /\ Types.temperature entry = Some (QArith_base.Qmake 73 2)
    /\ List.length
         (Types.cycleData (Layout.state (Layout.updateDay loaded_at date_now update page)))
       = S (List.length (Types.cycleData (Layout.state page))).
Proof.
  intros Hnone Hd Ht. rewrite LayoutFacts.updateDay_state. cbn [Types.cycleData].
  rewrite Hnone. cbn [Store.or_else].
  eexists. split; [|split].
  - rewrite UpsertFacts.find_day_upserted. cbn [Layout.spread_day Types.date].
    rewrite Hd. cbn [Store.or_else Layout.unlogged Types.date].
    rewrite String.eqb_refl. reflexivity.
  - cbn. now rewrite Ht.
  - rewrite UpsertFacts.upserted_absent.
    + rewrite length_app. cbn. lia.
    + intros d Hin. cbn [Layout.spread_day Types.date]. rewrite Hd. cbn.
      apply String.eqb_neq. intro E.
      apply UpsertFacts.find_day_none in Hnone. apply Hnone.
      apply in_map_iff. now exists d.
Qed.

(** ** Reading back what toJSON wrote *)
Module ReadingFacts.
Import Types Reading.

Lemma Theme_read t : Theme_ofJSON (Theme_toJSON t) = Some t.
Proof. now destruct t. Qed.

Lemma Unit_read u : Unit_ofJSON (Unit_toJSON u) = Some u.
Proof. now destruct u. Qed.

Lemma Language_read l : Language_ofJSON (Language_toJSON l) = Some l.
Proof. now destruct l. Qed.

Lemma FlowIntensity_read f : FlowIntensity_ofJSON (FlowIntensity_toJSON f) = Some f.
Proof. now destruct f. Qed.

Lemma MucusType_read m : MucusType_ofJSON (MucusType_toJSON m) = Some m.
Proof. now destruct m. Qed.

Lemma CervixPosition_read c : CervixPosition_ofJSON (CervixPosition_toJSON c) = Some c.
Proof. now destruct c. Qed.

Lemma LHResult_read r : LHResult_ofJSON (LHResult_toJSON r) = Some r.
Proof. now destruct r. Qed.

Lemma CycleDay_read d : CycleDay_ofJSON (CycleDay_toJSON d) = Some d.
Proof.
  destruct d as [d t m f c l s n]. unfold CycleDay_ofJSON, CycleDay_toJSON.
  cbn [object_ofJSON values_of String.eqb Ascii.eqb Bool.eqb
       Types.date Types.temperature Types.mucus Types.flow Types.cervix
       Types.lhTest Types.stressLevel Types.notes string_ofJSON number_ofJSON].
  rewrite MucusType_read, FlowIntensity_read, CervixPosition_read, LHResult_read.
  now destruct t.
Qed.

Lemma UserProfile_read p : UserProfile_ofJSON (UserProfile_toJSON p) = Some p.
Proof.
  destruct p as [n t u l]. unfold UserProfile_ofJSON, UserProfile_toJSON.
  cbn [object_ofJSON values_of String.eqb Ascii.eqb Bool.eqb
       Types.name Types.theme Types.unit Types.lang string_ofJSON].
  now rewrite Theme_read, Unit_read, Language_read.
Qed.

Lemma all_of_read {A} (read : json -> option A) (write : A -> json) l :
  (forall a, read (write a) = Some a) -> all_of read (map write l) = Some l.
Proof.
  intro Hrw. induction l as [|a l IH]; cbn; [reflexivity|]. now rewrite Hrw, IH.
Qed.

Lemma AppState_read s : AppState_ofJSON (AppState_toJSON s) = Some s.
Proof.
  destruct s as [p c l u]. unfold AppState_ofJSON, AppState_toJSON.
  cbn [object_ofJSON values_of String.eqb Ascii.eqb Bool.eqb
       Types.profile Types.cycleData Types.lastSynced Types.unsavedChanges
       number_ofJSON boolean_ofJSON array_ofJSON].
  rewrite UserProfile_read, (all_of_read _ _ _ CycleDay_read). reflexivity.
Qed.

End ReadingFacts.

(** ** The handlers *)
Module HandlerFacts.
Import Layout.

Lemma pair_of_run {A} (m : M A) (w : World) : m w = (result m w, world_after m w).
Proof. unfold result, world_after. now destruct (m w). Qed.

(** Opening with nothing in the slot. *)
Lemma handleUnlock_creates `{Host} loaded_at page w :
  falsy_item (localStorage w "HERA_VAULT_CORE") = true ->
  handleUnlock loaded_at page w
  = (Ok tt, well_typed (entered (Store.DEFAULT_STATE loaded_at) page),
     HeraVault_locked (Store.DEFAULT_STATE loaded_at) (password page) w).
Proof.
  intro Hempty. unfold handleUnlock, localStorage_getItem. rewrite Hempty.
  rewrite HeraVault_lock_runs. reflexivity.
Qed.

(** LOAD_STATE on the object tree of a state is LOAD_STATE on the
    state. *)
Lemma viewed_LOAD_STATE loaded_at date_now state payload :
  viewed (LOAD_STATE_value (Types.AppState_toJSON payload))
  = typed (Store.appReducer loaded_at date_now state (Store.LOAD_STATE payload)).
Proof.
  unfold viewed, LOAD_STATE_value, Types.AppState_toJSON.
  cbn [own_properties set_assoc String.eqb Ascii.eqb Bool.eqb Store.appReducer].
  change (JObj _)
    with (Types.AppState_toJSON
            (Types.mkAppState (Types.profile payload) (Types.cycleData payload)
                              (Types.lastSynced payload) false)).
  now rewrite ReadingFacts.AppState_read.
Qed.

Section WithHost.
Context `{Faithful}.

(** Opening the slot that holds what a lock wrote. *)
Lemma handleUnlock_opens loaded_at page data w0 w :
  localStorage w "HERA_VAULT_CORE"
  = Some (JSON_stringify (HeraVault_artifact data (password page) w0)) ->
  handleUnlock loaded_at page w
  = (Ok tt, well_typed (entered data page),
     world_after (HeraVault.unlock (password page)) w).
Proof.
  intro Hst. unfold handleUnlock, localStorage_getItem. rewrite Hst.
  cbn [falsy_item]. unfold falsy.
  pose proof (JSON_stringify_nonempty (HeraVault_artifact data (password page) w0)) as Hne.
  apply String.eqb_neq in Hne. rewrite Hne.
  rewrite (pair_of_run (HeraVault.unlock (password page)) w).
  rewrite (HeraVault_opens_artifact data (password page) w0 w Hst).
  cbn [truthy Types.AppState_toJSON]. fold (Types.AppState_toJSON data).
  rewrite (viewed_LOAD_STATE loaded_at (now w) (state page)). reflexivity.
Qed.

End WithHost.

Lemma activePassword_dispatch_all loaded_at actions page :
  activePassword (dispatch_all loaded_at actions page) = activePassword page.
Proof.
  unfold dispatch_all. revert page.
  induction actions as [|a rest IH]; intro page; cbn [fold_left]; [reflexivity|].
  now rewrite IH.
Qed.

End HandlerFacts.

(** X8.  The first open.  With nothing in the slot, [handleUnlock] seals
    the default state under whatever was typed, the empty password
    included, loads it and enters the app.  A later session that types the
    same password over the same slot enters with that default state: its
    [lastSynced] is the first session's load time, not its own. *)
Theorem first_open_then_reopen `{Faithful}
    (loaded_at : number) (page : Layout.Session) (w : World) :
  falsy_item (localStorage w "HERA_VAULT_CORE") = true ->
  let w1 := HeraVault_locked (Store.DEFAULT_STATE loaded_at) (Layout.password page) w in
  Layout.handleUnlock loaded_at page w
  = (Ok tt, Layout.well_typed (entered (Store.DEFAULT_STATE loaded_at) page), w1)
  /\ forall (loaded_later : number) (page2 : Layout.Session) (w2 : World),
       Layout.password page2 = Layout.password page ->
       localStorage w2 "HERA_VAULT_CORE" = localStorage w1 "HERA_VAULT_CORE" ->
       exists w3,
         Layout.handleUnlock loaded_later page2 w2
         = (Ok tt, Layout.well_typed (entered (Store.DEFAULT_STATE loaded_at) page2),
            w3)
         /\ localStorage w3 = localStorage w2.
Proof.
  intros Hempty w1. split.
  - now apply HandlerFacts.handleUnlock_creates.
  - intros loaded_later page2 w2 Hpw Hst. eexists. split.
    + apply HandlerFacts.handleUnlock_opens with (data := Store.DEFAULT_STATE loaded_at) (w0 := w).
      rewrite Hst, Hpw. subst w1. cbn [HeraVault_locked localStorage].
      now rewrite String.eqb_refl.
    + apply HeraVault_unlock_keeps_storage.
Qed.

(** X9.  Save and reopen.  With a non-empty active password [handleSave]
    seals the state as the page holds it, marks the page saved at the
    current clock and arms the two-second timer.  A later session that
    types the password over the slot gets that state back with
    [unsavedChanges] false; its [lastSynced] is the one from before the
    save, since the state is sealed before MARK_SAVED is dispatched. *)
Theorem save_then_reopen `{Faithful}
    (loaded_at : number) (page : Layout.Session) (password : string) (w : World) :
  Layout.activePassword page = Some password ->
  password <> "" ->
  let s := Layout.state page in
  let w1 := HeraVault_locked s password w in
  Layout.handleSave loaded_at page w
  = (Ok tt,
     Layout.setTimeout Layout.idle 2000
       (Layout.setSaveState Layout.saved
          (Layout.set_state
             (Types.mkAppState (Types.profile s) (Types.cycleData s) (now w) false)
             page)),
     w1)
  /\ forall (loaded_later : number) (page2 : Layout.Session) (w2 : World),
       Layout.password page2 = password ->
       localStorage w2 "HERA_VAULT_CORE" = localStorage w1 "HERA_VAULT_CORE" ->
       exists w3,
         Layout.handleUnlock loaded_later page2 w2
         = (Ok tt, Layout.well_typed (entered s page2), w3)
         /\ localStorage w3 = localStorage w2.
Proof.
  intros Hactive Hne s w1. split.
  - unfold Layout.handleSave. rewrite Hactive. cbn [Layout.no_password].
    rewrite (nonempty_not_falsy _ Hne). rewrite HeraVault_lock_runs.
    subst w1 s. destruct page. reflexivity.
  - intros loaded_later page2 w2 Hpw Hst. eexists. split.
    + apply HandlerFacts.handleUnlock_opens with (data := s) (w0 := w).
      rewrite Hst, Hpw. subst w1. cbn [HeraVault_locked localStorage].
      now rewrite String.eqb_refl.
    + apply HeraVault_unlock_keeps_storage.
Qed.

(** X10.  A wrong key.  When the slot holds what a lock wrote and AES-GCM
    refuses the key derived from the password typed, [handleUnlock] ends
    normally: it shows "Sanctuary Locked: Incorrect Key" and leaves every
    hook of the page (state, status, active password) and localStorage as
    they were. *)
Theorem wrong_key_keeps_session `{Faithful}
    (loaded_at : number) (page : Layout.Session) (data : Types.AppState)
    (password : string) (w0 w : World) :
  localStorage w "HERA_VAULT_CORE"
  = Some (JSON_stringify (HeraVault_artifact data password w0)) ->
  refuses (derived_key (Layout.password page) (fresh_salt w0)) (fresh_iv w0)
          (sealed data password w0) ->
  exists w',
    Layout.handleUnlock loaded_at page w
    = (Ok tt, Layout.well_typed (Layout.alert "Sanctuary Locked: Incorrect Key" page),
       w')
    /\ localStorage w' = localStorage w.
Proof.
  intros Hst Hrefuse. exists (world_after (HeraVault.unlock (Layout.password page)) w).
  split; [|apply HeraVault_unlock_keeps_storage].
  unfold Layout.handleUnlock, localStorage_getItem. rewrite Hst.
  cbn [falsy_item]. unfold falsy.
  pose proof (JSON_stringify_nonempty (HeraVault_artifact data password w0)) as Hne.
  apply String.eqb_neq in Hne. rewrite Hne.
  rewrite (HandlerFacts.pair_of_run (HeraVault.unlock (Layout.password page)) w).
  unfold HeraVault_artifact, HeraVault.vaultArtifact in Hst.
  erewrite HeraVault_unlock_object by (try exact Hst; reflexivity).
  unfold HeraVault_open. unfold refuses in Hrefuse. fold (sealed data password w0).
  now rewrite Hrefuse.
Qed.


(** X12.  A session opened with the empty password saves nothing.  With an
    empty slot and nothing typed, [handleUnlock] creates the vault under
    the empty password and enters the app; from then on, whatever is
    dispatched, [handleSave] returns at its guard and leaves the page and
    the world as they are. *)
Theorem empty_password_session_saves_nothing `{Host}
    (loaded_at : number) (page : Layout.Session) (w : World) :
  falsy_item (localStorage w "HERA_VAULT_CORE") = true ->
  Layout.password page = "" ->
  exists page1 w1,
    Layout.handleUnlock loaded_at page w = (Ok tt, Layout.well_typed page1, w1)
    /\ Layout.status page1 = Layout.app
    /\ localStorage w1 "HERA_VAULT_CORE"
       = Some (JSON_stringify
                 (HeraVault_artifact (Store.DEFAULT_STATE loaded_at) "" w))
    /\ forall (actions : list (number * Store.Action)) (w2 : World),
         Layout.handleSave loaded_at (Layout.dispatch_all loaded_at actions page1) w2
         = (Ok tt, Layout.dispatch_all loaded_at actions page1, w2).
Proof.
  intros Hempty Hpw.
  exists (entered (Store.DEFAULT_STATE loaded_at) page),
         (HeraVault_locked (Store.DEFAULT_STATE loaded_at) (Layout.password page) w).
  split; [|split; [|split]].
  - now apply HandlerFacts.handleUnlock_creates.
  - reflexivity.
  - rewrite Hpw. reflexivity.
  - intros actions w2. unfold Layout.handleSave.
    rewrite HandlerFacts.activePassword_dispatch_all. unfold entered.
    cbn [Layout.activePassword Layout.setStatus Layout.set_activePassword].
    rewrite Hpw. reflexivity.
Qed.

(** ** What the vault classes throw *)
Module ThrowFacts.

Lemma throws_only_ret {A} P (a : A) : throws_only P (ret a).
Proof. intros w e E. discriminate E. Qed.

Lemma throws_only_throw {A} (P : Exn -> Prop) e : P e -> throws_only P (@throw A e).
Proof. intros HP w e' E. injection E as <-. exact HP. Qed.

Lemma throws_only_bind {A B} P (m : M A) (k : A -> M B) :
  throws_only P m -> (forall a, throws_only P (k a)) -> throws_only P (bind m k).
Proof.
  intros Hm Hk w e. specialize (Hm w). unfold result, bind in *.
  destruct (m w) as [[a|e'] w1]; cbn [fst] in *.
  - apply (Hk a w1).
  - intro E. injection E as <-. now apply Hm.
Qed.

Lemma throws_only_try_catch {A} P (m : M A) (h : Exn -> M A) :
  (forall e, throws_only P (h e)) -> throws_only P (try_catch m h).
Proof.
  intros Hh w e. unfold result, try_catch.
  destruct (m w) as [[a|e'] w1]; cbn [fst]; [discriminate|]. apply (Hh e' w1).
Qed.

Lemma throws_only_if {A} P (b : bool) (m1 m2 : M A) :
  throws_only P m1 -> throws_only P m2 -> throws_only P (if b then m1 else m2).
Proof. now destruct b. Qed.

Section WithHost.
Context `{Host}.

Lemma throws_only_JSON_parse (P : Exn -> Prop) text :
  P SyntaxError -> throws_only P (JSON_parse_ text).
Proof.
  intro HP. unfold JSON_parse_. destruct (JSON_parse text).
  - apply throws_only_ret.
  - now apply throws_only_throw.
Qed.

Lemma throws_only_get_prop (P : Exn -> Prop) vault k :
  P TypeError -> throws_only P (lift (get_prop vault k)).
Proof.
  intros HP w e. unfold result, lift. cbn [fst].
  destruct vault; cbn; try discriminate. intro E. now injection E as <-.
Qed.

Lemma throws_only_base64ToBuffer_prop (P : Exn -> Prop) vault k :
  P TypeError -> P InvalidCharacterError -> throws_only P (base64ToBuffer_prop vault k).
Proof.
  intros HT HI. unfold base64ToBuffer_prop. apply throws_only_bind.
  - now apply throws_only_get_prop.
  - intros x w e. unfold result, lift. cbn [fst]. intro E.
    now rewrite (base64ToBuffer_throws _ _ E).
Qed.

Lemma throws_only_deriveKey P password salt :
  throws_only P (HeraVault.deriveKey password salt).
Proof. intros w e E. discriminate E. Qed.

Lemma throws_only_exportKey P key : throws_only P (subtle_exportKey key).
Proof. intros w e E. discriminate E. Qed.

Lemma throws_only_digest P data : throws_only P (subtle_digest data).
Proof. intros w e E. discriminate E. Qed.

Lemma throws_only_decrypt (P : Exn -> Prop) iv key ciphertext :
  P OperationError -> throws_only P (subtle_decrypt iv key ciphertext).
Proof.
  intros HP w e. unfold subtle_decrypt, result, bind, record_call.
  destruct (AES_GCM_decrypt key iv ciphertext); cbn; [discriminate|].
  intro E. now injection E as <-.
Qed.

End WithHost.

(** An exception that carries the message INVALID_PASSWORD is the error
    the hash check throws. *)
Lemma message_INVALID_PASSWORD e :
  String.eqb (message e) "INVALID_PASSWORD" = true -> e = Error "INVALID_PASSWORD".
Proof.
  destruct e as [m| | | |]; cbn [message]; intro E;
    [apply String.eqb_eq in E; now subst | discriminate E ..].
Qed.

(** *** Calls of decrypt *)

Lemma no_decrypt_ret {A} (a : A) : no_decrypt (ret a).
Proof. intro w. reflexivity. Qed.

Lemma no_decrypt_throw {A} e : no_decrypt (@throw A e).
Proof. intro w. reflexivity. Qed.

Lemma no_decrypt_lift {A} (o : Outcome A) : no_decrypt (lift o).
Proof. intro w. reflexivity. Qed.

Lemma no_decrypt_bind {A B} (m : M A) (k : A -> M B) :
  no_decrypt m -> (forall a, no_decrypt (k a)) -> no_decrypt (bind m k).
Proof.
  intros Hm Hk w. specialize (Hm w). unfold world_after, bind in *.
  destruct (m w) as [[a|e] w1]; cbn [snd] in *.
  - rewrite <- Hm. apply (Hk a w1).
  - exact Hm.
Qed.

Lemma no_decrypt_record_call c : is_decrypt c = false -> no_decrypt (record_call c).
Proof.
  intros Hc w. unfold decrypts, world_after, record_call. cbn [snd subtle_log filter].
  now rewrite Hc.
Qed.

Section Decrypts.
Context `{Host}.

Lemma no_decrypt_JSON_parse text : no_decrypt (JSON_parse_ text).
Proof.
  unfold JSON_parse_. destruct (JSON_parse text);
    [apply no_decrypt_ret | apply no_decrypt_throw].
Qed.

Lemma no_decrypt_base64ToBuffer_prop vault k : no_decrypt (base64ToBuffer_prop vault k).
Proof.
  unfold base64ToBuffer_prop. apply no_decrypt_bind; [apply no_decrypt_lift|].
  intro x. apply no_decrypt_lift.
Qed.

Lemma no_decrypt_deriveKey password salt : no_decrypt (HeraVault.deriveKey password salt).
Proof. intro w. reflexivity. Qed.

Lemma no_decrypt_exportKey key : no_decrypt (subtle_exportKey key).
Proof. intro w. reflexivity. Qed.

Lemma no_decrypt_digest data : no_decrypt (subtle_digest data).
Proof. intro w. reflexivity. Qed.

End Decrypts.

Lemma before_bind {A B} e (m : M A) (k : A -> M B) :
  no_decrypt m -> (forall a, no_decrypt_before e (k a)) -> no_decrypt_before e (bind m k).
Proof.
  intros Hm Hk w. specialize (Hm w). unfold result, world_after, bind in *.
  destruct (m w) as [[a|e'] w1]; cbn [fst snd] in *.
  - intro E. rewrite <- Hm. now apply (Hk a w1).
  - intros _. exact Hm.
Qed.

Lemma before_throws_only {A} e (P : Exn -> Prop) (m : M A) :
  throws_only P m -> ~ P e -> no_decrypt_before e m.
Proof. intros Hm Hne w E. exfalso. apply Hne. now apply (Hm w). Qed.

Lemma getItem_bind {A} k (f : option string -> M A) w :
  bind (localStorage_getItem k) f w = f (localStorage w k) w.
Proof. reflexivity. Qed.

Lemma bind_ok {A B} (m : M A) (k : A -> M B) w b :
  fst (bind m k w) = Ok b ->
  exists a w1, m w = (Ok a, w1) /\ fst (k a w1) = Ok b.
Proof.
  unfold bind. destruct (m w) as [[a|e] w1]; cbn [fst]; [eauto | discriminate].
Qed.

(** The catch of the v96 page hands the error of the hash check on as
    it is. *)
Lemma before_rethrow {A} (body : M A) :
  no_decrypt_before (Error "INVALID_PASSWORD") body ->
  no_decrypt_before (Error "INVALID_PASSWORD")
    (try_catch body
       (fun e => if String.eqb (message e) "INVALID_PASSWORD" then throw e
                 else throw (Error "CORRUPT_VAULT"))).
Proof.
  intros Hbody w. specialize (Hbody w). unfold result, world_after, try_catch in *.
  destruct (body w) as [[a|e] w1]; cbn [fst snd] in *; [discriminate|].
  destruct (String.eqb (message e) "INVALID_PASSWORD"); cbn [throw fst snd].
  - exact Hbody.
  - discriminate.
Qed.

End ThrowFacts.

(** X13.  [HeraSecurity.unlock] fails in five ways and no other: with the
    SyntaxError of JSON.parse, the TypeError of reading a property of
    null, the InvalidCharacterError of atob, INVALID_CREDENTIALS or
    DECRYPTION_FAILED. *)
Theorem HeraSecurity_unlock_errors `{Host}
    (vaultStr password : string) (w : World) (e : Exn) :
  result (HeraSecurity.unlock vaultStr password) w = Throw e ->
  e = SyntaxError \/ e = TypeError \/ e = InvalidCharacterError
  \/ e = Error "INVALID_CREDENTIALS" \/ e = Error "DECRYPTION_FAILED".
Proof.
  revert w e.
  change (throws_only
            (fun e => e = SyntaxError \/ e = TypeError \/ e = InvalidCharacterError
                      \/ e = Error "INVALID_CREDENTIALS" \/ e = Error "DECRYPTION_FAILED")
            (HeraSecurity.unlock vaultStr password)).
  unfold HeraSecurity.unlock, HeraSecurity.deriveKey.
  apply ThrowFacts.throws_only_bind; [apply ThrowFacts.throws_only_JSON_parse; tauto|].
  intro vault.
  do 3 (apply ThrowFacts.throws_only_bind;
        [apply ThrowFacts.throws_only_base64ToBuffer_prop; tauto | intro]).
  apply ThrowFacts.throws_only_bind; [apply ThrowFacts.throws_only_deriveKey | intro].
  apply ThrowFacts.throws_only_bind; [apply ThrowFacts.throws_only_exportKey | intro].
  apply ThrowFacts.throws_only_bind; [apply ThrowFacts.throws_only_digest | intro].
  apply ThrowFacts.throws_only_bind; [apply ThrowFacts.throws_only_get_prop; tauto | intro].
  apply ThrowFacts.throws_only_bind.
  - apply ThrowFacts.throws_only_if;
      [apply ThrowFacts.throws_only_throw; tauto | apply ThrowFacts.throws_only_ret].
  - intros _. apply ThrowFacts.throws_only_try_catch. intro e.
    apply ThrowFacts.throws_only_throw. tauto.
Qed.

(** X14.  [HeraVault.unlock] of the v96 page throws INVALID_PASSWORD or
    CORRUPT_VAULT and nothing else: its catch lets only the error of the
    hash check through and renames every other failure. *)
Theorem HeraVault96_unlock_errors `{Host}
    (vaultStr password : string) (w : World) (e : Exn) :
  result (HeraVault96.unlock vaultStr password) w = Throw e ->
  e = Error "INVALID_PASSWORD" \/ e = Error "CORRUPT_VAULT".
Proof.
  revert w e.
  change (throws_only
            (fun e => e = Error "INVALID_PASSWORD" \/ e = Error "CORRUPT_VAULT")
            (HeraVault96.unlock vaultStr password)).
  unfold HeraVault96.unlock. apply ThrowFacts.throws_only_try_catch. intro e.
  destruct (String.eqb (message e) "INVALID_PASSWORD") eqn:E.
  - apply ThrowFacts.throws_only_throw. left.
    now apply ThrowFacts.message_INVALID_PASSWORD.
  - apply ThrowFacts.throws_only_throw. now right.
Qed.

(** What [HeraVault.unlock] answers over a slot that is not empty. *)
Lemma HeraVault_unlock_reads `{Host} stored password w :
  localStorage w "HERA_VAULT_CORE" = Some stored ->
  stored <> "" ->
  result (HeraVault.unlock password) w
  = match JSON_parse stored with
    | Some vault =>
        match base64ToBuffer (ToString_val (prop_of "salt" vault)),
              base64ToBuffer (ToString_val (prop_of "iv" vault)),
              base64ToBuffer (ToString_val (prop_of "data" vault)) with
        | Ok salt, Ok iv, Ok data => HeraVault_open salt iv data password
        | _, _, _ => Throw (Error "ACCESS_DENIED: Decryption Failed.")
        end
    | None => Throw (Error "ACCESS_DENIED: Decryption Failed.")
    end.
Proof.
  intros Hst Hne. apply String.eqb_neq in Hne.
  unfold HeraVault.unlock, result. rewrite ThrowFacts.getItem_bind, Hst.
  cbn [falsy_item]. unfold falsy. rewrite Hne. unfold JSON_parse_.
  destruct (JSON_parse stored) as [vault|]; [|reflexivity].
  destruct (base64ToBuffer (ToString_val (prop_of "salt" vault))) as [salt|e1] eqn:Es.
  2: { destruct vault; run_reads; cbn [get_prop prop_of] in *;
         try rewrite Es; reflexivity. }
  assert (Hv : vault <> JNull).
  { intros ->. cbn [prop_of] in Es. rewrite base64ToBuffer_undefined in Es.
    discriminate Es. }
  run_reads. rewrite !(get_prop_not_null _ _ Hv). rewrite Es.
  destruct (base64ToBuffer (ToString_val (prop_of "iv" vault))) as [iv|e2];
    [|reflexivity].
  destruct (base64ToBuffer (ToString_val (prop_of "data" vault))) as [data|e3];
    [|reflexivity].
  unfold HeraVault_open. run_vault. fold (derived_key password salt).
  destruct (AES_GCM_decrypt _ _ _) as [plaintext|]; [|reflexivity].
  destruct (JSON_parse (TextDecoder_decode plaintext)); reflexivity.
Qed.

(** X15.  What [HeraVault.unlock] of src/lib answers.  With nothing in the
    slot, or the empty string, it returns null at once and leaves the
    world as it is.  With anything else in the slot it returns a value
    exactly when the stored text parses, its salt, iv and data decode,
    AES-GCM opens the data under the key derived from the password and the
    salt, and the decrypted text parses: the value returned is the one
    JSON.parse built from the decrypted text.  In every other case it
    throws "ACCESS_DENIED: Decryption Failed.", the one error it has. *)
Theorem HeraVault_unlock_answers `{Host} (password : string) (w : World) :
  (falsy_item (localStorage w "HERA_VAULT_CORE") = true ->
   HeraVault.unlock password w = (Ok None, w))
  /\ (forall stored,
         localStorage w "HERA_VAULT_CORE" = Some stored ->
         stored <> "" ->
         (forall state,
             result (HeraVault.unlock password) w = Ok (Some state)
             <-> exists vault salt iv data plaintext,
                   JSON_parse stored = Some vault
                   /\ base64ToBuffer (ToString_val (prop_of "salt" vault)) = Ok salt
                   /\ base64ToBuffer (ToString_val (prop_of "iv" vault)) = Ok iv
                   /\ base64ToBuffer (ToString_val (prop_of "data" vault)) = Ok data
                   /\ AES_GCM_decrypt (derived_key password salt) iv data
                      = Some plaintext
                   /\ JSON_parse (TextDecoder_decode plaintext) = Some state)
         /\ ((exists state, result (HeraVault.unlock password) w = Ok (Some state))
             \/ result (HeraVault.unlock password) w
                = Throw (Error "ACCESS_DENIED: Decryption Failed."))).
Proof.
  split.
  - intro Hst. unfold HeraVault.unlock. run_vault. now rewrite Hst.
  - intros stored Hst Hne. rewrite (HeraVault_unlock_reads stored password w Hst Hne).
    unfold HeraVault_open.
    destruct (JSON_parse stored) as [vault|] eqn:Hp.
    2: { split; [|now right]. intro state. split; [discriminate|].
         intros (v & _ & _ & _ & _ & E & _). discriminate E. }
    destruct (base64ToBuffer (ToString_val (prop_of "salt" vault))) as [salt|e1] eqn:Es.
    2: { split; [|now right]. intro state. split; [discriminate|].
         intros (v & x & _ & _ & _ & E & Es' & _). injection E as <-.
         rewrite Es in Es'. discriminate Es'. }
    destruct (base64ToBuffer (ToString_val (prop_of "iv" vault))) as [iv|e2] eqn:Ei.
    2: { split; [|now right]. intro state. split; [discriminate|].
         intros (v & x & y & _ & _ & E & _ & Ei' & _). injection E as <-.
         rewrite Ei in Ei'. discriminate Ei'. }
    destruct (base64ToBuffer (ToString_val (prop_of "data" vault))) as [data|e3] eqn:Ed.
    2: { split; [|now right]. intro state. split; [discriminate|].
         intros (v & x & y & z & _ & E & _ & _ & Ed' & _). injection E as <-.
         rewrite Ed in Ed'. discriminate Ed'. }
    destruct (AES_GCM_decrypt (derived_key password salt) iv data)
      as [plaintext|] eqn:Edec.
    2: { split; [|now right]. intro state. split; [discriminate|].
         intros (v & x & y & z & t & E & Es' & Ei' & Ed' & Edec' & _).
         injection E as <-. rewrite Es in Es'. rewrite Ei in Ei'. rewrite Ed in Ed'.
         injection Es' as <-. injection Ei' as <-. injection Ed' as <-.
         rewrite Edec in Edec'. discriminate Edec'. }
    destruct (JSON_parse (TextDecoder_decode plaintext)) as [parsed|] eqn:Eparse.
    2: { split; [|now right]. intro state. split; [discriminate|].
         intros (v & x & y & z & t & E & Es' & Ei' & Ed' & Edec' & Eparse').
         injection E as <-. rewrite Es in Es'. rewrite Ei in Ei'. rewrite Ed in Ed'.
         injection Es' as <-. injection Ei' as <-. injection Ed' as <-.
         rewrite Edec in Edec'. injection Edec' as <-.
         rewrite Eparse in Eparse'. discriminate Eparse'. }
    split; [|left; now exists parsed]. intro state. split.
    + intro E. injection E as <-. now exists vault, salt, iv, data, plaintext.
    + intros (v & x & y & z & t & E & Es' & Ei' & Ed' & Edec' & Eparse').
      injection E as <-. rewrite Es in Es'. rewrite Ei in Ei'. rewrite Ed in Ed'.
      injection Es' as <-. injection Ei' as <-. injection Ed' as <-.
      rewrite Edec in Edec'. injection Edec' as <-.
      rewrite Eparse in Eparse'. now injection Eparse' as <-.
Qed.

(** X16.  A failed hash check stops the unlock before AES-GCM is tried:
    when [HeraSecurity.unlock] throws INVALID_CREDENTIALS, or
    [HeraVault.unlock] of the v96 page throws INVALID_PASSWORD,
    [crypto.subtle.decrypt] has not been called. *)
Theorem mismatch_stops_before_decrypt `{Host}
    (vaultStr password : string) (w : World) :
  (result (HeraSecurity.unlock vaultStr password) w = Throw (Error "INVALID_CREDENTIALS") ->
   decrypts (world_after (HeraSecurity.unlock vaultStr password) w) = decrypts w)
  /\ (result (HeraVault96.unlock vaultStr password) w = Throw (Error "INVALID_PASSWORD") ->
      decrypts (world_after (HeraVault96.unlock vaultStr password) w) = decrypts w).
Proof.
  split.
  - revert w.
    change (no_decrypt_before (Error "INVALID_CREDENTIALS")
                              (HeraSecurity.unlock vaultStr password)).
    unfold HeraSecurity.unlock, HeraSecurity.deriveKey.
    apply ThrowFacts.before_bind; [apply ThrowFacts.no_decrypt_JSON_parse | intro vault].
    do 3 (apply ThrowFacts.before_bind;
          [apply ThrowFacts.no_decrypt_base64ToBuffer_prop | intro]).
    apply ThrowFacts.before_bind; [apply ThrowFacts.no_decrypt_deriveKey | intro].
    apply ThrowFacts.before_bind; [apply ThrowFacts.no_decrypt_exportKey | intro].
    apply ThrowFacts.before_bind; [apply ThrowFacts.no_decrypt_digest | intro].
    apply ThrowFacts.before_bind; [apply ThrowFacts.no_decrypt_lift | intro].
    apply ThrowFacts.before_bind.
    + destruct (negb _); [apply ThrowFacts.no_decrypt_throw | apply ThrowFacts.no_decrypt_ret].
    + intros _.
      apply (ThrowFacts.before_throws_only _ (fun e => e = Error "DECRYPTION_FAILED")).
      * apply ThrowFacts.throws_only_try_catch. intro e.
        now apply ThrowFacts.throws_only_throw.
      * discriminate.
  - revert w.
    change (no_decrypt_before (Error "INVALID_PASSWORD")
                              (HeraVault96.unlock vaultStr password)).
    unfold HeraVault96.unlock, HeraVault96.deriveKey.
    apply ThrowFacts.before_rethrow.
    apply ThrowFacts.before_bind; [apply ThrowFacts.no_decrypt_JSON_parse | intro vault].
    do 3 (apply ThrowFacts.before_bind;
          [apply ThrowFacts.no_decrypt_base64ToBuffer_prop | intro]).
    apply ThrowFacts.before_bind; [apply ThrowFacts.no_decrypt_deriveKey | intro].
    apply ThrowFacts.before_bind; [apply ThrowFacts.no_decrypt_exportKey | intro].
    apply ThrowFacts.before_bind; [apply ThrowFacts.no_decrypt_digest | intro].
    apply ThrowFacts.before_bind; [apply ThrowFacts.no_decrypt_lift | intro].
    apply ThrowFacts.before_bind.
    + destruct (negb _); [apply ThrowFacts.no_decrypt_throw | apply ThrowFacts.no_decrypt_ret].
    + intros _.
      apply (ThrowFacts.before_throws_only
               _ (fun e => e = OperationError \/ e = SyntaxError)).
      * apply ThrowFacts.throws_only_bind.
        -- apply ThrowFacts.throws_only_decrypt. now left.
        -- intro. apply ThrowFacts.throws_only_JSON_parse. now right.
      * intros [E | E]; discriminate E.
Qed.

(** ** More on the vault classes *)

(** *** What leaves localStorage out of account *)
Module StorageFacts.

Lemma ignores_ret {A} (a : A) : ignores_storage (ret a).
Proof. intros w store. reflexivity. Qed.

Lemma ignores_throw {A} (e : Exn) : ignores_storage (@throw A e).
Proof. intros w store. reflexivity. Qed.

Lemma ignores_lift {A} (o : Outcome A) : ignores_storage (lift o).
Proof. intros w store. reflexivity. Qed.

Lemma ignores_bind {A B} (m : M A) (k : A -> M B) :
  ignores_storage m -> (forall a, ignores_storage (k a)) -> ignores_storage (bind m k).
Proof.
  intros Hm Hk w store. specialize (Hm w store).
  unfold result, world_after, bind in *. rewrite Hm.
  destruct (m w) as [[a|e] w1]; cbn [fst snd].
  - apply (Hk a w1 store).
  - reflexivity.
Qed.

Lemma ignores_try_catch {A} (m : M A) (h : Exn -> M A) :
  ignores_storage m -> (forall e, ignores_storage (h e)) ->
  ignores_storage (try_catch m h).
Proof.
  intros Hm Hh w store. specialize (Hm w store).
  unfold result, world_after, try_catch in *. rewrite Hm.
  destruct (m w) as [[a|e] w1]; cbn [fst snd].
  - reflexivity.
  - apply (Hh e w1 store).
Qed.

Lemma ignores_if {A} (b : bool) (m1 m2 : M A) :
  ignores_storage m1 -> ignores_storage m2 -> ignores_storage (if b then m1 else m2).
Proof. now destruct b. Qed.

Lemma ignores_getRandomValues n : ignores_storage (getRandomValues n).
Proof. intros w store. reflexivity. Qed.

Section WithHost.
Context `{Host}.

Lemma ignores_JSON_parse text : ignores_storage (JSON_parse_ text).
Proof.
  unfold JSON_parse_. destruct (JSON_parse text); [apply ignores_ret | apply ignores_throw].
Qed.

Lemma ignores_base64ToBuffer_prop vault k : ignores_storage (base64ToBuffer_prop vault k).
Proof.
  unfold base64ToBuffer_prop. apply ignores_bind; [apply ignores_lift|].
  intro x. apply ignores_lift.
Qed.

Lemma ignores_deriveKey password salt :
  ignores_storage (HeraVault.deriveKey password salt).
Proof. intros w store. reflexivity. Qed.

Lemma ignores_exportKey key : ignores_storage (subtle_exportKey key).
Proof. intros w store. reflexivity. Qed.

Lemma ignores_digest data : ignores_storage (subtle_digest data).
Proof. intros w store. reflexivity. Qed.

Lemma ignores_encrypt iv key plaintext :
  ignores_storage (subtle_encrypt iv key plaintext).
Proof. intros w store. reflexivity. Qed.

Lemma ignores_decrypt iv key ciphertext :
  ignores_storage (subtle_decrypt iv key ciphertext).
Proof.
  intros w store. unfold subtle_decrypt, result, world_after, bind, record_call.
  now destruct (AES_GCM_decrypt key iv ciphertext).
Qed.

End WithHost.

End StorageFacts.

(** X17.  The vault classes of the two pages never read or write
    localStorage, whatever they are given and however they end: over any
    other content of the store each call returns or throws the same,
    changes the rest of the world the same way, and leaves that content as
    it is.  Storing the artifact is left to the page. *)
Theorem page_vaults_leave_storage `{Host}
    (data : Types.AppState) (vaultStr password : string) :
  ignores_storage (HeraSecurity.lock data password)
  /\ ignores_storage (HeraSecurity.unlock vaultStr password)
  /\ ignores_storage (HeraVault96.lock data password)
  /\ ignores_storage (HeraVault96.unlock vaultStr password).
Proof.
  split; [|split; [|split]].
  - unfold HeraSecurity.lock, HeraSecurity.deriveKey.
    apply StorageFacts.ignores_if; [apply StorageFacts.ignores_throw|].
    do 2 (apply StorageFacts.ignores_bind;
          [apply StorageFacts.ignores_getRandomValues | intro]).
    apply StorageFacts.ignores_bind; [apply StorageFacts.ignores_deriveKey | intro].
    apply StorageFacts.ignores_bind; [apply StorageFacts.ignores_exportKey | intro].
    apply StorageFacts.ignores_bind; [apply StorageFacts.ignores_digest | intro].
    apply StorageFacts.ignores_bind; [apply StorageFacts.ignores_encrypt | intro].
    apply StorageFacts.ignores_ret.
  - unfold HeraSecurity.unlock, HeraSecurity.deriveKey.
    apply StorageFacts.ignores_bind; [apply StorageFacts.ignores_JSON_parse | intro].
    do 3 (apply StorageFacts.ignores_bind;
          [apply StorageFacts.ignores_base64ToBuffer_prop | intro]).
    apply StorageFacts.ignores_bind; [apply StorageFacts.ignores_deriveKey | intro].
    apply StorageFacts.ignores_bind; [apply StorageFacts.ignores_exportKey | intro].
    apply StorageFacts.ignores_bind; [apply StorageFacts.ignores_digest | intro].
    apply StorageFacts.ignores_bind; [apply StorageFacts.ignores_lift | intro].
    apply StorageFacts.ignores_bind.
    + apply StorageFacts.ignores_if;
        [apply StorageFacts.ignores_throw | apply StorageFacts.ignores_ret].
    + intros _. apply StorageFacts.ignores_try_catch;
        [|intro; apply StorageFacts.ignores_throw].
      apply StorageFacts.ignores_bind; [apply StorageFacts.ignores_decrypt | intro].
      apply StorageFacts.ignores_JSON_parse.
  - unfold HeraVault96.lock, HeraVault96.deriveKey.
    apply StorageFacts.ignores_if; [apply StorageFacts.ignores_throw|].
    do 2 (apply StorageFacts.ignores_bind;
          [apply StorageFacts.ignores_getRandomValues | intro]).
    apply StorageFacts.ignores_bind; [apply StorageFacts.ignores_deriveKey | intro].
    apply StorageFacts.ignores_bind; [apply StorageFacts.ignores_encrypt | intro].
    apply StorageFacts.ignores_bind; [apply StorageFacts.ignores_exportKey | intro].
    apply StorageFacts.ignores_bind; [apply StorageFacts.ignores_digest | intro].
    apply StorageFacts.ignores_ret.
  - unfold HeraVault96.unlock, HeraVault96.deriveKey.
    apply StorageFacts.ignores_try_catch.
    2: { intro e. apply StorageFacts.ignores_if; apply StorageFacts.ignores_throw. }
    apply StorageFacts.ignores_bind; [apply StorageFacts.ignores_JSON_parse | intro].
    do 3 (apply StorageFacts.ignores_bind;
          [apply StorageFacts.ignores_base64ToBuffer_prop | intro]).
    apply StorageFacts.ignores_bind; [apply StorageFacts.ignores_deriveKey | intro].
    apply StorageFacts.ignores_bind; [apply StorageFacts.ignores_exportKey | intro].
    apply StorageFacts.ignores_bind; [apply StorageFacts.ignores_digest | intro].
    apply StorageFacts.ignores_bind; [apply StorageFacts.ignores_lift | intro].
    apply StorageFacts.ignores_bind.
    + apply StorageFacts.ignores_if;
        [apply StorageFacts.ignores_throw | apply StorageFacts.ignores_ret].
    + intros _.
      apply StorageFacts.ignores_bind; [apply StorageFacts.ignores_decrypt | intro].
      apply StorageFacts.ignores_JSON_parse.
Qed.

(** X18.  [HeraVault.lock] of src/lib writes its one slot and no other key,
    replacing what the slot held, and each lock takes its salt and its
    nonce from a stretch of the random source that no earlier lock has
    read: after a lock that drew bytes 0 to 27 from where the source
    stood, the next draws bytes 28 to 43 for the salt and 44 to 55 for the
    nonce. *)
Theorem lock_replaces_slot_with_fresh_salt `{Host}
    (data1 data2 : Types.AppState) (password1 password2 : string) (w : World) :
  let w1 := world_after (HeraVault.lock data1 password1) w in
  let w2 := world_after (HeraVault.lock data2 password2) w1 in
  localStorage w2 "HERA_VAULT_CORE"
  = Some (JSON_stringify (HeraVault_artifact data2 password2 w1))
  /\ (forall k, k <> "HERA_VAULT_CORE" -> localStorage w2 k = localStorage w k)
  /\ fresh_salt w1 = map (entropy w) (seq (drawn w + 28) 16)
  /\ fresh_iv w1 = map (entropy w) (seq (drawn w + 44) 12).
Proof.
  intros w1 w2. subst w2 w1. unfold world_after. rewrite !HeraVault_lock_runs.
  cbn [snd]. split; [|split; [|split]].
  - reflexivity.
  - intros k Hk. apply String.eqb_neq in Hk. cbn [HeraVault_locked localStorage].
    now rewrite Hk.
  - unfold fresh_salt. cbn [HeraVault_locked drawn entropy VAULT_CONFIG saltLen ivLen].
    f_equal. f_equal. lia.
  - unfold fresh_iv. cbn [HeraVault_locked drawn entropy VAULT_CONFIG saltLen ivLen].
    f_equal. f_equal. lia.
Qed.

(** X19.  On the server, where there is no window, the guarded copy of
    HeraVault does nothing: [lock] returns without sealing or storing,
    [unlock] returns null, and [deriveKey] throws "Crypto unavailable on
    server"; the world is left as it is. *)
Theorem server_side_vault_is_inert `{Host}
    (data : Types.AppState) (password : string) (salt : bytes) (w : World) :
  has_window w = false ->
  HeraVaultSSR.lock data password w = (Ok tt, w)
  /\ HeraVaultSSR.unlock password w = (Ok None, w)
  /\ HeraVaultSSR.deriveKey password salt w
     = (Throw (Error "Crypto unavailable on server"), w).
Proof.
  intro Hw. split; [|split].
  - unfold HeraVaultSSR.lock. run_vault. now rewrite Hw.
  - unfold HeraVaultSSR.unlock. run_vault. now rewrite Hw.
  - unfold HeraVaultSSR.deriveKey. run_vault. now rewrite Hw.
Qed.

(** *** The guarded copy in the browser *)
Module BrowserFacts.

Lemma same_unchanged {A} (m : M A) :
  (forall w, has_window (world_after m w) = has_window w) -> same_in_browser m m.
Proof. intros Hm w Hw. split; [reflexivity | now rewrite Hm]. Qed.

Lemma same_bind {A B} (m1 m2 : M A) (k1 k2 : A -> M B) :
  same_in_browser m1 m2 -> (forall a, same_in_browser (k1 a) (k2 a)) ->
  same_in_browser (bind m1 k1) (bind m2 k2).
Proof.
  intros Hm Hk w Hw. destruct (Hm w Hw) as [E Hw1].
  unfold world_after, bind in *. rewrite E.
  destruct (m2 w) as [[a|e] w1]; cbn [snd] in *.
  - apply (Hk a w1 Hw1).
  - now split.
Qed.

Lemma same_try_catch {A} (m1 m2 : M A) (h1 h2 : Exn -> M A) :
  same_in_browser m1 m2 -> (forall e, same_in_browser (h1 e) (h2 e)) ->
  same_in_browser (try_catch m1 h1) (try_catch m2 h2).
Proof.
  intros Hm Hh w Hw. destruct (Hm w Hw) as [E Hw1].
  unfold world_after, try_catch in *. rewrite E.
  destruct (m2 w) as [[a|e] w1]; cbn [snd] in *.
  - now split.
  - apply (Hh e w1 Hw1).
Qed.

Lemma same_if {A} (b : bool) (m1 m2 n1 n2 : M A) :
  same_in_browser m1 n1 -> same_in_browser m2 n2 ->
  same_in_browser (if b then m1 else m2) (if b then n1 else n2).
Proof. now destruct b. Qed.

(** The guard [typeof window === 'undefined'] falls through. *)
Lemma same_guarded {A} (server m1 m2 : M A) :
  same_in_browser m1 m2 ->
  same_in_browser (bind window_is_undefined
                        (fun no_window => if no_window then server else m1)) m2.
Proof.
  intros Hm w Hw. unfold bind, window_is_undefined. rewrite Hw. cbn [negb].
  apply (Hm w Hw).
Qed.

Ltac unchanged := apply same_unchanged; intro; reflexivity.

Section WithHost.
Context `{Host}.

Lemma same_JSON_parse text : same_in_browser (JSON_parse_ text) (JSON_parse_ text).
Proof.
  apply same_unchanged. intro w. unfold JSON_parse_.
  now destruct (JSON_parse text).
Qed.

Lemma same_base64ToBuffer_prop vault k :
  same_in_browser (base64ToBuffer_prop vault k) (base64ToBuffer_prop vault k).
Proof.
  apply same_unchanged. intro w. unfold base64ToBuffer_prop. run_reads.
  unfold world_after. now destruct (get_prop vault k).
Qed.

Lemma same_decrypt iv key ciphertext :
  same_in_browser (subtle_decrypt iv key ciphertext) (subtle_decrypt iv key ciphertext).
Proof.
  apply same_unchanged. intro w. unfold subtle_decrypt, world_after, bind, record_call.
  now destruct (AES_GCM_decrypt key iv ciphertext).
Qed.

Lemma same_in_browser_deriveKey password salt :
  same_in_browser (HeraVaultSSR.deriveKey password salt)
                  (HeraVault.deriveKey password salt).
Proof.
  unfold HeraVaultSSR.deriveKey. apply same_guarded. unchanged.
Qed.

Lemma same_in_browser_lock data password :
  same_in_browser (HeraVaultSSR.lock data password) (HeraVault.lock data password).
Proof.
  unfold HeraVaultSSR.lock, HeraVault.lock. apply same_guarded.
  apply same_try_catch; [|intro; unchanged].
  apply same_bind; [unchanged | intro salt].
  apply same_bind; [unchanged | intro iv].
  apply same_bind; [apply same_in_browser_deriveKey | intro key].
  apply same_bind; [unchanged | intro ciphertext].
  apply same_bind; [unchanged | intro timestamp].
  unchanged.
Qed.

Lemma same_in_browser_unlock password :
  same_in_browser (HeraVaultSSR.unlock password) (HeraVault.unlock password).
Proof.
  unfold HeraVaultSSR.unlock, HeraVault.unlock. apply same_guarded.
  apply same_bind; [unchanged | intro stored].
  apply same_if; [unchanged|].
  apply same_try_catch; [|intro; unchanged].
  apply same_bind; [apply same_JSON_parse | intro vault].
  do 3 (apply same_bind; [apply same_base64ToBuffer_prop | intro]).
  apply same_bind; [apply same_in_browser_deriveKey | intro key].
  apply same_bind; [apply same_decrypt | intro decrypted].
  apply same_bind; [apply same_JSON_parse | intro state].
  unchanged.
Qed.

Lemma same_lock data password w :
  has_window w = true ->
  HeraVaultSSR.lock data password w = HeraVault.lock data password w.
Proof. intro Hw. apply (same_in_browser_lock data password w Hw). Qed.

Lemma same_unlock password w :
  has_window w = true -> HeraVaultSSR.unlock password w = HeraVault.unlock password w.
Proof. intro Hw. apply (same_in_browser_unlock password w Hw). Qed.

Lemma same_deriveKey password salt w :
  has_window w = true ->
  HeraVaultSSR.deriveKey password salt w = HeraVault.deriveKey password salt w.
Proof. intro Hw. apply (same_in_browser_deriveKey password salt w Hw). Qed.

End WithHost.

End BrowserFacts.

(** X20.  In the browser the guarded copy of HeraVault behaves as HeraVault
    of src/lib does: the same outcome and the same world, for [lock],
    [unlock] and [deriveKey]. *)
Theorem browser_side_vault_agrees `{Host}
    (data : Types.AppState) (password : string) (salt : bytes) (w : World) :
  has_window w = true ->
  HeraVaultSSR.lock data password w = HeraVault.lock data password w
  /\ HeraVaultSSR.unlock password w = HeraVault.unlock password w
  /\ HeraVaultSSR.deriveKey password salt w = HeraVault.deriveKey password salt w.
Proof.
  intro Hw. split; [|split].
  - apply (BrowserFacts.same_lock data password w Hw).
  - apply (BrowserFacts.same_unlock password w Hw).
  - apply (BrowserFacts.same_deriveKey password salt w Hw).
Qed.

(** X21.  HeraSecurity and the v96 page trust the stored hash alone to tell
    a wrong password.  Put anything else in the [authHash] of an artifact
    and the right password is refused with INVALID_CREDENTIALS
    (INVALID_PASSWORD in the v96 page), although the ciphertext is
    intact. *)
Theorem altered_hash_reads_as_wrong_password `{Faithful}
    (data : Types.AppState) (password : string) (w : World) (hash : json) :
  hash <> JStr (bufferToBase64 (verifier password (fresh_salt w))) ->
  let altered := set_prop "authHash" hash in
  (forall w',
      result (HeraSecurity.unlock
                (JSON_stringify (altered (HeraSecurity_artifact data password w)))
                password) w'
      = Throw (Error "INVALID_CREDENTIALS"))
  /\ (forall w',
         result (HeraVault96.unlock
                   (JSON_stringify (altered (HeraVault96_artifact data password w)))
                   password) w'
         = Throw (Error "INVALID_PASSWORD")).
Proof.
  intros Hhash altered. subst altered.
  assert (Hne : strict_eq_string (bufferToBase64 (verifier password (fresh_salt w)))
                                 (Some hash) = false).
  { destruct hash as [|b|n|s|items|fields]; cbn [strict_eq_string]; try reflexivity.
    apply String.eqb_neq. congruence. }
  split; intro w'.
  - unfold HeraSecurity_artifact, HeraSecurity.vaultArtifact.
    cbn [set_prop set_assoc String.eqb Ascii.eqb Bool.eqb].
    erewrite HeraSecurity_unlock_object by reflexivity.
    unfold HeraSecurity_open. cbn [assoc String.eqb Ascii.eqb Bool.eqb].
    now rewrite Hne.
  - unfold HeraVault96_artifact, HeraVault96.vaultArtifact.
    cbn [set_prop set_assoc String.eqb Ascii.eqb Bool.eqb].
    erewrite HeraVault96_unlock_object by reflexivity.
    unfold HeraVault96_open. cbn [assoc String.eqb Ascii.eqb Bool.eqb].
    now rewrite Hne.
Qed.

(** X22.  [HeraSecurity.lock] refuses exactly the passwords that consist of
    white space only, the empty one among them, and it refuses them before
    it does anything else; [HeraVault.lock] of the v96 page refuses the
    empty password alone, so a password of spaces seals there. *)
Theorem lock_guards_compared `{Host}
    (data : Types.AppState) (password : string) (w : World) :
  (forallb is_js_whitespace (list_ascii_of_string password) = true ->
   HeraSecurity.lock data password w = (Throw (Error "Invalid Password"), w))
  /\ (forallb is_js_whitespace (list_ascii_of_string password) = false ->
      result (HeraSecurity.lock data password) w
      = Ok (JSON_stringify (HeraSecurity_artifact data password w)))
  /\ (password <> "" ->
      result (HeraVault96.lock data password) w
      = Ok (JSON_stringify (HeraVault96_artifact data password w))).
Proof.
  split; [|split].
  - intro Hall. apply (proj2 (blank_spec password)) in Hall. unfold blank in Hall.
    unfold HeraSecurity.lock. now rewrite Hall.
  - intro Hsome. apply HeraSecurity_lock_accepts.
    destruct (blank password) eqn:E; [|reflexivity].
    apply (proj1 (blank_spec password)) in E. rewrite E in Hsome. discriminate Hsome.
  - intro Hne. now apply HeraVault96_lock_accepts, nonempty_not_falsy.
Qed.

(** X23.  The artifacts of the two pages are interchangeable, and both open
    in src/lib: what the v96 page sealed opens in HeraSecurity with the
    same password and the other way round, and either opens in HeraVault
    of src/lib when it is put in the slot.  The artifact of src/lib, which
    carries no hash, does not open in HeraSecurity: the right password is
    refused with INVALID_CREDENTIALS. *)
Theorem artifacts_across_versions `{Faithful}
    (data : Types.AppState) (password : string) (w : World) (vaultStr : string) :
  (result (HeraVault96.lock data password) w = Ok vaultStr ->
   (forall w', result (HeraSecurity.unlock vaultStr password) w'
               = Ok (Types.AppState_toJSON data))
   /\ (forall w', localStorage w' "HERA_VAULT_CORE" = Some vaultStr ->
                  result (HeraVault.unlock password) w'
                  = Ok (Some (Types.AppState_toJSON data))))
  /\ (result (HeraSecurity.lock data password) w = Ok vaultStr ->
      (forall w', result (HeraVault96.unlock vaultStr password) w'
                  = Ok (Types.AppState_toJSON data))
      /\ (forall w', localStorage w' "HERA_VAULT_CORE" = Some vaultStr ->
                     result (HeraVault.unlock password) w'
                     = Ok (Some (Types.AppState_toJSON data))))
  /\ (forall w',
         result (HeraSecurity.unlock
                   (JSON_stringify (HeraVault_artifact data password w)) password) w'
         = Throw (Error "INVALID_CREDENTIALS")).
Proof.
  split; [|split].
  - intro Hlock.
    assert (Hpw : falsy password = false).
    { destruct (falsy password) eqn:E; [|reflexivity].
      unfold HeraVault96.lock, result in Hlock. rewrite E in Hlock. discriminate Hlock. }
    rewrite (HeraVault96_lock_accepts _ _ _ Hpw) in Hlock. injection Hlock as <-.
    unfold HeraVault96_artifact, HeraVault96.vaultArtifact. split.
    + intro w'. erewrite HeraSecurity_unlock_object by reflexivity.
      cbn [assoc String.eqb Ascii.eqb Bool.eqb]. apply HeraSecurity_open_sealed.
    + intros w' Hst. erewrite HeraVault_unlock_object by (try exact Hst; reflexivity).
      apply HeraVault_open_sealed.
  - intro Hlock.
    assert (Hpw : blank password = false).
    { destruct (blank password) eqn:E; [|reflexivity].
      unfold HeraSecurity.lock, result in Hlock. unfold blank in E.
      rewrite E in Hlock. discriminate Hlock. }
    rewrite (HeraSecurity_lock_accepts _ _ _ Hpw) in Hlock. injection Hlock as <-.
    unfold HeraSecurity_artifact, HeraSecurity.vaultArtifact. split.
    + intro w'. erewrite HeraVault96_unlock_object by reflexivity.
      cbn [assoc String.eqb Ascii.eqb Bool.eqb]. apply HeraVault96_open_sealed.
    + intros w' Hst. erewrite HeraVault_unlock_object by (try exact Hst; reflexivity).
      apply HeraVault_open_sealed.
  - intro w'. unfold HeraVault_artifact, HeraVault.vaultArtifact.
    erewrite HeraSecurity_unlock_object by reflexivity.
    unfold HeraSecurity_open. reflexivity.
Qed.

(** ** The claims on the host with the browser's key derivation *)
Section OnKdfHost.
#[local] Existing Instance KdfHost.host.
#[local] Existing Instance KdfFacts.faithful.

(** C2 as stated fails: two passwords that differ and derive the same
    key.  HMAC replaces a key longer than 64 bytes by its SHA-256 hash, so
    the password of 77 characters and the 32 characters of its hash derive
    one key under every salt, and what [HeraSecurity.lock] sealed with the
    first, [HeraSecurity.unlock] opens with the second.  HMAC also fills a
    shorter key with zero bytes, so "sesame123" and "sesame123" followed by
    the character U+0000 derive one key, and what [HeraVault.lock] of
    src/lib stored under the first, [HeraVault.unlock] returns to the
    second. *)
Lemma same_key_opens :
  KdfHost.long_password <> KdfHost.hashed_password
  /\ KdfHost.ascii_only KdfHost.long_password = true
  /\ KdfHost.ascii_only KdfHost.hashed_password = true
  /\ (forall salt,
         derived_key KdfHost.hashed_password salt
         = derived_key KdfHost.long_password salt)
  /\ result (HeraSecurity.lock SimpleHost.state0 KdfHost.long_password)
            SimpleHost.world0
     = Ok (JSON_stringify
             (HeraSecurity_artifact SimpleHost.state0 KdfHost.long_password
                                    SimpleHost.world0))
  /\ (forall w',
         result (HeraSecurity.unlock
                   (JSON_stringify
                      (HeraSecurity_artifact SimpleHost.state0 KdfHost.long_password
                                             SimpleHost.world0))
                   KdfHost.hashed_password) w'
         = Ok (Types.AppState_toJSON SimpleHost.state0))
  /\ KdfHost.short_password <> KdfHost.padded_password
  /\ result (HeraVault.unlock KdfHost.padded_password)
            (world_after (HeraVault.lock SimpleHost.state0 KdfHost.short_password)
                         SimpleHost.world0)
     = Ok (Some (Types.AppState_toJSON SimpleHost.state0)).
Proof.
  assert (Hlong : forall salt,
             derived_key KdfHost.hashed_password salt
             = derived_key KdfHost.long_password salt).
  { intro salt. apply KdfFacts.derived_key_same_block, KdfFacts.long_password_block. }
  assert (Hshort : forall salt,
             derived_key KdfHost.padded_password salt
             = derived_key KdfHost.short_password salt).
  { intro salt. apply KdfFacts.derived_key_same_block, KdfFacts.padded_password_block. }
  split; [|split; [|split; [|split; [|split; [|split; [|split]]]]]].
  - intro E. apply (f_equal String.length) in E. vm_compute in E. discriminate E.
  - vm_compute. reflexivity.
  - vm_compute. reflexivity.
  - exact Hlong.
  - apply HeraSecurity_lock_accepts. vm_compute. reflexivity.
  - intro w'. apply HeraSecurity_same_key_opens, Hlong.
  - intro E. apply (f_equal String.length) in E. vm_compute in E. discriminate E.
  - apply HeraVault_same_key_opens, Hshort.
Qed.

End OnKdfHost.

(** ** The claims on the executable host *)

#[local] Existing Instance SimpleHost.host.
#[local] Existing Instance SimpleHostFacts.faithful.

(** C1 as stated fails: the password of one space is not empty, and
    [HeraSecurity.lock] refuses it, so there is no artifact to open. *)
Lemma blank_password_refused :
  " " <> ""
  /\ HeraSecurity.lock SimpleHost.state0 " " SimpleHost.world0
     = (Throw (Error "Invalid Password"), SimpleHost.world0).
Proof. split; [discriminate | reflexivity]. Qed.

(** The round trip of the default journal under "sesame123". *)
Lemma lock_unlock_roundtrip_witness :
  blank "sesame123" = false
  /\ exists vaultStr,
       result (HeraSecurity.lock SimpleHost.state0 "sesame123") SimpleHost.world0
       = Ok vaultStr
       /\ forall w', result (HeraSecurity.unlock vaultStr "sesame123") w'
                     = Ok (Types.AppState_toJSON SimpleHost.state0).
Proof.
  split; [reflexivity|].
  exact (proj1 (lock_unlock_roundtrip SimpleHost.state0 "sesame123" SimpleHost.world0)
               eq_refl).
Defined.

(** "wrong" does not open what "sesame123" sealed. *)
Lemma wrong_password_rejected_witness :
  result (HeraSecurity.lock SimpleHost.state0 "sesame123") SimpleHost.world0
  = Ok (JSON_stringify
          (HeraSecurity_artifact SimpleHost.state0 "sesame123" SimpleHost.world0))
  /\ tells_apart (fresh_salt SimpleHost.world0) "sesame123" "wrong"
  /\ (forall w',
         result (HeraSecurity.unlock
                   (JSON_stringify
                      (HeraSecurity_artifact SimpleHost.state0 "sesame123"
                                             SimpleHost.world0)) "wrong") w'
         = Throw (Error "INVALID_CREDENTIALS"))
  /\ result (HeraVault96.lock SimpleHost.state0 "sesame123") SimpleHost.world0
     = Ok (JSON_stringify
             (HeraVault96_artifact SimpleHost.state0 "sesame123" SimpleHost.world0))
  /\ (forall w',
         result (HeraVault96.unlock
                   (JSON_stringify
                      (HeraVault96_artifact SimpleHost.state0 "sesame123"
                                            SimpleHost.world0)) "wrong") w'
         = Throw (Error "INVALID_PASSWORD"))
  /\ refuses (derived_key "wrong" (fresh_salt SimpleHost.world0))
             (fresh_iv SimpleHost.world0)
             (sealed SimpleHost.state0 "sesame123" SimpleHost.world0)
  /\ result (HeraVault.unlock "wrong")
            (world_after (HeraVault.lock SimpleHost.state0 "sesame123") SimpleHost.world0)
     = Throw (Error "ACCESS_DENIED: Decryption Failed.").
Proof.
  assert (Hlock96 :
    result (HeraVault96.lock SimpleHost.state0 "sesame123") SimpleHost.world0
    = Ok (JSON_stringify
            (HeraVault96_artifact SimpleHost.state0 "sesame123" SimpleHost.world0)))
    by (apply HeraVault96_lock_accepts; reflexivity).
  assert (Hlock :
    result (HeraSecurity.lock SimpleHost.state0 "sesame123") SimpleHost.world0
    = Ok (JSON_stringify
            (HeraSecurity_artifact SimpleHost.state0 "sesame123" SimpleHost.world0)))
    by (apply HeraSecurity_lock_accepts; reflexivity).
  assert (Hapart : tells_apart (fresh_salt SimpleHost.world0) "sesame123" "wrong")
    by (unfold tells_apart; vm_compute; discriminate).
  assert (Hrefuses : refuses (derived_key "wrong" (fresh_salt SimpleHost.world0))
                             (fresh_iv SimpleHost.world0)
                             (sealed SimpleHost.state0 "sesame123" SimpleHost.world0))
    by (vm_compute; reflexivity).
  split; [exact Hlock|]. split; [exact Hapart|].
  split; [exact (proj1 (proj1 (wrong_password_rejected SimpleHost.state0 "sesame123"
                                 "wrong" _ SimpleHost.world0) Hlock) Hapart)|].
  split; [exact Hlock96|].
  split; [exact (proj1 (proj1 (proj2 (wrong_password_rejected SimpleHost.state0
                                        "sesame123" "wrong" _ SimpleHost.world0))
                              Hlock96) Hapart)|].
  split; [exact Hrefuses|].
  exact (proj1 (proj2 (proj2 (wrong_password_rejected SimpleHost.state0 "sesame123"
                                "wrong" "" SimpleHost.world0))) Hrefuses).
Defined.



(** C5 as stated fails: this artifact declares the version "vX-future",
    which no vault writes, and [HeraSecurity.unlock] opens it. *)
Lemma future_version_opens :
  match JSON_parse SimpleHost.future_artifact with
  | Some vault => get_prop vault "version" = Ok (Some (JStr "vX-future"))
  | None => False
  end
  /\ result (HeraSecurity.unlock SimpleHost.future_artifact "sesame123")
            SimpleHost.world0
     = Ok (Types.AppState_toJSON SimpleHost.state0).
Proof. split; vm_compute; reflexivity. Qed.

(** The same artifact under the version "vX-future". *)
Lemma version_not_inspected_witness :
  result (HeraVault96.lock SimpleHost.state0 "sesame123") SimpleHost.world0
  = Ok (JSON_stringify
          (HeraVault96_artifact SimpleHost.state0 "sesame123" SimpleHost.world0))
  /\ (forall w',
         result (HeraVault96.unlock
                   (JSON_stringify
                      (set_prop "version" (JStr "vX-future")
                         (HeraVault96_artifact SimpleHost.state0 "sesame123"
                                               SimpleHost.world0)))
                   "sesame123") w'
         = Ok (Types.AppState_toJSON SimpleHost.state0))
  /\ result (HeraSecurity.lock SimpleHost.state0 "sesame123") SimpleHost.world0
     = Ok (JSON_stringify
             (HeraSecurity_artifact SimpleHost.state0 "sesame123" SimpleHost.world0))
  /\ (forall w',
         result (HeraSecurity.unlock
                   (JSON_stringify
                      (set_prop "version" (JNum (QArith_base.Qmake 7 1))
                         (HeraSecurity_artifact SimpleHost.state0 "sesame123"
                                                SimpleHost.world0)))
                   "sesame123") w'
         = Ok (Types.AppState_toJSON SimpleHost.state0))
  /\ result (HeraVault.unlock "sesame123")
            (with_storage
               (fun _ =>
                  Some (JSON_stringify
                          (set_prop "version" (JStr "vX-future")
                             (HeraVault_artifact SimpleHost.state0 "sesame123"
                                                 SimpleHost.world0))))
               SimpleHost.world0)
     = Ok (Some (Types.AppState_toJSON SimpleHost.state0)).
Proof.
  assert (Hlock98 :
    result (HeraSecurity.lock SimpleHost.state0 "sesame123") SimpleHost.world0
    = Ok (JSON_stringify
            (HeraSecurity_artifact SimpleHost.state0 "sesame123" SimpleHost.world0)))
    by (apply HeraSecurity_lock_accepts; reflexivity).
  assert (Hlock :
    result (HeraVault96.lock SimpleHost.state0 "sesame123") SimpleHost.world0
    = Ok (JSON_stringify
            (HeraVault96_artifact SimpleHost.state0 "sesame123" SimpleHost.world0)))
    by (apply HeraVault96_lock_accepts; reflexivity).
  split; [exact Hlock|].
  split; [exact (proj2 (proj1 (proj2 (version_not_inspected SimpleHost.state0
                                        "sesame123" _ (JStr "vX-future")
                                        SimpleHost.world0)) Hlock))|].
  split; [exact Hlock98|].
  split; [exact (proj2 (proj1 (version_not_inspected SimpleHost.state0 "sesame123" _
                                 (JNum (QArith_base.Qmake 7 1)) SimpleHost.world0)
                              Hlock98))|].
  refine (proj2 (proj2 (proj2 (version_not_inspected SimpleHost.state0 "sesame123" ""
                                 (JStr "vX-future") SimpleHost.world0)))
                _ _).
  reflexivity.
Defined.



(** A journal with one logged day: "wrong" is refused, then "sesame123"
    opens it, in HeraSecurity and in HeraVault of src/lib. *)
Lemma failed_open_leaves_artifact_witness :
  result (HeraSecurity.lock SimpleHost.state1 "sesame123") SimpleHost.world0
  = Ok (JSON_stringify
          (HeraSecurity_artifact SimpleHost.state1 "sesame123" SimpleHost.world0))
  /\ tells_apart (fresh_salt SimpleHost.world0) "sesame123" "wrong"
  /\ result (HeraSecurity.unlock
               (JSON_stringify
                  (HeraSecurity_artifact SimpleHost.state1 "sesame123"
                                         SimpleHost.world0)) "wrong")
            SimpleHost.world0
     = Throw (Error "INVALID_CREDENTIALS")
  /\ result (HeraSecurity.unlock
               (JSON_stringify
                  (HeraSecurity_artifact SimpleHost.state1 "sesame123"
                                         SimpleHost.world0)) "sesame123")
            (world_after
               (HeraSecurity.unlock
                  (JSON_stringify
                     (HeraSecurity_artifact SimpleHost.state1 "sesame123"
                                            SimpleHost.world0)) "wrong")
               SimpleHost.world0)
     = Ok (Types.AppState_toJSON SimpleHost.state1)
  /\ refuses (derived_key "wrong" (fresh_salt SimpleHost.world0))
             (fresh_iv SimpleHost.world0)
             (sealed SimpleHost.state1 "sesame123" SimpleHost.world0)
  /\ result (HeraVault.unlock "wrong")
            (world_after (HeraVault.lock SimpleHost.state1 "sesame123")
                         SimpleHost.world0)
     = Throw (Error "ACCESS_DENIED: Decryption Failed.")
  /\ result (HeraVault.unlock "sesame123")
            (world_after (HeraVault.unlock "wrong")
               (world_after (HeraVault.lock SimpleHost.state1 "sesame123")
                            SimpleHost.world0))
     = Ok (Some (Types.AppState_toJSON SimpleHost.state1)).
Proof.
  assert (Hlock :
    result (HeraSecurity.lock SimpleHost.state1 "sesame123") SimpleHost.world0
    = Ok (JSON_stringify
            (HeraSecurity_artifact SimpleHost.state1 "sesame123" SimpleHost.world0)))
    by (apply HeraSecurity_lock_accepts; reflexivity).
  assert (Hapart : tells_apart (fresh_salt SimpleHost.world0) "sesame123" "wrong")
    by (unfold tells_apart; vm_compute; discriminate).
  assert (Hrefuses : refuses (derived_key "wrong" (fresh_salt SimpleHost.world0))
                             (fresh_iv SimpleHost.world0)
                             (sealed SimpleHost.state1 "sesame123" SimpleHost.world0))
    by (vm_compute; reflexivity).
  pose proof (proj1 (failed_open_leaves_artifact SimpleHost.state1 "sesame123" "wrong"
                       _ SimpleHost.world0 SimpleHost.world0) Hlock)
    as [Hfails [_ Hopens]].
  pose proof (proj2 (failed_open_leaves_artifact SimpleHost.state1 "sesame123" "wrong"
                       "" SimpleHost.world0 SimpleHost.world0))
    as [Hdenied [_ Hreturns]].
  split; [exact Hlock|]. split; [exact Hapart|].
  split; [exact (proj2 Hfails Hapart)|]. split; [exact Hopens|].
  split; [exact Hrefuses|]. split; [exact (Hdenied Hrefuses) | exact Hreturns].
Defined.

(** The empty store. *)
Lemma unlock_without_artifact_witness :
  localStorage SimpleHost.world0 "HERA_VAULT_CORE" = None
  /\ HeraVault.unlock "sesame123" SimpleHost.world0 = (Ok None, SimpleHost.world0).
Proof.
  split; [reflexivity|].
  exact (proj1 (unlock_without_artifact "sesame123" SimpleHost.world0 eq_refl)).
Defined.

(** Logging 2024-01-05 twice keeps one entry. *)
Lemma update_cycle_day_upsert_witness :
  In (Types.date SimpleHost.day1_again)
     (map Types.date (Types.cycleData SimpleHost.state1))
  /\ List.length
       (Types.cycleData
          (Store.appReducer (QArith_base.Qmake 0 1) (QArith_base.Qmake 0 1)
                            SimpleHost.state1
                            (Store.UPDATE_CYCLE_DAY SimpleHost.day1_again)))
     = List.length (Types.cycleData SimpleHost.state1).
Proof.
  assert (Hin : In (Types.date SimpleHost.day1_again)
                   (map Types.date (Types.cycleData SimpleHost.state1)))
    by (simpl; left; reflexivity).
  split; [exact Hin|].
  exact (proj1 (proj1 (update_cycle_day_upsert (QArith_base.Qmake 0 1)
                         (QArith_base.Qmake 0 1) SimpleHost.state1
                         SimpleHost.day1_again) Hin)).
Defined.

(** ** More of the code on the executable host *)

(** 2024-01-05 logged, then logged again. *)
Lemma update_same_date_twice_witness :
  Types.date SimpleHost.day1 = Types.date SimpleHost.day1_again
  /\ Store.appReducer (QArith_base.Qmake 0 1) (QArith_base.Qmake 2 1)
       (Store.appReducer (QArith_base.Qmake 0 1) (QArith_base.Qmake 1 1)
                         SimpleHost.state0 (Store.UPDATE_CYCLE_DAY SimpleHost.day1))
       (Store.UPDATE_CYCLE_DAY SimpleHost.day1_again)
     = Store.appReducer (QArith_base.Qmake 0 1) (QArith_base.Qmake 2 1)
                        SimpleHost.state0 (Store.UPDATE_CYCLE_DAY SimpleHost.day1_again).
Proof.
  split; [reflexivity|].
  exact (update_same_date_twice (QArith_base.Qmake 0 1) (QArith_base.Qmake 1 1)
           (QArith_base.Qmake 2 1) SimpleHost.state0 SimpleHost.day1
           SimpleHost.day1_again eq_refl).
Defined.

(** A journal is loaded, its day is logged again, and the state is saved. *)
Lemma reducer_keeps_dates_unique_witness :
  dates_unique SimpleHost.state0
  /\ dates_unique SimpleHost.state1
  /\ dates_unique
       (reduce_all (QArith_base.Qmake 0 1) SimpleHost.state0
          [ (QArith_base.Qmake 1 1, Store.LOAD_STATE SimpleHost.state1);
            (QArith_base.Qmake 2 1, Store.UPDATE_CYCLE_DAY SimpleHost.day1_again);
            (QArith_base.Qmake 3 1, Store.MARK_SAVED) ]).
Proof.
  assert (H0 : dates_unique SimpleHost.state0) by constructor.
  assert (H1 : dates_unique SimpleHost.state1)
    by (constructor; [simpl; tauto | constructor]).
  split; [exact H0|]. split; [exact H1|].
  apply (reducer_keeps_dates_unique (QArith_base.Qmake 0 1) SimpleHost.state0 _ H0).
  intros t payload [E | [E | [E | []]]]; inversion E. exact H1.
Defined.

(** Logging the mucus alone on a day without an entry. *)
Lemma updateDay_fills_defaults_witness :
  Layout.find_day "2024-01-05"
    (Types.cycleData (Layout.state (Visit.page0 "sesame123"))) = None
  /\ exists entry,
       Layout.find_day "2024-01-05"
         (Types.cycleData
            (Layout.state
               (Layout.updateDay (QArith_base.Qmake 0 1) (QArith_base.Qmake 1 1)
                                 Visit.mucus_only (Visit.page0 "sesame123"))))
       = Some entry
       /\ Types.temperature entry = Some (QArith_base.Qmake 73 2)
       /\ List.length
            (Types.cycleData
               (Layout.state
                  (Layout.updateDay (QArith_base.Qmake 0 1) (QArith_base.Qmake 1 1)
                                    Visit.mucus_only (Visit.page0 "sesame123"))))
          = S (List.length (Types.cycleData (Layout.state (Visit.page0 "sesame123")))).
Proof.
  split; [reflexivity|].
  exact (updateDay_fills_defaults (QArith_base.Qmake 0 1) (QArith_base.Qmake 1 1)
           Visit.mucus_only (Visit.page0 "sesame123") eq_refl eq_refl eq_refl).
Defined.

(** The first visit under "sesame123". *)
Lemma first_open_then_reopen_witness :
  falsy_item (localStorage SimpleHost.world0 "HERA_VAULT_CORE") = true
  /\ Layout.handleUnlock (QArith_base.Qmake 0 1) (Visit.page0 "sesame123")
                         SimpleHost.world0
     = (Ok tt,
        Layout.well_typed
          (entered (Store.DEFAULT_STATE (QArith_base.Qmake 0 1))
                   (Visit.page0 "sesame123")),
        HeraVault_locked (Store.DEFAULT_STATE (QArith_base.Qmake 0 1))
                         "sesame123" SimpleHost.world0).
Proof.
  split; [reflexivity|].
  exact (proj1 (first_open_then_reopen (QArith_base.Qmake 0 1)
                  (Visit.page0 "sesame123") SimpleHost.world0 eq_refl)).
Defined.

(** Saving the logged day under "sesame123". *)
Lemma save_then_reopen_witness :
  Layout.activePassword Visit.page1 = Some "sesame123"
  /\ "sesame123" <> ""
  /\ Layout.handleSave (QArith_base.Qmake 0 1) Visit.page1 SimpleHost.world0
     = (Ok tt,
        Layout.setTimeout Layout.idle 2000
          (Layout.setSaveState Layout.saved
             (Layout.set_state
                (Types.mkAppState (Types.profile SimpleHost.state1)
                                  (Types.cycleData SimpleHost.state1)
                                  (now SimpleHost.world0) false)
                Visit.page1)),
        HeraVault_locked SimpleHost.state1 "sesame123" SimpleHost.world0).
Proof.
  assert (Hne : "sesame123" <> "") by discriminate.
  split; [reflexivity|]. split; [exact Hne|].
  exact (proj1 (save_then_reopen (QArith_base.Qmake 0 1) Visit.page1 "sesame123"
                  SimpleHost.world0 eq_refl Hne)).
Defined.

(** "wrong" typed over the vault that "sesame123" sealed. *)
Lemma wrong_key_keeps_session_witness :
  refuses (derived_key "wrong" (fresh_salt SimpleHost.world0))
          (fresh_iv SimpleHost.world0)
          (sealed SimpleHost.state1 "sesame123" SimpleHost.world0)
  /\ exists w',
       Layout.handleUnlock (QArith_base.Qmake 0 1) (Visit.page0 "wrong")
         (HeraVault_locked SimpleHost.state1 "sesame123" SimpleHost.world0)
       = (Ok tt,
          Layout.well_typed
            (Layout.alert "Sanctuary Locked: Incorrect Key" (Visit.page0 "wrong")),
          w')
       /\ localStorage w'
          = localStorage
              (HeraVault_locked SimpleHost.state1 "sesame123" SimpleHost.world0).
Proof.
  assert (Hrefuses : refuses (derived_key "wrong" (fresh_salt SimpleHost.world0))
                             (fresh_iv SimpleHost.world0)
                             (sealed SimpleHost.state1 "sesame123" SimpleHost.world0))
    by (vm_compute; reflexivity).
  split; [exact Hrefuses|].
  exact (wrong_key_keeps_session (QArith_base.Qmake 0 1) (Visit.page0 "wrong")
           SimpleHost.state1 "sesame123" SimpleHost.world0
           (HeraVault_locked SimpleHost.state1 "sesame123" SimpleHost.world0)
           eq_refl Hrefuses).
Defined.

(** A vault that opens to a value that is no journal state: the page
    dispatches it all the same, the reducer holds its spread, and the page
    enters the app. *)
Example handleUnlock_loads_what_was_parsed :
  fst (Layout.handleUnlock (QArith_base.Qmake 0 1) (Visit.page0 "sesame123")
                           Visit.foreign_world)
  = (Ok tt,
     Layout.holding
       (Layout.untyped (JObj [("0", JBool true); ("unsavedChanges", JBool false)]))
       (Layout.setStatus Layout.app
          (Layout.set_activePassword (Some "sesame123") (Visit.page0 "sesame123")))).
Proof. vm_compute. reflexivity. Qed.

(** The first visit with nothing typed. *)
Lemma empty_password_session_saves_nothing_witness :
  falsy_item (localStorage SimpleHost.world0 "HERA_VAULT_CORE") = true
  /\ Layout.password (Visit.page0 "") = ""
  /\ exists page1 w1,
       Layout.handleUnlock (QArith_base.Qmake 0 1) (Visit.page0 "") SimpleHost.world0
       = (Ok tt, Layout.well_typed page1, w1)
       /\ Layout.status page1 = Layout.app
       /\ localStorage w1 "HERA_VAULT_CORE"
          = Some (JSON_stringify
                    (HeraVault_artifact (Store.DEFAULT_STATE (QArith_base.Qmake 0 1)) ""
                                        SimpleHost.world0))
       /\ forall (actions : list (number * Store.Action)) (w2 : World),
            Layout.handleSave (QArith_base.Qmake 0 1)
              (Layout.dispatch_all (QArith_base.Qmake 0 1) actions page1) w2
            = (Ok tt, Layout.dispatch_all (QArith_base.Qmake 0 1) actions page1, w2).
Proof.
  split; [reflexivity|]. split; [reflexivity|].
  exact (empty_password_session_saves_nothing (QArith_base.Qmake 0 1) (Visit.page0 "")
           SimpleHost.world0 eq_refl eq_refl).
Defined.

(** Text that is not JSON. *)
Lemma HeraSecurity_unlock_errors_witness :
  result (HeraSecurity.unlock "not an artifact" "sesame123") SimpleHost.world0
  = Throw SyntaxError
  /\ (SyntaxError = SyntaxError \/ SyntaxError = TypeError
      \/ SyntaxError = InvalidCharacterError
      \/ SyntaxError = Error "INVALID_CREDENTIALS"
      \/ SyntaxError = Error "DECRYPTION_FAILED").
Proof.
  assert (Hthrows :
    result (HeraSecurity.unlock "not an artifact" "sesame123") SimpleHost.world0
    = Throw SyntaxError) by (vm_compute; reflexivity).
  split; [exact Hthrows|].
  exact (HeraSecurity_unlock_errors "not an artifact" "sesame123" SimpleHost.world0
           SyntaxError Hthrows).
Defined.

(** The same text in the v96 page. *)
Lemma HeraVault96_unlock_errors_witness :
  result (HeraVault96.unlock "not an artifact" "sesame123") SimpleHost.world0
  = Throw (Error "CORRUPT_VAULT")
  /\ (Error "CORRUPT_VAULT" = Error "INVALID_PASSWORD"
      \/ Error "CORRUPT_VAULT" = Error "CORRUPT_VAULT").
Proof.
  assert (Hthrows :
    result (HeraVault96.unlock "not an artifact" "sesame123") SimpleHost.world0
    = Throw (Error "CORRUPT_VAULT")) by (vm_compute; reflexivity).
  split; [exact Hthrows|].
  exact (HeraVault96_unlock_errors "not an artifact" "sesame123" SimpleHost.world0
           (Error "CORRUPT_VAULT") Hthrows).
Defined.

(** The empty store, and the store after a lock opened with "wrong". *)
Lemma HeraVault_unlock_answers_witness :
  falsy_item (localStorage SimpleHost.world0 "HERA_VAULT_CORE") = true
  /\ HeraVault.unlock "sesame123" SimpleHost.world0 = (Ok None, SimpleHost.world0)
  /\ localStorage (HeraVault_locked SimpleHost.state0 "sesame123" SimpleHost.world0)
                  "HERA_VAULT_CORE"
     = Some (JSON_stringify
               (HeraVault_artifact SimpleHost.state0 "sesame123" SimpleHost.world0))
  /\ JSON_stringify
       (HeraVault_artifact SimpleHost.state0 "sesame123" SimpleHost.world0) <> ""
  /\ ((exists state,
          result (HeraVault.unlock "wrong")
                 (HeraVault_locked SimpleHost.state0 "sesame123" SimpleHost.world0)
          = Ok (Some state))
      \/ result (HeraVault.unlock "wrong")
                (HeraVault_locked SimpleHost.state0 "sesame123" SimpleHost.world0)
         = Throw (Error "ACCESS_DENIED: Decryption Failed.")).
Proof.
  assert (Hne : JSON_stringify
                  (HeraVault_artifact SimpleHost.state0 "sesame123" SimpleHost.world0)
                <> "") by apply JSON_stringify_nonempty.
  split; [reflexivity|].
  split; [exact (proj1 (HeraVault_unlock_answers "sesame123" SimpleHost.world0) eq_refl)|].
  split; [reflexivity|]. split; [exact Hne|].
  exact (proj2 (proj2 (HeraVault_unlock_answers "wrong"
                         (HeraVault_locked SimpleHost.state0 "sesame123"
                                           SimpleHost.world0))
                      _ eq_refl Hne)).
Defined.

(** An artifact without its hash, opened with the right password. *)
Lemma mismatch_stops_before_decrypt_witness :
  result (HeraSecurity.unlock SimpleHost.hashless_artifact "sesame123") SimpleHost.world0
  = Throw (Error "INVALID_CREDENTIALS")
  /\ decrypts (world_after (HeraSecurity.unlock SimpleHost.hashless_artifact "sesame123")
                           SimpleHost.world0)
     = decrypts SimpleHost.world0.
Proof.
  assert (Hthrows :
    result (HeraSecurity.unlock SimpleHost.hashless_artifact "sesame123")
           SimpleHost.world0
    = Throw (Error "INVALID_CREDENTIALS")) by (vm_compute; reflexivity).
  split; [exact Hthrows|].
  exact (proj1 (mismatch_stops_before_decrypt SimpleHost.hashless_artifact "sesame123"
                  SimpleHost.world0) Hthrows).
Defined.

(** Two saves: another key of the store is as it was. *)
Lemma lock_replaces_slot_with_fresh_salt_witness :
  "theme" <> "HERA_VAULT_CORE"
  /\ localStorage
       (world_after (HeraVault.lock SimpleHost.state1 "sesame123")
          (world_after (HeraVault.lock SimpleHost.state0 "sesame123") SimpleHost.world0))
       "theme"
     = localStorage SimpleHost.world0 "theme".
Proof.
  assert (Hne : "theme" <> "HERA_VAULT_CORE") by discriminate.
  split; [exact Hne|].
  exact (proj1 (proj2 (lock_replaces_slot_with_fresh_salt SimpleHost.state0
                         SimpleHost.state1 "sesame123" "sesame123" SimpleHost.world0))
               "theme" Hne).
Defined.

(** A server render. *)
Lemma server_side_vault_is_inert_witness :
  has_window Visit.server0 = false
  /\ HeraVaultSSR.lock SimpleHost.state0 "sesame123" Visit.server0 = (Ok tt, Visit.server0)
  /\ HeraVaultSSR.unlock "sesame123" Visit.server0 = (Ok None, Visit.server0)
  /\ HeraVaultSSR.deriveKey "sesame123" [] Visit.server0
     = (Throw (Error "Crypto unavailable on server"), Visit.server0).
Proof.
  split; [reflexivity|].
  exact (server_side_vault_is_inert SimpleHost.state0 "sesame123" [] Visit.server0
           eq_refl).
Defined.

(** The browser world. *)
Lemma browser_side_vault_agrees_witness :
  has_window SimpleHost.world0 = true
  /\ HeraVaultSSR.lock SimpleHost.state0 "sesame123" SimpleHost.world0
     = HeraVault.lock SimpleHost.state0 "sesame123" SimpleHost.world0.
Proof.
  split; [reflexivity|].
  exact (proj1 (browser_side_vault_agrees SimpleHost.state0 "sesame123" []
                  SimpleHost.world0 eq_refl)).
Defined.

(** The hash replaced by "AAAA". *)
Lemma altered_hash_reads_as_wrong_password_witness :
  JStr "AAAA"
  <> JStr (bufferToBase64 (verifier "sesame123" (fresh_salt SimpleHost.world0)))
  /\ forall w',
       result (HeraSecurity.unlock
                 (JSON_stringify
                    (set_prop "authHash" (JStr "AAAA")
                       (HeraSecurity_artifact SimpleHost.state0 "sesame123"
                                              SimpleHost.world0)))
                 "sesame123") w'
       = Throw (Error "INVALID_CREDENTIALS").
Proof.
  assert (Hne : JStr "AAAA"
                <> JStr (bufferToBase64
                           (verifier "sesame123" (fresh_salt SimpleHost.world0))))
    by (vm_compute; discriminate).
  split; [exact Hne|].
  exact (proj1 (altered_hash_reads_as_wrong_password SimpleHost.state0 "sesame123"
                  SimpleHost.world0 (JStr "AAAA") Hne)).
Defined.

(** Three spaces. *)
Lemma lock_guards_compared_witness :
  forallb is_js_whitespace (list_ascii_of_string "   ") = true
  /\ HeraSecurity.lock SimpleHost.state0 "   " SimpleHost.world0
     = (Throw (Error "Invalid Password"), SimpleHost.world0)
  /\ "   " <> ""
  /\ result (HeraVault96.lock SimpleHost.state0 "   ") SimpleHost.world0
     = Ok (JSON_stringify (HeraVault96_artifact SimpleHost.state0 "   " SimpleHost.world0)).
Proof.
  assert (Hne : "   " <> "") by discriminate.
  split; [reflexivity|].
  split; [exact (proj1 (lock_guards_compared SimpleHost.state0 "   " SimpleHost.world0)
                       eq_refl)|].
  split; [exact Hne|].
  exact (proj2 (proj2 (lock_guards_compared SimpleHost.state0 "   " SimpleHost.world0))
               Hne).
Defined.

(** What the v96 page sealed, opened by HeraSecurity. *)
Lemma artifacts_across_versions_witness :
  result (HeraVault96.lock SimpleHost.state0 "sesame123") SimpleHost.world0
  = Ok (JSON_stringify
          (HeraVault96_artifact SimpleHost.state0 "sesame123" SimpleHost.world0))
  /\ forall w',
       result (HeraSecurity.unlock
                 (JSON_stringify
                    (HeraVault96_artifact SimpleHost.state0 "sesame123"
                                          SimpleHost.world0))
                 "sesame123") w'
       = Ok (Types.AppState_toJSON SimpleHost.state0).
Proof.
  assert (Hlock :
    result (HeraVault96.lock SimpleHost.state0 "sesame123") SimpleHost.world0
    = Ok (JSON_stringify
            (HeraVault96_artifact SimpleHost.state0 "sesame123" SimpleHost.world0)))
    by (apply HeraVault96_lock_accepts; reflexivity).
  split; [exact Hlock|].
  exact (proj1 (proj1 (artifacts_across_versions SimpleHost.state0 "sesame123"
                         SimpleHost.world0 _) Hlock)).
Defined.
